(** * cdn-telemetry-kit: the minute-log generator

    A shallow embedding of [telemetry_kit/generator.py] and
    [telemetry_kit/schema.py].

    - Python [int] is [Z]; Python [float] is the kernel's binary64 [float],
      so every literal, product and comparison below rounds exactly as the
      interpreter's does.
    - [numpy.random.Generator] and the two [math] functions the generator
      calls ([sin], [log]) are interfaces: classes whose fields are the
      operations and the facts about them that the proofs use.
    - An exception ends the call: computations that draw from the generator
      have type [rng -> result (A * rng)]. *)

From Stdlib Require Import ZArith List String Ascii Bool Lia Floats DecimalString.
From Stdlib Require Uint63.
Import ListNotations.

Set Warnings "-inexact-float".

Local Open Scope string_scope.
Local Open Scope Z_scope.

(** ** The Python runtime *)

Module Py.

Inductive exn : Type :=
| ValueError
| OverflowError
| TypeError
| IndexError.

Inductive result (A : Type) : Type :=
| Ok (a : A)
| Raise (e : exn).
Arguments Ok {A} a.
Arguments Raise {A} e.

Definition rbind {A B} (r : result A) (k : A -> result B) : result B :=
  match r with
  | Ok a => k a
  | Raise e => Raise e
  end.

(** [max(a, b)] and [min(a, b)] on floats: the builtin keeps its first
    argument unless the second compares strictly greater (smaller), so a NaN
    in first position is returned and a NaN in second position is dropped. *)
Definition fmax (a b : float) : float := if (a <? b)%float then b else a.
Definition fmin (a b : float) : float := if (b <? a)%float then b else a.

(** [float(n)] for an integer [n], as in the mixed products [n * x]: the
    nearest binary64. (CPython raises OverflowError from 2^1024 on; every
    integer converted by the generator is far below.) *)
Definition Z2F (n : Z) : float := SF2Prim (binary_normalize prec emax n 0 false).

(** [int(x)]: truncation toward zero; [int(nan)] and [int(inf)] raise. *)
Definition py_int (x : float) : result Z :=
  match Prim2SF x with
  | S754_zero _ => Ok 0
  | S754_infinity _ => Raise OverflowError
  | S754_nan => Raise ValueError
  | S754_finite s m e =>
      let a := Z.shiftl (Zpos m) e in
      Ok (if s then - a else a)
  end.

(** [math.floor(x)], used only to state what [int] agrees with. *)
Definition py_floor (x : float) : result Z :=
  match Prim2SF x with
  | S754_zero _ => Ok 0
  | S754_infinity _ => Raise OverflowError
  | S754_nan => Raise ValueError
  | S754_finite s m e => Ok (Z.shiftl (if s then Zneg m else Zpos m) e)
  end.

Definition is_nan (x : float) : bool :=
  match Prim2SF x with S754_nan => true | _ => false end.

Definition is_finite (x : float) : bool :=
  match Prim2SF x with
  | S754_zero _ | S754_finite _ _ _ => true
  | _ => false
  end.

(** [d.get(k, default)] on a dict literal. *)
Fixpoint dict_get {A} (d : list (string * A)) (k : string) (default : A) : A :=
  match d with
  | [] => default
  | (k', v) :: d' => if String.eqb k' k then v else dict_get d' k default
  end.

(** [s.startswith(p)]. *)
Definition startswith (s p : string) : bool := String.prefix p s.

End Py.

(** ** telemetry_kit/schema.py *)

Module Schema.

Definition DEFAULT_SERVICES : list string :=
  ["live"; "vod"; "dvr"; "eas"; "live_ott"; "app_backend"].
Definition DEFAULT_CONTENT_TYPES : list string := ["manifest"; "segment"; "api"].
Definition DEFAULT_REGIONS : list string :=
  ["us-east"; "us-west"; "us-central";
   "eu-west"; "eu-central";
   "ap-south"; "ap-northeast";
   "sa-east"].
Definition DEFAULT_UA_FAMILIES : list string :=
  ["stb"; "mobile"; "web"; "smart_tv"; "console"].

Definition RAW_MINUTE_COLUMNS : list string :=
  ["seed";
   "ts"; "partner"; "service"; "region"; "pop"; "host"; "content_type"; "ua_family";
   "requests"; "bytes_sent"; "p50_ms"; "p95_ms"; "p99_ms"; "cache_hit_rate";
   "http_2xx_count"; "http_3xx_count"; "http_4xx_count"; "http_5xx_count";
   "status_500"; "status_502"; "status_503"; "status_504";
   "crc_errors"].

End Schema.

(** ** datetime

    A [datetime] is the instant it denotes, in microseconds since the epoch,
    and whether it carries a tzinfo. For a naive value the instant is its
    wall clock read as UTC, which is how [_ensure_utc] reads it. The year
    1..9999 range of the Python type is not modelled. *)

Module Datetime.
Import Py.

Record datetime : Type := mk { instant_us : Z; tzaware : bool }.

Definition hour (d : datetime) : Z := (instant_us d / 3600000000) mod 24.

(** [dt.replace(second=0, microsecond=0)] *)
Definition floor_minute (d : datetime) : datetime :=
  mk (instant_us d - instant_us d mod 60000000) (tzaware d).

(** [dt + timedelta(minutes=m)] *)
Definition add_minutes (d : datetime) (m : Z) : datetime :=
  mk (instant_us d + m * 60000000) (tzaware d).

(** [a <= b] and [a < b]: ordering a naive against an aware datetime raises. *)
Definition le (a b : datetime) : result bool :=
  if Bool.eqb (tzaware a) (tzaware b) then Ok (instant_us a <=? instant_us b)
  else Raise TypeError.
Definition lt (a b : datetime) : result bool :=
  if Bool.eqb (tzaware a) (tzaware b) then Ok (instant_us a <? instant_us b)
  else Raise TypeError.

End Datetime.

(** ** math and numpy.random *)

(** [math.pi], [math.sin], [math.log]. The two functions are the platform's
    libm; the one fact used about them is C Annex F's [sin(+0) = +0]. *)
Class Libm : Type := {
  sin : float -> float;
  log : float -> float;
  sin_zero : sin 0%float = 0%float
}.

Definition pi : float := 3.141592653589793%float.

(** [numpy.random.Generator]: a bit-generator state threaded through the
    draws, with the range facts numpy documents for each distribution. *)
Class Generator : Type := {
  bitgen : Type;
  (** [default_rng(seed)] for [seed >= 0] *)
  seed_bitgen : Z -> bitgen;
  (** an index below [n], as [choice(a)] picks one from a sequence of length [n] *)
  draw_index : nat -> bitgen -> nat * bitgen;
  (** [choice(n, size=k, replace=False)] for [k <= n] *)
  draw_sample : nat -> nat -> bitgen -> list nat * bitgen;
  draw_poisson : float -> bitgen -> Z * bitgen;
  draw_normal : float -> float -> bitgen -> float * bitgen;
  draw_lognormal : float -> float -> bitgen -> float * bitgen;
  draw_binomial : Z -> float -> bitgen -> Z * bitgen;

  draw_index_lt : forall n g, (0 < n)%nat -> (fst (draw_index n g) < n)%nat;
  draw_sample_length : forall n k g, (k <= n)%nat ->
    List.length (fst (draw_sample n k g)) = k;
  draw_sample_NoDup : forall n k g, (k <= n)%nat -> NoDup (fst (draw_sample n k g));
  draw_sample_lt : forall n k g i, (k <= n)%nat ->
    In i (fst (draw_sample n k g)) -> (i < n)%nat;
  (** an int64 count *)
  draw_poisson_range : forall lam g,
    0 <= fst (draw_poisson lam g) < 2 ^ 63;
  draw_binomial_range : forall n p g, 0 <= n ->
    0 <= fst (draw_binomial n p g) <= n
}.

(** ** telemetry_kit/generator.py *)

Module Incident.

(** [@dataclass class Incident] *)
Record t : Type := mk {
  name : string;
  start_ts : Datetime.datetime;
  end_ts : Datetime.datetime;
  kind : string;
  partner : option string;
  service : option string;
  region : option string;
  pop : option string;
  content_type : option string;
  intensity : float
}.

End Incident.

Module Slice.

(** An entry of [slice_pool]. *)
Record t : Type := mk {
  partner : string;
  service : string;
  region : string;
  pop : string;
  host : string;
  ctype : string;
  ua_family : string
}.

End Slice.

Module Row.

(** One dict of [rows]: the columns of the returned DataFrame. *)
Record t : Type := mk {
  seed : Z;
  ts : Datetime.datetime;
  partner : string;
  service : string;
  region : string;
  pop : string;
  host : string;
  content_type : string;
  ua_family : string;
  requests : Z;
  bytes_sent : Z;
  p50_ms : float;
  p95_ms : float;
  p99_ms : float;
  cache_hit_rate : float;
  http_2xx_count : Z;
  http_3xx_count : Z;
  http_4xx_count : Z;
  http_5xx_count : Z;
  status_500 : Z;
  status_502 : Z;
  status_503 : Z;
  status_504 : Z;
  crc_errors : Z
}.

End Row.

Module Locals.

(** The locals of a slice-minute that an incident may rewrite. *)
Record t : Type := mk {
  cache_hit : float;
  p50 : float;
  p95 : float;
  p99 : float;
  status_503 : Z;
  status_504 : Z;
  crc_errors : Z
}.

End Locals.

Module Gen.
Import Py.
Export Py.

Section Generate.

Context {L : Libm} {G : Generator}.

(** *** Computations that draw from [rng] *)

Definition M (A : Type) : Type := bitgen -> result (A * bitgen).

Definition ret {A} (a : A) : M A := fun g => Ok (a, g).

Definition bind {A B} (c : M A) (k : A -> M B) : M B :=
  fun g =>
    match c g with
    | Ok (a, g') => k a g'
    | Raise e => Raise e
    end.

Definition lift {A} (r : result A) : M A :=
  fun g =>
    match r with
    | Ok a => Ok (a, g)
    | Raise e => Raise e
    end.

Definition draw {A} (d : bitgen -> A * bitgen) : M A := fun g => Ok (d g).

Notation "x <- c ;; k" := (bind c (fun x => k))
  (at level 61, c at next level, right associativity).

(** [rng.choice(a)] on a list: one element; an empty [a] raises. *)
Definition rng_choice {A} (a : list A) : M A :=
  match a with
  | [] => lift (Raise ValueError)
  | d :: _ => i <- draw (draw_index (List.length a)) ;; ret (nth i a d)
  end.

(** [rng.choice(n, size=k, replace=False)]: [size] is first converted to a
    C integer, which refuses what does not fit in 64 bits; then a sample
    larger than the population, or a negative size, raises. *)
Definition rng_choice_distinct (n : nat) (k : Z) : M (list nat) :=
  if (k <? - 2 ^ 63) || (2 ^ 63 <=? k) then lift (Raise OverflowError)
  else if (Z.of_nat n <? k) || (k <? 0) then lift (Raise ValueError)
  else draw (draw_sample n (Z.to_nat k)).

Definition rng_poisson (lam : float) : M Z := draw (draw_poisson lam).
Definition rng_normal (loc scale : float) : M float := draw (draw_normal loc scale).
Definition rng_lognormal (mean sigma : float) : M float := draw (draw_lognormal mean sigma).
Definition rng_binomial (n : Z) (p : float) : M Z := draw (draw_binomial n p).

(** *** Helpers *)

Definition _ensure_utc (dt : Datetime.datetime) : Datetime.datetime :=
  Datetime.mk (Datetime.instant_us dt) true.

Definition _utc_minute_floor (dt : Datetime.datetime) : Datetime.datetime :=
  Datetime.floor_minute (_ensure_utc dt).

Definition _clamp (x lo hi : float) : float := fmax lo (fmin hi x).

Definition _matches (val : string) (expected : option string) : bool :=
  match expected with
  | None => true
  | Some e => String.eqb val e
  end.

(** [f"{i:0{width}d}"] for [i >= 0] *)
Definition zero_pad (width : nat) (i : Z) : string :=
  let digits := NilEmpty.string_of_uint (N.to_uint (Z.to_N i)) in
  let digits := if (String.length digits =? 0)%nat then "0" else digits in
  String.concat "" (repeat "0" (width - String.length digits)) ++ digits.

(** [[f"{prefix}{i:0{width}d}" for i in range(1, n + 1)]] *)
Definition numbered (prefix : string) (width : nat) (n : Z) : list string :=
  map (fun i => prefix ++ zero_pad width (Z.of_nat i)) (seq 1 (Z.to_nat n)).

(** [x or default] on an optional list argument: [None] and [[]] are falsy. *)
Definition py_or {A} (x : option (list A)) (default : list A) : list A :=
  match x with
  | Some (a :: l) => a :: l
  | _ => default
  end.

(** *** The traffic model *)

Definition traffic_multiplier (ts : Datetime.datetime) : float :=
  let hour := Datetime.hour ts in
  (0.85 + 0.35 * sin (Z2F (hour - 14) * (2 * pi / 24)))%float.

(** *** The slice pool *)

Definition POOL_SIZE : nat := Z.to_nat 5000.

Fixpoint build_pool (n : nat)
    (partners services regions pops hosts content_types ua_families : list string)
    : M (list Slice.t) :=
  match n with
  | O => ret []
  | S n' =>
      partner <- rng_choice partners ;;
      service <- rng_choice services ;;
      region <- rng_choice regions ;;
      pop <- rng_choice pops ;;
      host <- rng_choice hosts ;;
      ctype <- rng_choice content_types ;;
      ua_family <- rng_choice ua_families ;;
      rest <- build_pool n' partners services regions pops hosts content_types ua_families ;;
      ret (Slice.mk partner service region pop host ctype ua_family :: rest)
  end.

(** *** Per-minute sample size: [k = max(50, int(len(slice_pool) * density))] *)

Definition sample_size (pool_len : nat) (density : float) : result Z :=
  rbind (py_int (Z2F (Z.of_nat pool_len) * density)%float)
        (fun n => Ok (Z.max 50 n)).

(** *** Arrival rate *)

Definition region_mult (region : string) : float :=
  (1.0 + (if startswith region "us" then 0.15 else 0.05))%float.

Definition arrival_rate (service ctype region : string) (mult : float) : float :=
  let base_rps :=
    dict_get [("live", 90); ("vod", 60); ("dvr", 25); ("eas", 10);
              ("live_ott", 40); ("app_backend", 35)] service 30 in
  let ctype_mult :=
    dict_get [("manifest", 0.35); ("segment", 1.0); ("api", 0.55)]%float ctype 0.6%float in
  fmax 0.0 (Z2F (base_rps * 60) * ctype_mult * region_mult region * mult)%float.

(** *** Incidents *)

(** [inc.start_ts <= ts < inc.end_ts]: the second comparison is evaluated
    only when the first holds. *)
Definition in_window (inc : Incident.t) (ts : Datetime.datetime) : result bool :=
  rbind (Datetime.le (Incident.start_ts inc) ts)
        (fun a => if a then Datetime.lt ts (Incident.end_ts inc) else Ok false).

Definition slice_matches (inc : Incident.t) (sl : Slice.t) : bool :=
  _matches (Slice.partner sl) (Incident.partner inc)
  && _matches (Slice.service sl) (Incident.service inc)
  && _matches (Slice.region sl) (Incident.region inc)
  && _matches (Slice.pop sl) (Incident.pop inc)
  && _matches (Slice.ctype sl) (Incident.content_type inc).

(** The [if inc.kind == ...] chain, at intensity [inten]. *)
Definition mutate (kind : string) (inten : float) (requests : Z) (mb : float)
    (v : Locals.t) : result Locals.t :=
  if String.eqb kind "latency" then
    Ok (Locals.mk (Locals.cache_hit v)
                 (Locals.p50 v * (1.3 * inten))%float
                 (Locals.p95 v * (1.8 * inten))%float
                 (Locals.p99 v * (2.2 * inten))%float
                 (Locals.status_503 v) (Locals.status_504 v) (Locals.crc_errors v))
  else if String.eqb kind "cache_collapse" then
    Ok (Locals.mk (_clamp (Locals.cache_hit v - (0.35 * inten))%float 0.01 0.99)
                 (Locals.p50 v)
                 (Locals.p95 v * (1.4 * inten))%float
                 (Locals.p99 v * (1.7 * inten))%float
                 (Locals.status_503 v) (Locals.status_504 v) (Locals.crc_errors v))
  else if String.eqb kind "origin_overload" then
    rbind (py_int (Z2F requests * _clamp (0.02 * inten)%float 0.0 0.4)%float)
          (fun d =>
             Ok (Locals.mk (Locals.cache_hit v) (Locals.p50 v)
                          (Locals.p95 v * (1.5 * inten))%float
                          (Locals.p99 v * (1.9 * inten))%float
                          (Locals.status_503 v + d) (Locals.status_504 v) (Locals.crc_errors v)))
  else if String.eqb kind "timeouts" then
    rbind (py_int (Z2F requests * _clamp (0.015 * inten)%float 0.0 0.35)%float)
          (fun d =>
             Ok (Locals.mk (Locals.cache_hit v) (Locals.p50 v) (Locals.p95 v)
                          (Locals.p99 v * (2.4 * inten))%float
                          (Locals.status_503 v) (Locals.status_504 v + d) (Locals.crc_errors v)))
  else if String.eqb kind "crc_spike" then
    rbind (py_int (fmax 0.0 (mb * (0.25 * inten))%float))
          (fun d =>
             Ok (Locals.mk (Locals.cache_hit v) (Locals.p50 v) (Locals.p95 v) (Locals.p99 v)
                          (Locals.status_503 v) (Locals.status_504 v) (Locals.crc_errors v + d)))
  else Ok v.

(** [for inc in incidents: ...] *)
Fixpoint apply_incidents (incidents : list Incident.t) (ts : Datetime.datetime)
    (sl : Slice.t) (requests : Z) (mb : float) (v : Locals.t) : result Locals.t :=
  match incidents with
  | [] => Ok v
  | inc :: rest =>
      rbind (in_window inc ts) (fun w =>
        if negb w then apply_incidents rest ts sl requests mb v
        else if negb (slice_matches inc sl) then apply_incidents rest ts sl requests mb v
        else
          let inten := fmax 0.1 (Incident.intensity inc) in
          rbind (mutate (Incident.kind inc) inten requests mb v) (fun v' =>
            apply_incidents rest ts sl requests mb v'))
  end.

(** *** Status buckets *)

(** From [http_5xx = ...] to the paranoia check: the four bucket counts
    [(http_2xx, http_3xx, http_4xx, http_5xx)]. *)
Definition bucket_counts (service ctype : string) (requests : Z)
    (status_500 status_502 status_503 status_504 : Z) : M (Z * Z * Z * Z) :=
  let http_5xx := status_500 + status_502 + status_503 + status_504 in
  let remaining := Z.max 0 (requests - http_5xx) in
  let base_4xx := 0.004%float in
  let base_4xx := if String.eqb service "app_backend" then (base_4xx * 2.0)%float else base_4xx in
  let base_4xx := if String.eqb ctype "api" then (base_4xx * 1.5)%float else base_4xx in
  http_4xx <- rng_binomial remaining (fmin base_4xx 0.25) ;;
  let remaining := remaining - http_4xx in
  let base_3xx := 0.02%float in
  let base_3xx := if String.eqb ctype "manifest" then (base_3xx * 1.3)%float else base_3xx in
  let base_3xx := if String.eqb ctype "api" then (base_3xx * 1.1)%float else base_3xx in
  http_3xx <- rng_binomial remaining (fmin base_3xx 0.40) ;;
  let remaining := remaining - http_3xx in
  let http_2xx := Z.max 0 remaining in
  let http_2xx :=
    if negb (http_2xx + http_3xx + http_4xx + http_5xx =? requests)
    then Z.max 0 (requests - (http_3xx + http_4xx + http_5xx))
    else http_2xx in
  ret (http_2xx, http_3xx, http_4xx, http_5xx).

(** *** One slice in one minute: the body of [for idx in idxs], from the
    tuple unpacking to [rows.append]; [None] is the [continue] on zero
    requests. *)
Definition slice_minute (seed : Z) (incidents : list Incident.t)
    (ts : Datetime.datetime) (mult : float) (sl : Slice.t) : M (option Row.t) :=
  let partner := Slice.partner sl in
  let service := Slice.service sl in
  let region := Slice.region sl in
  let pop := Slice.pop sl in
  let host := Slice.host sl in
  let ctype := Slice.ctype sl in
  let ua_family := Slice.ua_family sl in
  let lam := arrival_rate service ctype region mult in
  requests <- rng_poisson lam ;;
  if requests =? 0 then ret None
  else
    let base_cache :=
      dict_get [("manifest", 0.82); ("segment", 0.90); ("api", 0.55)]%float ctype 0.75%float in
    c <- rng_normal base_cache 0.05 ;;
    let cache_hit := _clamp c 0.05 0.99 in
    let base_p50 := dict_get [("manifest", 120); ("segment", 80); ("api", 160)] ctype 110 in
    let svc_add :=
      dict_get [("live", 15); ("vod", 10); ("dvr", 20); ("eas", 25);
                ("live_ott", 18); ("app_backend", 30)] service 15 in
    x50 <- rng_lognormal (log (Z2F (base_p50 + svc_add))) 0.25 ;;
    let p50 := fmax 5.0 x50 in
    f95 <- rng_normal 2.2 0.25 ;;
    let p95 := (p50 * f95)%float in
    f99 <- rng_normal 3.4 0.35 ;;
    let p99 := (p50 * f99)%float in
    let avg_bytes :=
      dict_get [("manifest", 18000); ("segment", 900000); ("api", 45000)] ctype 120000 in
    xb <- rng_normal (Z2F avg_bytes) (Z2F avg_bytes * 0.15)%float ;;
    bytes_sent <- lift (py_int (Z2F requests * fmax 2000.0 xb)%float) ;;
    let base_500 := 0.0004%float in
    let base_502 := 0.0003%float in
    let base_503 := 0.0002%float in
    let base_504 := 0.0002%float in
    let base_500 := if String.eqb service "app_backend" then (base_500 * 2.0)%float else base_500 in
    let base_504 := if String.eqb service "app_backend" then (base_504 * 1.5)%float else base_504 in
    status_500 <- rng_binomial requests base_500 ;;
    status_502 <- rng_binomial requests base_502 ;;
    status_503 <- rng_binomial requests base_503 ;;
    status_504 <- rng_binomial requests base_504 ;;
    let mb := (Z2F bytes_sent / 1e6)%float in
    crc_errors <- rng_poisson (fmax 0.0 (mb * 0.002)%float) ;;
    v <- lift (apply_incidents incidents ts sl requests mb
                 (Locals.mk cache_hit p50 p95 p99 status_503 status_504 crc_errors)) ;;
    let p95 := fmax (Locals.p95 v) (Locals.p50 v) in
    let p99 := fmax (Locals.p99 v) p95 in
    b <- bucket_counts service ctype requests status_500 status_502
           (Locals.status_503 v) (Locals.status_504 v) ;;
    let '(http_2xx, http_3xx, http_4xx, http_5xx) := b in
    ret (Some (Row.mk seed ts partner service region pop host ctype ua_family
                 requests bytes_sent (Locals.p50 v) p95 p99 (Locals.cache_hit v)
                 http_2xx http_3xx http_4xx http_5xx
                 status_500 status_502 (Locals.status_503 v) (Locals.status_504 v)
                 (Locals.crc_errors v))).

(** *** The loops *)

(** [for idx in idxs: ...] *)
Fixpoint slice_loop (seed : Z) (incidents : list Incident.t)
    (ts : Datetime.datetime) (mult : float) (slice_pool : list Slice.t)
    (idxs : list nat) : M (list Row.t) :=
  match idxs with
  | [] => ret []
  | idx :: idxs' =>
      sl <- lift (match nth_error slice_pool idx with
                  | Some sl => Ok sl
                  | None => Raise IndexError
                  end) ;;
      r <- slice_minute seed incidents ts mult sl ;;
      rest <- slice_loop seed incidents ts mult slice_pool idxs' ;;
      ret (match r with Some row => row :: rest | None => rest end)
  end.

(** The indices drawn for one minute. *)
Definition minute_sample (slice_pool : list Slice.t) (density : float) : M (list nat) :=
  k <- lift (sample_size (List.length slice_pool) density) ;;
  rng_choice_distinct (List.length slice_pool) k.

(** The body of [for m in range(minutes)]. *)
Definition minute_rows (seed : Z) (incidents : list Incident.t)
    (ts0 : Datetime.datetime) (density : float) (slice_pool : list Slice.t)
    (m : Z) : M (list Row.t) :=
  let ts := Datetime.add_minutes ts0 m in
  let mult := traffic_multiplier ts in
  idxs <- minute_sample slice_pool density ;;
  slice_loop seed incidents ts mult slice_pool idxs.

Fixpoint minute_loop (seed : Z) (incidents : list Incident.t)
    (ts0 : Datetime.datetime) (density : float) (slice_pool : list Slice.t)
    (ms : list Z) : M (list Row.t) :=
  match ms with
  | [] => ret []
  | m :: ms' =>
      rows <- minute_rows seed incidents ts0 density slice_pool m ;;
      rest <- minute_loop seed incidents ts0 density slice_pool ms' ;;
      ret (rows ++ rest)%list
  end.

(** [range(n)] *)
Definition range (n : Z) : list Z := map Z.of_nat (seq 0 (Z.to_nat n)).

(** *** [generate_minute_logs] *)

Record Args : Type := mkArgs {
  start_ts_utc : Datetime.datetime;
  minutes : Z;
  n_partners : Z;
  n_pops : Z;
  n_hosts : Z;
  services : option (list string);
  regions : option (list string);
  content_types : option (list string);
  ua_families : option (list string);
  seed : Z;
  incidents : option (list Incident.t);
  density : float
}.

(** The keyword defaults of the signature. *)
Definition default_args (start_ts_utc : Datetime.datetime) (minutes : Z) : Args :=
  mkArgs start_ts_utc minutes 6 20 120 None None None None 7 None 0.10%float.

(** The function body after [rng = np.random.default_rng(seed)]. *)
Definition generate_body (a : Args) : M (list Row.t) :=
  let services := py_or (services a) Schema.DEFAULT_SERVICES in
  let regions := py_or (regions a) Schema.DEFAULT_REGIONS in
  let content_types := py_or (content_types a) Schema.DEFAULT_CONTENT_TYPES in
  let ua_families := py_or (ua_families a) Schema.DEFAULT_UA_FAMILIES in
  let incidents := match incidents a with Some l => l | None => [] end in
  let ts0 := _utc_minute_floor (start_ts_utc a) in
  let partners := numbered "partner_" 2 (n_partners a) in
  let pops := numbered "pop_" 3 (n_pops a) in
  let hosts := numbered "host_" 4 (n_hosts a) in
  slice_pool <- build_pool POOL_SIZE partners services regions pops hosts
                  content_types ua_families ;;
  minute_loop (seed a) incidents ts0 (density a) slice_pool (range (minutes a)).

(** The returned DataFrame as its list of rows, or the exception raised;
    [default_rng] refuses a negative seed. *)
Definition generate_minute_logs (a : Args) : result (list Row.t) :=
  if seed a <? 0 then Raise ValueError
  else
    match generate_body a (seed_bitgen (seed a)) with
    | Ok (rows, _) => Ok rows
    | Raise e => Raise e
    end.

End Generate.

End Gen.

(** ** A replay generator

    A concrete [Libm] and [Generator] to run the model on: [sin] replays the
    values glibc returns at the 24 arguments the traffic model can pass, and
    every draw is a fixed function of its parameters and a counter (a count
    near the distribution's centre, a cyclic index, a window of consecutive
    indices). *)

Module Replay.
Import Py.

Definition sin_table : list (float * float) :=
  [ (-0x1.d524fe24f89f1p+1, 0x1.ffffffffffffbp-2);
    (-0x1.b3a259b49db84p+1, 0x1.0907dc1930689p-2);
    (-0x1.921fb54442d18p+1, -0x1.1a62633145c07p-53);
    (-0x1.709d10d3e7eabp+1, -0x1.0907dc1930695p-2);
    (-0x1.4f1a6c638d03ep+1, -0x1.0000000000003p-1);
    (-0x1.2d97c7f3321d2p+1, -0x1.6a09e667f3bcdp-1);
    (-0x1.0c152382d7365p+1, -0x1.bb67ae8584cabp-1);
    (-0x1.d524fe24f89f1p+0, -0x1.ee8dd4748bf15p-1);
    (-0x1.921fb54442d18p+0, -0x1p+0);
    (-0x1.4f1a6c638d03ep+0, -0x1.ee8dd4748bf14p-1);
    (-0x1.0c152382d7365p+0, -0x1.bb67ae8584caap-1);
    (-0x1.921fb54442d18p-1, -0x1.6a09e667f3bccp-1);
    (-0x1.0c152382d7365p-1, -0x1.fffffffffffffp-2);
    (-0x1.0c152382d7365p-2, -0x1.0907dc1930690p-2);
    (0x1.0c152382d7365p-2, 0x1.0907dc1930690p-2);
    (0x1.0c152382d7365p-1, 0x1.fffffffffffffp-2);
    (0x1.921fb54442d18p-1, 0x1.6a09e667f3bccp-1);
    (0x1.0c152382d7365p+0, 0x1.bb67ae8584caap-1);
    (0x1.4f1a6c638d03ep+0, 0x1.ee8dd4748bf14p-1);
    (0x1.921fb54442d18p+0, 0x1p+0);
    (0x1.d524fe24f89f1p+0, 0x1.ee8dd4748bf15p-1);
    (0x1.0c152382d7365p+1, 0x1.bb67ae8584cabp-1);
    (0x1.2d97c7f3321d2p+1, 0x1.6a09e667f3bcdp-1) ]%float.

Fixpoint lookup (t : list (float * float)) (x : float) : float :=
  match t with
  | [] => x
  | (a, s) :: t' => if (a =? x)%float then s else lookup t' x
  end.

Definition sin (x : float) : float := lookup sin_table x.

(** [log] is left as the identity; [draw_lognormal] below undoes it the same way. *)
Definition log (x : float) : float := x.

Lemma sin_zero : sin 0%float = 0%float.
Proof. reflexivity. Qed.

Definition libm : Libm := Build_Libm sin log sin_zero.

(** The draws. [quiet] makes every Poisson count zero. *)

Definition index (n : nat) (g : Z) : nat * Z :=
  (Z.to_nat (g mod Z.of_nat n), g + 1).

Definition sample (n k : nat) (g : Z) : list nat * Z :=
  (seq (Z.to_nat (g mod (Z.of_nat (n - k) + 1))) k, g + 1).

Definition count_near (x : float) (hi : Z) : Z :=
  match py_int x with
  | Ok z => Z.max 0 (Z.min z hi)
  | Raise _ => 0
  end.

Definition poisson (quiet : bool) (lam : float) (g : Z) : Z * Z :=
  (if quiet then 0 else count_near lam (2 ^ 63 - 1), g + 1).

Definition spread (g : Z) : float := (Z2F (g mod 5 - 2) * 0.5)%float.

Definition normal (loc scale : float) (g : Z) : float * Z :=
  ((loc + scale * spread g)%float, g + 1).

Definition lognormal (mean sigma : float) (g : Z) : float * Z :=
  ((mean * (1 + sigma * spread g))%float, g + 1).

Definition binomial (n : Z) (p : float) (g : Z) : Z * Z :=
  (count_near (Z2F n * p)%float n, g + 1).

Lemma index_lt n g : (0 < n)%nat -> (fst (index n g) < n)%nat.
Proof.
  intros Hn. unfold index. cbn [fst].
  assert (0 <= g mod Z.of_nat n < Z.of_nat n) by (apply Z.mod_pos_bound; lia).
  apply Nat2Z.inj_lt. rewrite Z2Nat.id; lia.
Qed.

Lemma sample_length n k g : (k <= n)%nat -> List.length (fst (sample n k g)) = k.
Proof. intros _. unfold sample. cbn [fst]. apply length_seq. Qed.

Lemma sample_NoDup n k g : (k <= n)%nat -> NoDup (fst (sample n k g)).
Proof. intros _. unfold sample. cbn [fst]. apply seq_NoDup. Qed.

Lemma sample_lt n k g i : (k <= n)%nat -> In i (fst (sample n k g)) -> (i < n)%nat.
Proof.
  intros Hk. unfold sample. cbn [fst]. rewrite in_seq.
  assert (0 <= g mod (Z.of_nat (n - k) + 1) < Z.of_nat (n - k) + 1)
    by (apply Z.mod_pos_bound; lia).
  intros [_ Hi]. apply Nat2Z.inj_lt.
  assert (Z.of_nat (Z.to_nat (g mod (Z.of_nat (n - k) + 1))) = g mod (Z.of_nat (n - k) + 1))
    by (apply Z2Nat.id; lia).
  lia.
Qed.

Lemma count_near_range x hi : 0 <= hi -> 0 <= count_near x hi <= hi.
Proof. intros Hhi. unfold count_near. destruct (py_int x); lia. Qed.

Lemma poisson_range quiet lam g : 0 <= fst (poisson quiet lam g) < 2 ^ 63.
Proof.
  unfold poisson. cbn [fst]. destruct quiet; [lia|].
  assert (0 <= 2 ^ 63 - 1) as Hhi by lia.
  pose proof (count_near_range lam (2 ^ 63 - 1) Hhi). lia.
Qed.

Lemma binomial_range n p g : 0 <= n -> 0 <= fst (binomial n p g) <= n.
Proof. intros Hn. unfold binomial. cbn [fst]. now apply count_near_range. Qed.

Definition generator (quiet : bool) : Generator :=
  {| bitgen := Z;
     seed_bitgen := fun s => s;
     draw_index := index;
     draw_sample := sample;
     draw_poisson := poisson quiet;
     draw_normal := normal;
     draw_lognormal := lognormal;
     draw_binomial := binomial;
     draw_index_lt := index_lt;
     draw_sample_length := sample_length;
     draw_sample_NoDup := sample_NoDup;
     draw_sample_lt := sample_lt;
     draw_poisson_range := poisson_range quiet;
     draw_binomial_range := binomial_range |}.

(** A call with the signature's defaults from 2026-02-20T00:00:00Z. *)
Definition epoch_2026_02_20 : Datetime.datetime :=
  Datetime.mk 1771545600000000 true.

Definition run (quiet : bool) (a : Gen.Args) : result (list Row.t) :=
  @Gen.generate_minute_logs libm (generator quiet) a.

End Replay.

(** * Properties *)

Import Py Gen.

(** ** Reading a successful run backwards *)

Section Inversion.

Context {L : Libm} {G : Generator}.

Lemma rbind_Ok_inv {A B} (r : result A) (k : A -> result B) b :
  rbind r k = Ok b -> exists a, r = Ok a /\ k a = Ok b.
Proof.
  destruct r as [a|e]; simpl; intros H; [|discriminate].
  exists a. now split.
Qed.

Lemma bind_Ok_inv {A B} (c : M A) (k : A -> M B) g b g' :
  bind c k g = Ok (b, g') ->
  exists a g1, c g = Ok (a, g1) /\ k a g1 = Ok (b, g').
Proof.
  unfold bind. destruct (c g) as [[a g1]|e]; intros H; [|discriminate].
  exists a, g1. now split.
Qed.

Lemma lift_Ok_inv {A} (r : result A) g a g' :
  lift r g = Ok (a, g') -> r = Ok a /\ g' = g.
Proof.
  unfold lift. destruct r as [x|e]; intros H; [|discriminate].
  inversion H; subst. now split.
Qed.

Lemma ret_Ok_inv {A} (x : A) g a g' :
  ret x g = Ok (a, g') -> a = x /\ g' = g.
Proof. unfold ret. intros H. inversion H; subst. now split. Qed.

Lemma draw_Ok_inv {A} (d : bitgen -> A * bitgen) g a g' :
  draw d g = Ok (a, g') -> a = fst (d g) /\ g' = snd (d g).
Proof. unfold draw. intros H. inversion H as [E]. now rewrite E. Qed.

End Inversion.

(** Peel the outermost step of a computation known to have succeeded. *)
Ltac inv_step H :=
  lazymatch type of H with
  | bind _ _ _ = Ok _ =>
      let a := fresh "a" in
      let g := fresh "g" in
      let Ha := fresh "Hstep" in
      apply bind_Ok_inv in H; destruct H as (a & g & Ha & H)
  | rbind _ _ = Ok _ =>
      let a := fresh "a" in
      let Ha := fresh "Hstep" in
      apply rbind_Ok_inv in H; destruct H as (a & Ha & H)
  | lift _ _ = Ok _ =>
      let E := fresh "E" in
      apply lift_Ok_inv in H; destruct H as (H & E); subst
  | ret _ _ = Ok _ =>
      let E := fresh "E" in
      apply ret_Ok_inv in H; destruct H as (H & E)
  | draw _ _ = Ok _ =>
      let E := fresh "E" in
      apply draw_Ok_inv in H; destruct H as (H & E)
  | rng_poisson _ _ = Ok _ => unfold rng_poisson in H; inv_step H
  | rng_normal _ _ _ = Ok _ => unfold rng_normal in H; inv_step H
  | rng_lognormal _ _ _ = Ok _ => unfold rng_lognormal in H; inv_step H
  | rng_binomial _ _ _ = Ok _ => unfold rng_binomial in H; inv_step H
  end.

(** ** Every row of the result comes from one slice-minute *)

Section Emitted.

Context {L : Libm} {G : Generator}.

(** [emitted seed incidents r]: some slice, in some minute, from some
    generator state, appended [r]. *)
Definition emitted (seed : Z) (incidents : list Incident.t) (r : Row.t) : Prop :=
  exists ts mult sl g g',
    Datetime.tzaware ts = true
    /\ slice_minute seed incidents ts mult sl g = Ok (Some r, g').

Lemma slice_loop_emitted seed incidents ts mult pool idxs :
  Datetime.tzaware ts = true ->
  forall g rows g',
    slice_loop seed incidents ts mult pool idxs g = Ok (rows, g') ->
    Forall (emitted seed incidents) rows.
Proof.
  intros Hts.
  induction idxs as [|idx idxs IH]; intros g rows g' H; simpl in H.
  - inv_step H. subst. constructor.
  - inv_step H. inv_step H. inv_step H. inv_step H. subst rows.
    specialize (IH _ _ _ Hstep1).
    destruct a0 as [row|]; [|exact IH].
    constructor; [|exact IH].
    now exists ts, mult, a, g0, g1.
Qed.

Lemma minute_loop_emitted seed incidents ts0 density pool ms :
  Datetime.tzaware ts0 = true ->
  forall g rows g',
    minute_loop seed incidents ts0 density pool ms g = Ok (rows, g') ->
    Forall (emitted seed incidents) rows.
Proof.
  intros Hts0.
  induction ms as [|m ms IH]; intros g rows g' H; simpl in H.
  - inv_step H. subst. constructor.
  - inv_step H. inv_step H. inv_step H. subst rows.
    apply Forall_app. split; [|now apply (IH _ _ _ Hstep0)].
    unfold minute_rows in Hstep. inv_step Hstep.
    assert (Datetime.tzaware (Datetime.add_minutes ts0 m) = true) as Hts by exact Hts0.
    now apply (slice_loop_emitted _ _ _ _ _ _ Hts _ _ _ Hstep).
Qed.

Definition incidents_of (a : Args) : list Incident.t :=
  match incidents a with Some l => l | None => [] end.

Lemma generate_emitted a rows :
  generate_minute_logs a = Ok rows ->
  Forall (emitted (seed a) (incidents_of a)) rows.
Proof.
  unfold generate_minute_logs. destruct (seed a <? 0); [discriminate|].
  destruct (generate_body a (seed_bitgen (seed a))) as [[rows' g']|e] eqn:E; [|discriminate].
  intros H. inversion H; subst rows'. clear H.
  unfold generate_body in E. inv_step E.
  assert (Datetime.tzaware (_utc_minute_floor (start_ts_utc a)) = true) as Hts0
    by reflexivity.
  now apply (minute_loop_emitted _ _ _ _ _ _ Hts0 _ _ _ E).
Qed.

End Emitted.

(** ** What a slice-minute that appended a row went through *)

Section SliceMinute.

Context {L : Libm} {G : Generator}.

(** The values drawn before the incidents run, for the row [r]. *)
Record Trace : Type := mkTrace {
  t_xb : float;            (* the per-request byte draw *)
  t_mb : float;
  t_before : Locals.t;     (* the locals entering the incident loop *)
  t_after : Locals.t;      (* and leaving it *)
  t_gb : bitgen;           (* the generator entering the bucket draws *)
  t_buckets : Z * Z * Z * Z
}.

Definition explains (seed : Z) (incidents : list Incident.t)
    (ts : Datetime.datetime) (sl : Slice.t) (r : Row.t) (t : Trace) : Prop :=
  let v := t_after t in
  let '(http_2xx, http_3xx, http_4xx, http_5xx) := t_buckets t in
  0 < Row.requests r
  /\ py_int (Z2F (Row.requests r) * fmax 2000.0 (t_xb t))%float = Ok (Row.bytes_sent r)
  /\ t_mb t = (Z2F (Row.bytes_sent r) / 1e6)%float
  /\ 0 <= Row.status_500 r <= Row.requests r
  /\ 0 <= Row.status_502 r <= Row.requests r
  /\ 0 <= Locals.status_503 (t_before t) <= Row.requests r
  /\ 0 <= Locals.status_504 (t_before t) <= Row.requests r
  /\ apply_incidents incidents ts sl (Row.requests r) (t_mb t) (t_before t) = Ok v
  /\ (exists gb',
        bucket_counts (Slice.service sl) (Slice.ctype sl) (Row.requests r)
          (Row.status_500 r) (Row.status_502 r)
          (Locals.status_503 v) (Locals.status_504 v) (t_gb t)
        = Ok (t_buckets t, gb'))
  /\ r = Row.mk seed ts (Slice.partner sl) (Slice.service sl) (Slice.region sl)
           (Slice.pop sl) (Slice.host sl) (Slice.ctype sl) (Slice.ua_family sl)
           (Row.requests r) (Row.bytes_sent r)
           (Locals.p50 v)
           (fmax (Locals.p95 v) (Locals.p50 v))
           (fmax (Locals.p99 v) (fmax (Locals.p95 v) (Locals.p50 v)))
           (Locals.cache_hit v)
           http_2xx http_3xx http_4xx http_5xx
           (Row.status_500 r) (Row.status_502 r)
           (Locals.status_503 v) (Locals.status_504 v)
           (Locals.crc_errors v).

Lemma slice_minute_Some_inv seed incidents ts mult sl g r g' :
  slice_minute seed incidents ts mult sl g = Ok (Some r, g') ->
  exists t, explains seed incidents ts sl r t.
Proof.
  unfold slice_minute. intros H.
  apply bind_Ok_inv in H as (requests & g0 & Hreq & H).
  apply draw_Ok_inv in Hreq as (Hreq & _).
  pose proof (draw_poisson_range
                (arrival_rate (Slice.service sl) (Slice.ctype sl) (Slice.region sl) mult) g)
    as Hrange.
  rewrite <- Hreq in Hrange.
  destruct (requests =? 0) eqn:Hz.
  { apply ret_Ok_inv in H as (H & _). discriminate. }
  apply Z.eqb_neq in Hz.
  assert (0 <= requests) as Hreq0 by lia.
  apply bind_Ok_inv in H as (c & g1 & _ & H).
  apply bind_Ok_inv in H as (x50 & g2 & _ & H).
  apply bind_Ok_inv in H as (f95 & g3 & _ & H).
  apply bind_Ok_inv in H as (f99 & g4 & _ & H).
  apply bind_Ok_inv in H as (xb & g5 & _ & H).
  apply bind_Ok_inv in H as (bytes_sent & g6 & Hbytes & H).
  apply lift_Ok_inv in Hbytes as (Hbytes & _).
  apply bind_Ok_inv in H as (s500 & g7 & H500 & H).
  apply bind_Ok_inv in H as (s502 & g8 & H502 & H).
  apply bind_Ok_inv in H as (s503 & g9 & H503 & H).
  apply bind_Ok_inv in H as (s504 & g10 & H504 & H).
  apply draw_Ok_inv in H500 as (H500 & _).
  apply draw_Ok_inv in H502 as (H502 & _).
  apply draw_Ok_inv in H503 as (H503 & _).
  apply draw_Ok_inv in H504 as (H504 & _).
  match type of H500 with _ = fst (draw_binomial _ ?p ?g) =>
    pose proof (draw_binomial_range requests p g Hreq0) as R500 end.
  match type of H502 with _ = fst (draw_binomial _ ?p ?g) =>
    pose proof (draw_binomial_range requests p g Hreq0) as R502 end.
  match type of H503 with _ = fst (draw_binomial _ ?p ?g) =>
    pose proof (draw_binomial_range requests p g Hreq0) as R503 end.
  match type of H504 with _ = fst (draw_binomial _ ?p ?g) =>
    pose proof (draw_binomial_range requests p g Hreq0) as R504 end.
  rewrite <- H500 in R500. rewrite <- H502 in R502.
  rewrite <- H503 in R503. rewrite <- H504 in R504.
  clear H500 H502 H503 H504.
  apply bind_Ok_inv in H as (crc & g11 & _ & H).
  apply bind_Ok_inv in H as (v & g12 & Hinc & H).
  apply lift_Ok_inv in Hinc as (Hinc & ->).
  apply bind_Ok_inv in H as (b & g13 & Hb & H).
  destruct b as [[[http_2xx http_3xx] http_4xx] http_5xx].
  apply ret_Ok_inv in H as (H & _).
  inversion H as [Hr]. clear H.
  eexists (mkTrace xb (Z2F bytes_sent / 1e6)%float _ v g11
             (http_2xx, http_3xx, http_4xx, http_5xx)).
  unfold explains. cbn [t_after t_buckets t_xb t_mb t_before t_gb Row.requests
    Row.bytes_sent Row.status_500 Row.status_502].
  repeat match goal with |- _ /\ _ => split end;
    cbn [Locals.status_503 Locals.status_504];
    try lia; try reflexivity; try eassumption.
  all: cbn [Locals.status_503 Locals.status_504]; try lia.
  exists g13. exact Hb.
Qed.

Lemma emitted_explained seed incidents r :
  emitted seed incidents r ->
  exists ts sl t,
    Datetime.tzaware ts = true /\ explains seed incidents ts sl r t.
Proof.
  intros (ts & mult & sl & g & g' & Hts & H).
  destruct (slice_minute_Some_inv _ _ _ _ _ _ _ _ H) as [t Ht].
  now exists ts, sl, t.
Qed.

End SliceMinute.

(** ** Status counts *)

Section Counts.

Context {L : Libm} {G : Generator}.

(** The 2xx count as step 4 leaves it, before the paranoia check. *)
Definition http_2xx_before_check (requests http_3xx http_4xx http_5xx : Z) : Z :=
  Z.max 0 (Z.max 0 (requests - http_5xx) - http_4xx - http_3xx).

Lemma bucket_counts_inv service ctype requests s500 s502 s503 s504 g b g' :
  bucket_counts service ctype requests s500 s502 s503 s504 g = Ok (b, g') ->
  let '(http_2xx, http_3xx, http_4xx, http_5xx) := b in
  let remaining := Z.max 0 (requests - http_5xx) in
  let before := http_2xx_before_check requests http_3xx http_4xx http_5xx in
  http_5xx = s500 + s502 + s503 + s504
  /\ 0 <= http_4xx <= remaining
  /\ 0 <= http_3xx <= remaining - http_4xx
  /\ http_2xx =
       (if negb (before + http_3xx + http_4xx + http_5xx =? requests)
        then Z.max 0 (requests - (http_3xx + http_4xx + http_5xx))
        else before).
Proof.
  unfold bucket_counts. intros H.
  apply bind_Ok_inv in H as (http_4xx & g1 & H4 & H).
  apply bind_Ok_inv in H as (http_3xx & g2 & H3 & H).
  apply ret_Ok_inv in H as (H & _). subst b.
  apply draw_Ok_inv in H4 as (H4 & _).
  apply draw_Ok_inv in H3 as (H3 & _).
  set (http_5xx := s500 + s502 + s503 + s504) in *.
  match type of H4 with _ = fst (draw_binomial ?n ?p ?g) =>
    assert (0 <= n) as Hn4 by lia;
    pose proof (draw_binomial_range n p g Hn4) as R4 end.
  rewrite <- H4 in R4.
  match type of H3 with _ = fst (draw_binomial ?n ?p ?g) =>
    assert (0 <= n) as Hn3 by lia;
    pose proof (draw_binomial_range n p g Hn3) as R3 end.
  rewrite <- H3 in R3.
  clear H4 H3.
  repeat split; try lia.
Qed.

(** The arithmetic of the allocator, on any counts in the binomial ranges. *)
Lemma reconcile_arith requests http_2xx http_3xx http_4xx http_5xx :
  let remaining := Z.max 0 (requests - http_5xx) in
  let before := http_2xx_before_check requests http_3xx http_4xx http_5xx in
  0 <= http_4xx <= remaining ->
  0 <= http_3xx <= remaining - http_4xx ->
  http_2xx =
    (if negb (before + http_3xx + http_4xx + http_5xx =? requests)
     then Z.max 0 (requests - (http_3xx + http_4xx + http_5xx))
     else before) ->
  (http_5xx <= requests ->
     http_2xx + http_3xx + http_4xx + http_5xx = requests)
  /\ http_2xx = Z.max 0 (requests - (http_3xx + http_4xx + http_5xx))
  /\ (requests < http_5xx ->
        http_2xx = 0 /\ http_3xx = 0 /\ http_4xx = 0
        /\ requests < http_2xx + http_3xx + http_4xx + http_5xx).
Proof.
  cbv zeta. unfold http_2xx_before_check. intros H4 H3 H2.
  destruct (Z.eqb_spec
              (Z.max 0 (Z.max 0 (requests - http_5xx) - http_4xx - http_3xx)
               + http_3xx + http_4xx + http_5xx) requests) as [E|E];
    cbn [negb] in H2; lia.
Qed.

End Counts.

(** ** Runs of the replay generator used below *)

Module Scenario.

(** One minute at the minimum sample size: 50 slices. *)
Definition one_minute : Args :=
  mkArgs Replay.epoch_2026_02_20 1 6 20 120 None None None None 7 None 0%float.

(** An incident of [kind] and [intensity] over the whole day, on every slice. *)
Definition all_day (kind : string) (intensity : float) : Incident.t :=
  Incident.mk kind
    (Datetime.mk 1771545600000000 true) (Datetime.mk 1771632000000000 true)
    kind None None None None None intensity.

(** Three overlapping origin overloads, each adding 40% of the requests to
    [status_503]. *)
Definition overloaded : Args :=
  mkArgs Replay.epoch_2026_02_20 1 6 20 120 None None None None 7
    (Some [all_day "origin_overload" 30; all_day "origin_overload" 30;
           all_day "origin_overload" 30]%float)
    0%float.

(** 400 latency incidents at the intensity floor, each scaling [p50] by
    [1.3 * 0.1], then one of infinite intensity. *)
Definition underflow_then_infinite : Args :=
  mkArgs Replay.epoch_2026_02_20 1 6 20 120 None None None None 7
    (Some (repeat (all_day "latency" 0.1%float) 400
           ++ [all_day "latency" infinity])%list)
    0%float.

Definition rows_of (r : result (list Row.t)) : list Row.t :=
  match r with Ok rows => rows | Raise _ => [] end.

Definition one_minute_rows : list Row.t :=
  Eval vm_compute in rows_of (Replay.run false one_minute).

Definition overloaded_rows : list Row.t :=
  Eval vm_compute in rows_of (Replay.run false overloaded).

End Scenario.

(** ** Row invariants of the returned dataset *)

Section RowInvariants.

Context {L : Libm} {G : Generator}.

Lemma every_row (P : Row.t -> Prop) a rows :
  (forall ts sl r t,
      Datetime.tzaware ts = true ->
      explains (seed a) (incidents_of a) ts sl r t -> P r) ->
  generate_minute_logs a = Ok rows ->
  Forall P rows.
Proof.
  intros HP Hrun. apply generate_emitted in Hrun.
  eapply Forall_impl; [|exact Hrun].
  intros r Hr. apply emitted_explained in Hr as (ts & sl & t & Hts & Ht).
  now apply (HP ts sl r t).
Qed.

(** What the allocator guarantees about one row's bucket counts. *)
Definition buckets_reconciled (r : Row.t) : Prop :=
  let requests := Row.requests r in
  let http_2xx := Row.http_2xx_count r in
  let http_3xx := Row.http_3xx_count r in
  let http_4xx := Row.http_4xx_count r in
  let http_5xx := Row.http_5xx_count r in
  let before := http_2xx_before_check requests http_3xx http_4xx http_5xx in
  (http_5xx <= requests -> http_2xx + http_3xx + http_4xx + http_5xx = requests)
  /\ (before + http_3xx + http_4xx + http_5xx <> requests ->
        http_2xx = Z.max 0 (requests - (http_3xx + http_4xx + http_5xx)))
  /\ (requests < http_5xx ->
        http_2xx = 0 /\ requests < http_2xx + http_3xx + http_4xx + http_5xx).

(** C1. In every row of a returned dataset: when [http_5xx_count <= requests]
    the four bucket counts sum to [requests]; when the counts left by the
    binomial draws do not sum to [requests], [http_2xx_count] is
    [max(0, requests - (http_3xx + http_4xx + http_5xx))]; and when
    [http_5xx_count] alone exceeds [requests], [http_2xx_count] is 0 and the
    sum stays strictly above [requests]. *)
Theorem status_buckets_reconciled a rows :
  generate_minute_logs a = Ok rows ->
  Forall buckets_reconciled rows.
Proof.
  apply every_row. intros ts sl r t _ Ht.
  unfold explains in Ht.
  destruct (t_buckets t) as [[[http_2xx http_3xx] http_4xx] http_5xx] eqn:Eb.
  destruct Ht as (_ & _ & _ & _ & _ & _ & _ & _ & (gb' & Hb) & Hr).
  apply bucket_counts_inv in Hb.
  destruct Hb as (_ & H4 & H3 & H2).
  destruct (reconcile_arith _ _ _ _ _ H4 H3 H2) as (Hsum & Hmax & Hover).
  unfold buckets_reconciled. rewrite Hr.
  cbn [Row.requests Row.http_2xx_count Row.http_3xx_count Row.http_4xx_count
       Row.http_5xx_count].
  split; [exact Hsum|]. split; [intros _; exact Hmax|].
  intros Hlt. destruct (Hover Hlt) as (H0 & _ & _ & Hgt). now split.
Qed.

(** C3. In every row of a returned dataset the four 5xx subtype counts, as
    the incidents left them, sum to [http_5xx_count]. *)
Theorem status_5xx_breakdown a rows :
  generate_minute_logs a = Ok rows ->
  Forall (fun r =>
            Row.status_500 r + Row.status_502 r + Row.status_503 r + Row.status_504 r
            = Row.http_5xx_count r) rows.
Proof.
  apply every_row. intros ts sl r t _ Ht.
  unfold explains in Ht.
  destruct (t_buckets t) as [[[http_2xx http_3xx] http_4xx] http_5xx] eqn:Eb.
  destruct Ht as (_ & _ & _ & _ & _ & _ & _ & _ & (gb' & Hb) & Hr).
  apply bucket_counts_inv in Hb.
  destruct Hb as (H5 & _).
  rewrite Hr.
  cbn [Row.status_500 Row.status_502 Row.status_503 Row.status_504 Row.http_5xx_count].
  symmetry. exact H5.
Qed.

End RowInvariants.

(** The replayed overload run: 50 rows, in each of which the three incidents
    push [status_503] past [requests]. *)
Lemma status_buckets_reconciled_witness :
  Forall buckets_reconciled Scenario.overloaded_rows
  /\ Forall (fun r => Row.requests r < Row.http_5xx_count r /\ Row.http_2xx_count r = 0)
       Scenario.overloaded_rows
  /\ List.length Scenario.overloaded_rows = 50%nat.
Proof.
  split; [|split].
  - apply (@status_buckets_reconciled Replay.libm (Replay.generator false)
             Scenario.overloaded Scenario.overloaded_rows).
    vm_compute. reflexivity.
  - repeat constructor.
  - reflexivity.
Defined.

Lemma status_5xx_breakdown_witness :
  Forall (fun r =>
            Row.status_500 r + Row.status_502 r + Row.status_503 r + Row.status_504 r
            = Row.http_5xx_count r) Scenario.overloaded_rows.
Proof.
  apply (@status_5xx_breakdown Replay.libm (Replay.generator false)
           Scenario.overloaded Scenario.overloaded_rows).
  vm_compute. reflexivity.
Defined.

(** ** Zero requests, empty datasets *)

Section Empty.

Context {L : Libm} {G : Generator}.

Lemma POOL_SIZE_Z : Z.of_nat POOL_SIZE = 5000.
Proof. unfold POOL_SIZE. apply Z2Nat.id. lia. Qed.

Lemma rng_choice_ok {A} (a : list A) g :
  a <> [] -> exists x g', rng_choice a g = Ok (x, g').
Proof.
  destruct a as [|d a']; [congruence|]. intros _.
  unfold rng_choice, bind, draw, ret.
  destruct (draw_index (List.length (d :: a')) g) as [i g']. eauto.
Qed.

Lemma build_pool_ok partners services regions pops hosts content_types ua_families :
  partners <> [] -> services <> [] -> regions <> [] -> pops <> [] ->
  hosts <> [] -> content_types <> [] -> ua_families <> [] ->
  forall n g, exists pool g',
    build_pool n partners services regions pops hosts content_types ua_families g
    = Ok (pool, g')
    /\ List.length pool = n.
Proof.
  intros H1 H2 H3 H4 H5 H6 H7.
  induction n as [|n IH]; intros g.
  - exists [], g. now split.
  - cbn [build_pool]. unfold bind at 1.
    destruct (rng_choice_ok partners g H1) as (x1 & g1 & ->).
    unfold bind at 1. destruct (rng_choice_ok services g1 H2) as (x2 & g2 & ->).
    unfold bind at 1. destruct (rng_choice_ok regions g2 H3) as (x3 & g3 & ->).
    unfold bind at 1. destruct (rng_choice_ok pops g3 H4) as (x4 & g4 & ->).
    unfold bind at 1. destruct (rng_choice_ok hosts g4 H5) as (x5 & g5 & ->).
    unfold bind at 1. destruct (rng_choice_ok content_types g5 H6) as (x6 & g6 & ->).
    unfold bind at 1. destruct (rng_choice_ok ua_families g6 H7) as (x7 & g7 & ->).
    unfold bind at 1. destruct (IH g7) as (pool & g8 & -> & Hlen).
    eexists _, g8. split; [reflexivity|]. cbn [List.length]. now rewrite Hlen.
Qed.

Lemma numbered_nonempty prefix width n : 1 <= n -> numbered prefix width n <> [].
Proof.
  intros Hn. unfold numbered.
  destruct (Z.to_nat n) as [|k] eqn:E; [lia|]. discriminate.
Qed.

Lemma py_or_nonempty {A} (x : option (list A)) default :
  default <> [] -> py_or x default <> [].
Proof. intros Hd. destruct x as [[|a l]|]; cbn; congruence. Qed.

(** The [continue]: a zero Poisson count ends the slice-minute before any
    other draw. *)
Lemma slice_minute_zero seed incidents ts mult sl g :
  let lam := arrival_rate (Slice.service sl) (Slice.ctype sl) (Slice.region sl) mult in
  fst (draw_poisson lam g) = 0 ->
  slice_minute seed incidents ts mult sl g = Ok (None, snd (draw_poisson lam g)).
Proof.
  cbv zeta. intros H0. unfold slice_minute, bind at 1, rng_poisson, draw.
  destruct (draw_poisson _ g) as [requests g0] eqn:E.
  cbn [fst snd] in *. subst requests. reflexivity.
Qed.

Definition always_zero_requests : Prop :=
  forall lam g, fst (draw_poisson lam g) = 0.

Lemma slice_loop_quiet seed incidents ts mult pool idxs :
  always_zero_requests ->
  Forall (fun i => (i < List.length pool)%nat) idxs ->
  forall g, exists g', slice_loop seed incidents ts mult pool idxs g = Ok ([], g').
Proof.
  intros H0. induction 1 as [|idx idxs Hidx _ IH]; intros g.
  - exists g. reflexivity.
  - cbn [slice_loop]. unfold bind at 1, lift.
    destruct (nth_error pool idx) as [sl|] eqn:E;
      [|apply nth_error_None in E; lia].
    unfold bind at 1. rewrite slice_minute_zero by apply H0.
    unfold bind at 1. destruct (IH (snd (draw_poisson
      (arrival_rate (Slice.service sl) (Slice.ctype sl) (Slice.region sl) mult) g)))
      as (g' & ->).
    exists g'. reflexivity.
Qed.

Lemma sample_size_ge_50 n density k : sample_size n density = Ok k -> 50 <= k.
Proof.
  unfold sample_size. intros H. apply rbind_Ok_inv in H as (i & _ & H).
  inversion H. lia.
Qed.

Lemma minute_sample_ok pool density k g :
  sample_size (List.length pool) density = Ok k ->
  k <= Z.of_nat (List.length pool) ->
  Z.of_nat (List.length pool) < 2 ^ 63 ->
  exists idxs g',
    minute_sample pool density g = Ok (idxs, g')
    /\ List.length idxs = Z.to_nat k
    /\ NoDup idxs
    /\ Forall (fun i => (i < List.length pool)%nat) idxs.
Proof.
  intros Hk Hle Hfit. pose proof (sample_size_ge_50 _ _ _ Hk) as H50.
  unfold minute_sample, bind, lift. rewrite Hk.
  unfold rng_choice_distinct.
  replace ((k <? - 2 ^ 63) || (2 ^ 63 <=? k)) with false
    by (symmetry; apply orb_false_iff; split; [apply Z.ltb_ge | apply Z.leb_gt]; lia).
  replace ((Z.of_nat (List.length pool) <? k) || (k <? 0)) with false
    by (symmetry; apply orb_false_iff; split; apply Z.ltb_ge; lia).
  unfold draw.
  assert (Z.to_nat k <= List.length pool)%nat as Hnat by lia.
  destruct (draw_sample (List.length pool) (Z.to_nat k) g) as [idxs g'] eqn:E.
  exists idxs, g'. split; [reflexivity|].
  pose proof (draw_sample_length _ _ g Hnat) as H1.
  pose proof (draw_sample_NoDup _ _ g Hnat) as H2.
  pose proof (fun i => draw_sample_lt _ _ g i Hnat) as H3.
  rewrite E in H1, H2, H3. cbn [fst] in *.
  repeat split; try assumption.
  apply Forall_forall. exact H3.
Qed.

Lemma minute_loop_quiet seed incidents ts0 density pool k ms :
  always_zero_requests ->
  sample_size (List.length pool) density = Ok k ->
  k <= Z.of_nat (List.length pool) ->
  Z.of_nat (List.length pool) < 2 ^ 63 ->
  forall g, exists g',
    minute_loop seed incidents ts0 density pool ms g = Ok ([], g').
Proof.
  intros H0 Hk Hle Hfit. induction ms as [|m ms IH]; intros g.
  - exists g. reflexivity.
  - cbn [minute_loop]. unfold bind at 1, minute_rows, bind at 1.
    destruct (minute_sample_ok pool density k g Hk Hle Hfit)
      as (idxs & g1 & -> & _ & _ & Hin).
    destruct (slice_loop_quiet seed incidents (Datetime.add_minutes ts0 m)
                (traffic_multiplier (Datetime.add_minutes ts0 m)) pool idxs H0 Hin g1)
      as (g2 & ->).
    unfold bind at 1. destruct (IH g2) as (g3 & ->).
    exists g3. reflexivity.
Qed.

(** What [generate_minute_logs] needs of its arguments to get past
    [default_rng] and the pool: a seed numpy accepts, and no empty catalog. *)
Definition valid_call (a : Args) : Prop :=
  0 <= seed a /\ 1 <= n_partners a /\ 1 <= n_pops a /\ 1 <= n_hosts a.

Lemma generate_pool_ok a :
  valid_call a ->
  exists pool g,
    generate_minute_logs a =
      match minute_loop (seed a) (incidents_of a) (_utc_minute_floor (start_ts_utc a))
              (density a) pool (range (minutes a)) g with
      | Ok (rows, _) => Ok rows
      | Raise e => Raise e
      end
    /\ List.length pool = POOL_SIZE.
Proof.
  intros (Hseed & Hp & Hpop & Hh).
  unfold generate_minute_logs.
  destruct (Z.ltb_spec (seed a) 0) as [Hneg|_]; [lia|].
  unfold generate_body, bind.
  edestruct (build_pool_ok
               (numbered "partner_" 2 (n_partners a))
               (py_or (services a) Schema.DEFAULT_SERVICES)
               (py_or (regions a) Schema.DEFAULT_REGIONS)
               (numbered "pop_" 3 (n_pops a))
               (numbered "host_" 4 (n_hosts a))
               (py_or (content_types a) Schema.DEFAULT_CONTENT_TYPES)
               (py_or (ua_families a) Schema.DEFAULT_UA_FAMILIES))
    as (pool & g & Hpool & Hlen);
    try (apply numbered_nonempty; assumption);
    try (apply py_or_nonempty; discriminate).
  rewrite Hpool. exists pool, g. now split.
Qed.

(** C6. Every row of a returned dataset has [requests > 0]; a slice-minute
    whose Poisson count is 0 appends nothing; and a valid call returns the
    empty dataset when [minutes] is 0, and when every Poisson count drawn is
    0 (the sample size then being one the pool can supply). *)
Theorem zero_requests_no_row a :
  (forall rows, generate_minute_logs a = Ok rows ->
                Forall (fun r => 0 < Row.requests r) rows)
  /\ (forall ts mult sl g,
        fst (draw_poisson
               (arrival_rate (Slice.service sl) (Slice.ctype sl) (Slice.region sl) mult) g)
        = 0 ->
        exists g', slice_minute (seed a) (incidents_of a) ts mult sl g = Ok (None, g'))
  /\ (valid_call a -> minutes a = 0 -> generate_minute_logs a = Ok [])
  /\ (valid_call a ->
      (exists k, sample_size POOL_SIZE (density a) = Ok k /\ k <= 5000) ->
      always_zero_requests ->
      generate_minute_logs a = Ok []).
Proof.
  repeat split.
  - intros rows. apply every_row. intros ts sl r t _ Ht. unfold explains in Ht.
    destruct (t_buckets t) as [[[? ?] ?] ?]. tauto.
  - intros ts mult sl g H0. eexists. now apply slice_minute_zero.
  - intros Hv Hm. destruct (generate_pool_ok a Hv) as (pool & g & -> & _).
    rewrite Hm. reflexivity.
  - intros Hv (k & Hk & Hle) H0.
    destruct (generate_pool_ok a Hv) as (pool & g & -> & Hlen).
    rewrite <- Hlen in Hk.
    assert (k <= Z.of_nat (List.length pool)) as Hle'
      by (rewrite Hlen, POOL_SIZE_Z; exact Hle).
    assert (Z.of_nat (List.length pool) < 2 ^ 63) as Hfit
      by (rewrite Hlen, POOL_SIZE_Z; lia).
    destruct (minute_loop_quiet (seed a) (incidents_of a)
                (_utc_minute_floor (start_ts_utc a)) (density a) pool k
                (range (minutes a)) H0 Hk Hle' Hfit g) as (g' & ->).
    reflexivity.
Qed.

End Empty.

(** With the replay generator: a call for zero minutes, and a three-minute
    call in which every Poisson count is 0, both return the empty dataset. *)
Lemma zero_requests_no_row_witness :
  Replay.run false (default_args Replay.epoch_2026_02_20 0) = Ok []
  /\ Replay.run true (default_args Replay.epoch_2026_02_20 3) = Ok [].
Proof.
  pose proof (@zero_requests_no_row Replay.libm (Replay.generator false)
                (default_args Replay.epoch_2026_02_20 0)) as (_ & _ & Hnone & _).
  pose proof (@zero_requests_no_row Replay.libm (Replay.generator true)
                (default_args Replay.epoch_2026_02_20 3)) as (_ & _ & _ & Hquiet).
  split.
  - apply Hnone.
    + repeat split; vm_compute; congruence.
    + reflexivity.
  - apply Hquiet.
    + repeat split; vm_compute; congruence.
    + exists 500. split; [vm_compute; reflexivity | lia].
    + intros lam g. reflexivity.
Defined.

(** ** Comparing floats

    [<?] and [<=?] through their specification on [spec_float]: a total
    order on everything but NaN. *)

Section FloatOrder.

Lemma compare_cont_swap mx my :
  PosDef.Pos.compare_cont Eq my mx = CompOpp (PosDef.Pos.compare_cont Eq mx my).
Proof.
  symmetry. exact (Pos.compare_cont_antisym mx my Eq).
Qed.
Lemma SFcompare_swap x y :
  SFcompare y x = option_map CompOpp (SFcompare x y).
Proof.
  destruct x as [sx|sx| |sx mx ex], y as [sy|sy| |sy my ey]; cbn;
    try reflexivity;
    try (destruct sx; reflexivity);
    try (destruct sy; reflexivity);
    try (destruct sx, sy; reflexivity).
  destruct sx, sy; cbn; try reflexivity.
  - rewrite (Z.compare_antisym ex ey).
    destruct (ex ?= ey); cbn; try reflexivity.
    now rewrite (compare_cont_swap mx my).
  - rewrite (Z.compare_antisym ex ey).
    destruct (ex ?= ey); cbn; try reflexivity.
    now rewrite (compare_cont_swap mx my).
Qed.
Lemma SFcompare_refl x : x <> S754_nan -> SFcompare x x = Some Eq.
Proof.
  destruct x as [s|s| |s m e]; cbn; intros H; try congruence.
  - destruct s; reflexivity.
  - rewrite Z.compare_refl.
    assert (PosDef.Pos.compare_cont Eq m m = Eq) as -> by exact (Pos.compare_refl m).
    destruct s; reflexivity.
Qed.

Lemma SFcompare_None x y :
  SFcompare x y = None -> x = S754_nan \/ y = S754_nan.
Proof.
  destruct x as [sx|sx| |sx mx ex], y as [sy|sy| |sy my ey]; cbn;
    intros H; try discriminate; auto.
Qed.

Lemma is_nan_spec x : is_nan x = true <-> Prim2SF x = S754_nan.
Proof. unfold is_nan. destruct (Prim2SF x); split; congruence. Qed.

Lemma is_nan_false x : is_nan x = false <-> Prim2SF x <> S754_nan.
Proof. unfold is_nan. destruct (Prim2SF x); split; congruence. Qed.

Lemma leb_not_nan a b : (a <=? b)%float = true -> is_nan a = false /\ is_nan b = false.
Proof.
  rewrite leb_spec. unfold SFleb, is_nan.
  destruct (Prim2SF a), (Prim2SF b); cbn; intros H; try discriminate; now split.
Qed.

Lemma ltb_not_nan a b : (a <? b)%float = true -> is_nan a = false /\ is_nan b = false.
Proof.
  rewrite ltb_spec. unfold SFltb, is_nan.
  destruct (Prim2SF a), (Prim2SF b); cbn; intros H; try discriminate; now split.
Qed.

Lemma leb_refl a : is_nan a = false -> (a <=? a)%float = true.
Proof.
  intros H. apply is_nan_false in H. rewrite leb_spec. unfold SFleb.
  now rewrite SFcompare_refl.
Qed.

Lemma ltb_leb a b : (a <? b)%float = true -> (a <=? b)%float = true.
Proof.
  rewrite ltb_spec, leb_spec. unfold SFltb, SFleb.
  destruct (SFcompare (Prim2SF a) (Prim2SF b)) as [[]|]; congruence.
Qed.

Lemma not_ltb_leb a b :
  is_nan a = false -> is_nan b = false ->
  (a <? b)%float = false -> (b <=? a)%float = true.
Proof.
  intros Ha Hb. apply is_nan_false in Ha, Hb.
  rewrite ltb_spec, leb_spec. unfold SFltb, SFleb.
  rewrite (SFcompare_swap (Prim2SF a) (Prim2SF b)).
  destruct (SFcompare (Prim2SF a) (Prim2SF b)) as [[]|] eqn:E; cbn; try congruence.
  apply SFcompare_None in E. tauto.
Qed.

(** [max] returns one of its arguments, and an upper bound of both when
    neither is NaN. *)
Lemma fmax_cases a b : fmax a b = a \/ fmax a b = b.
Proof. unfold fmax. destruct (a <? b)%float; auto. Qed.

Lemma fmax_ge_right a b :
  is_nan (fmax a b) = false -> is_nan b = false -> (b <=? fmax a b)%float = true.
Proof.
  unfold fmax. destruct (a <? b)%float eqn:E; intros Hm Hb.
  - now apply leb_refl.
  - now apply not_ltb_leb.
Qed.

Lemma fmax_ge_left a b :
  is_nan (fmax a b) = false -> (a <=? fmax a b)%float = true.
Proof.
  unfold fmax. destruct (a <? b)%float eqn:E; intros Hm.
  - now apply ltb_leb.
  - now apply leb_refl.
Qed.

(** A NaN in first position comes back; one in second position is dropped. *)
Lemma fmax_nan_left a b : is_nan a = true -> fmax a b = a.
Proof.
  intros Ha. unfold fmax. destruct (a <? b)%float eqn:E; [|reflexivity].
  apply ltb_not_nan in E. destruct E. congruence.
Qed.

Lemma fmax_nan_right a b : is_nan b = true -> fmax a b = a.
Proof.
  intros Hb. unfold fmax. destruct (a <? b)%float eqn:E; [|reflexivity].
  apply ltb_not_nan in E. destruct E. congruence.
Qed.

End FloatOrder.

(** ** Latency percentiles *)

Definition percentiles_ordered (r : Row.t) : Prop :=
  (Row.p50_ms r <=? Row.p95_ms r)%float = true
  /\ (Row.p95_ms r <=? Row.p99_ms r)%float = true.

Definition percentiles_are_numbers (r : Row.t) : Prop :=
  is_nan (Row.p50_ms r) = false
  /\ is_nan (Row.p95_ms r) = false
  /\ is_nan (Row.p99_ms r) = false.


(** ** The region multiplier *)

Lemma eqb_false_neq a b : (a =? b)%float = false -> is_nan a = false -> a <> b.
Proof.
  intros H N E. subst b. apply is_nan_false in N.
  rewrite eqb_spec in H. unfold SFeqb in H.
  now rewrite SFcompare_refl in H.
Qed.

(** The specification's reading: 1.15 for a region whose name starts with
    the three characters of [us-], 1.05 for any other. *)
Definition region_mult_us_dash (region : string) : float :=
  if startswith region "us-" then 1.15%float else 1.05%float.

(** C9, as the code has it. The multiplier that enters the arrival rate is
    1.15 when the region's name starts with the two characters [us] and 1.05
    otherwise; on a catalog where every name starting with [us] goes on with
    a hyphen, as in [DEFAULT_REGIONS], that is 1.15 exactly for the [us-]
    regions. *)
Theorem region_mult_us_prefix (service ctype region : string) (mult : float) :
  region_mult region = (if startswith region "us" then 1.15 else 1.05)%float
  /\ arrival_rate service ctype region mult
     = fmax 0.0
         (Z2F (dict_get [("live", 90); ("vod", 60); ("dvr", 25); ("eas", 10);
                         ("live_ott", 40); ("app_backend", 35)] service 30 * 60)%Z
          * dict_get [("manifest", 0.35); ("segment", 1.0); ("api", 0.55)]%float
              ctype 0.6%float
          * (if startswith region "us" then 1.15 else 1.05)
          * mult)%float
  /\ (startswith region "us" = startswith region "us-" ->
      region_mult region = region_mult_us_dash region)
  /\ Forall (fun r => region_mult r = region_mult_us_dash r) Schema.DEFAULT_REGIONS.
Proof.
  assert (region_mult region = (if startswith region "us" then 1.15 else 1.05)%float)
    as Hmult.
  { unfold region_mult. destruct (startswith region "us"); reflexivity. }
  split; [exact Hmult|]. split; [|split].
  - unfold arrival_rate. now rewrite Hmult.
  - intros Hsame. rewrite Hmult, Hsame. reflexivity.
  - repeat constructor.
Qed.

(** A catalog entry that starts with [us] without being a [us-] region gets
    the 1.15 the specification reserves for [us-] regions. *)
Lemma region_mult_not_us_dash :
  startswith "ushuaia" "us-" = false
  /\ region_mult "ushuaia" = 1.15%float
  /\ region_mult "ushuaia" <> region_mult_us_dash "ushuaia".
Proof.
  split; [reflexivity|]. split; [reflexivity|].
  apply eqb_false_neq; reflexivity.
Qed.

(** ** The traffic model *)

(** A float between two positive finite floats of one exponent has that
    exponent, and a mantissa between theirs. *)
Lemma between_same_exponent lo hi s m1 m2 e :
  Prim2SF lo = S754_finite false m1 e ->
  Prim2SF hi = S754_finite false m2 e ->
  (lo <=? s)%float = true ->
  (s <=? hi)%float = true ->
  exists m, s = SF2Prim (S754_finite false m e) /\ Z.pos m1 <= Z.pos m <= Z.pos m2.
Proof.
  intros Hlo Hhi H1 H2. rewrite leb_spec in H1, H2.
  rewrite Hlo in H1. rewrite Hhi in H2.
  assert (exists m, Prim2SF s = S754_finite false m e /\ Z.pos m1 <= Z.pos m <= Z.pos m2)
    as (m & Hs & Hm).
  { revert H1 H2.
    destruct (Prim2SF s) as [z|i| |sg m e']; unfold SFleb; cbn;
      try discriminate; try (destruct i; discriminate).
    destruct sg; [discriminate|].
    destruct (Z.compare_spec e e') as [E|E|E]; try discriminate.
    - subst e'. rewrite Z.compare_refl.
      intros H1 H2. exists m. split; [reflexivity|].
      assert (PosDef.Pos.compare_cont Eq m1 m = Pos.compare m1 m) as E1 by reflexivity.
      assert (PosDef.Pos.compare_cont Eq m m2 = Pos.compare m m2) as E2 by reflexivity.
      rewrite E1 in H1. rewrite E2 in H2.
      split; unfold Z.le; cbn [Z.compare]; intros C.
      + rewrite C in H1. discriminate.
      + rewrite C in H2. discriminate.
    - intros _. destruct (Z.compare_spec e' e) as [E'|E'|E']; try discriminate; lia. }
  exists m. split; [|exact Hm].
  rewrite <- Hs. symmetry. apply SF2Prim_Prim2SF.
Qed.

(** The specification's [multiplier(hour)]. *)
Definition multiplier {L : Libm} (hour : Z) : float :=
  (0.85 + 0.35 * sin (Z2F (hour - 14) * (2 * pi / 24)))%float.

(** The argument [sin] receives at hour 0, [-14 * (2 * math.pi / 24)]. *)
Definition hour0_angle : float := (Z2F (0 - 14) * (2 * pi / 24))%float.

(** C7. [traffic_multiplier] is [multiplier] of the timestamp's hour; at
    hour 14 it is 0.85; at hour 0 it is 1.025 for any libm whose [sin], at
    the hour's argument -3.6651914291880918, lands between
    0.4999999999999995 and 0.49999999999999994 (the exact sine there is
    0.49999999999999975; glibc returns 0.49999999999999972). *)
Theorem traffic_multiplier_literals {L : Libm} (ts : Datetime.datetime) :
  traffic_multiplier ts = multiplier (Datetime.hour ts)
  /\ multiplier 14 = 0.85%float
  /\ ((0x1.ffffffffffff7p-2 <=? sin hour0_angle)%float = true ->
      (sin hour0_angle <=? 0x1.fffffffffffffp-2)%float = true ->
      multiplier 0 = 1.025%float).
Proof.
  split; [reflexivity|]. split.
  - unfold multiplier.
    replace (Z2F (14 - 14) * (2 * pi / 24))%float with 0%float by reflexivity.
    rewrite sin_zero. reflexivity.
  - intros Hlo Hhi. unfold multiplier. fold hour0_angle.
    destruct (between_same_exponent
                0x1.ffffffffffff7p-2 0x1.fffffffffffffp-2 (sin hour0_angle)
                9007199254740983 9007199254740991 (-54)
                eq_refl eq_refl Hlo Hhi) as (m & -> & Hm).
    assert (Z.pos m = 9007199254740983 \/ Z.pos m = 9007199254740984
            \/ Z.pos m = 9007199254740985 \/ Z.pos m = 9007199254740986
            \/ Z.pos m = 9007199254740987 \/ Z.pos m = 9007199254740988
            \/ Z.pos m = 9007199254740989 \/ Z.pos m = 9007199254740990
            \/ Z.pos m = 9007199254740991) as Hcases by lia.
    repeat (destruct Hcases as [Hc|Hcases];
            [apply Pos2Z.inj in Hc; subst m; vm_compute; reflexivity|]).
    apply Pos2Z.inj in Hcases. subst m. vm_compute. reflexivity.
Qed.

(** The replay libm holds glibc's value at hour 0. *)
Lemma traffic_multiplier_literals_witness :
  @multiplier Replay.libm 0 = 1.025%float
  /\ @traffic_multiplier Replay.libm Replay.epoch_2026_02_20 = 1.025%float.
Proof.
  pose proof (@traffic_multiplier_literals Replay.libm Replay.epoch_2026_02_20)
    as (Heq & _ & H0).
  assert (@multiplier Replay.libm 0 = 1.025%float) as Hm
    by (apply H0; reflexivity).
  split; [exact Hm|].
  rewrite Heq. exact Hm.
Defined.

(** ** The per-minute sample *)

Section SampleSize.

Context {L : Libm} {G : Generator}.

(** [int] truncates and [floor] rounds down; under [max(50, _)] they agree. *)
Lemma py_int_floor_max x n :
  py_int x = Ok n -> exists f, py_floor x = Ok f /\ Z.max 50 n = Z.max 50 f.
Proof.
  unfold py_int, py_floor.
  destruct (Prim2SF x) as [s|s| |s m e]; intros H; try discriminate.
  - inversion H. exists 0. now split.
  - inversion H as [Hn]. eexists. split; [reflexivity|].
    destruct s; [|reflexivity].
    assert (0 <= Z.shiftl (Z.pos m) e) by (apply Z.shiftl_nonneg; lia).
    assert (Z.shiftl (Z.neg m) e < 0) by (apply Z.shiftl_neg; lia).
    lia.
Qed.

(** The sign of a rounded product is the sign it was given. *)
Lemma binary_round_aux_negative mx ex lx :
  match binary_round_aux prec emax true mx ex lx with
  | S754_zero s | S754_infinity s | S754_finite s _ _ => s = true
  | S754_nan => True
  end.
Proof.
  unfold binary_round_aux.
  destruct (shr_fexp prec emax mx ex lx) as [mrs' e'].
  destruct (shr_fexp prec emax _ e' loc_Exact) as [mrs'' e''].
  destruct (shr_m mrs''); [reflexivity| |exact I].
  destruct (e'' <=? emax - prec); reflexivity.
Qed.

Lemma pool_size_float : Prim2SF (Z2F (Z.of_nat POOL_SIZE)) = S754_finite false 5497558138880000 (-40).
Proof. vm_compute. reflexivity. Qed.

(** For a density at most 0 whose product with the pool size is finite,
    [k] is 50. *)
Lemma sample_size_floor_50 density :
  (density <=? 0)%float = true ->
  is_finite (Z2F (Z.of_nat POOL_SIZE) * density)%float = true ->
  sample_size POOL_SIZE density = Ok 50.
Proof.
  intros Hle Hfin. unfold sample_size, py_int. unfold is_finite in Hfin.
  rewrite leb_spec in Hle.
  rewrite mul_spec, pool_size_float in *.
  change (Prim2SF 0) with (S754_zero false) in Hle.
  destruct (Prim2SF density) as [s|s| |s m e]; unfold SFleb in Hle; cbn in Hle;
    try discriminate.
  - reflexivity.
  - destruct s; [|discriminate].
    unfold SF64mul, SFmul in *. cbn [xorb] in *.
    pose proof (binary_round_aux_negative
                  (Z.pos (5497558138880000 * m)) (-40 + e) loc_Exact) as Hs.
    destruct (binary_round_aux prec emax true (Z.pos (5497558138880000 * m))
                (-40 + e) loc_Exact) as [s'|s'| |s' m' e'];
      try discriminate; cbn.
    + reflexivity.
    + subst s'.
      assert (0 <= Z.shiftl (Z.pos m') e') by (apply Z.shiftl_nonneg; lia).
      f_equal. lia.
Qed.

End SampleSize.

(** ** The incident engine *)

Section Incidents.

(** The specification's condition, in its words: the minute lies in the
    half-open window, and every filter that is set equals the slice's value. *)
Definition filter_holds (filter : option string) (value : string) : Prop :=
  forall expected, filter = Some expected -> value = expected.

Definition incident_applies (inc : Incident.t) (ts : Datetime.datetime)
    (sl : Slice.t) : Prop :=
  (Datetime.instant_us (Incident.start_ts inc) <= Datetime.instant_us ts
   < Datetime.instant_us (Incident.end_ts inc))
  /\ filter_holds (Incident.partner inc) (Slice.partner sl)
  /\ filter_holds (Incident.service inc) (Slice.service sl)
  /\ filter_holds (Incident.region inc) (Slice.region sl)
  /\ filter_holds (Incident.pop inc) (Slice.pop sl)
  /\ filter_holds (Incident.content_type inc) (Slice.ctype sl).

Definition incident_appliesb (ts : Datetime.datetime) (sl : Slice.t)
    (inc : Incident.t) : bool :=
  (Datetime.instant_us (Incident.start_ts inc) <=? Datetime.instant_us ts)
  && (Datetime.instant_us ts <? Datetime.instant_us (Incident.end_ts inc))
  && slice_matches inc sl.

(** The specification's engine: the incidents that apply, in list order,
    each mutating what the ones before it left, at intensity
    [max(0.1, intensity)]. *)
Fixpoint compound (applying : list Incident.t) (requests : Z) (mb : float)
    (v : Locals.t) : result Locals.t :=
  match applying with
  | [] => Ok v
  | inc :: rest =>
      rbind (mutate (Incident.kind inc) (fmax 0.1 (Incident.intensity inc)) requests mb v)
            (compound rest requests mb)
  end.

Definition incident_engine (incidents : list Incident.t) (ts : Datetime.datetime)
    (sl : Slice.t) (requests : Z) (mb : float) (v : Locals.t) : result Locals.t :=
  compound (filter (incident_appliesb ts sl) incidents) requests mb v.

(** Both ends of the window carry a tzinfo, as the minute timestamp does. *)
Definition window_aware (inc : Incident.t) : Prop :=
  Datetime.tzaware (Incident.start_ts inc) = true
  /\ Datetime.tzaware (Incident.end_ts inc) = true.

Lemma _matches_holds value filter :
  _matches value filter = true <-> filter_holds filter value.
Proof.
  unfold _matches, filter_holds. destruct filter as [e|].
  - rewrite String.eqb_eq. split.
    + intros -> expected H. now inversion H.
    + intros H. now apply H.
  - split; [discriminate | reflexivity].
Qed.

Lemma incident_appliesb_spec ts sl inc :
  incident_appliesb ts sl inc = true <-> incident_applies inc ts sl.
Proof.
  unfold incident_appliesb, incident_applies, slice_matches.
  rewrite !andb_true_iff, Z.leb_le, Z.ltb_lt, !_matches_holds. tauto.
Qed.

Lemma in_window_aware inc ts :
  Datetime.tzaware ts = true -> window_aware inc ->
  in_window inc ts =
    Ok ((Datetime.instant_us (Incident.start_ts inc) <=? Datetime.instant_us ts)
        && (Datetime.instant_us ts <? Datetime.instant_us (Incident.end_ts inc))).
Proof.
  intros Hts (Hs & He). unfold in_window, Datetime.le, Datetime.lt.
  rewrite Hts, Hs, He. cbn.
  destruct (Datetime.instant_us (Incident.start_ts inc) <=? Datetime.instant_us ts);
    reflexivity.
Qed.

(** One turn of the loop. *)
Lemma apply_incidents_cons inc rest ts sl requests mb v :
  Datetime.tzaware ts = true -> window_aware inc ->
  apply_incidents (inc :: rest) ts sl requests mb v =
    if incident_appliesb ts sl inc
    then rbind (mutate (Incident.kind inc) (fmax 0.1 (Incident.intensity inc))
                  requests mb v)
               (apply_incidents rest ts sl requests mb)
    else apply_incidents rest ts sl requests mb v.
Proof.
  intros Hts Hw. cbn [apply_incidents]. rewrite (in_window_aware inc ts Hts Hw).
  unfold incident_appliesb. cbn [rbind].
  destruct (_ && _); cbn [negb andb]; [|reflexivity].
  destruct (slice_matches inc sl); reflexivity.
Qed.

Lemma apply_incidents_engine incidents ts sl requests mb :
  Datetime.tzaware ts = true -> Forall window_aware incidents ->
  forall v,
    apply_incidents incidents ts sl requests mb v
    = incident_engine incidents ts sl requests mb v.
Proof.
  intros Hts. induction 1 as [|inc rest Hw _ IH]; intros v; [reflexivity|].
  rewrite (apply_incidents_cons inc rest ts sl requests mb v Hts Hw).
  unfold incident_engine. cbn [filter].
  destruct (incident_appliesb ts sl inc); [|apply IH].
  cbn [compound].
  destruct (mutate _ _ requests mb v) as [v'|e]; cbn [rbind]; [apply IH|reflexivity].
Qed.

Lemma compound_app l1 l2 requests mb v :
  compound (l1 ++ l2) requests mb v
  = rbind (compound l1 requests mb v) (compound l2 requests mb).
Proof.
  revert v. induction l1 as [|inc l1 IH]; intros v; [reflexivity|].
  cbn [app compound].
  destruct (mutate _ _ requests mb v) as [v'|e]; cbn [rbind]; [apply IH|reflexivity].
Qed.

Context {L : Libm} {G : Generator}.

(** C5. When the incidents' windows carry a tzinfo: the loop over the
    caller's list is the specification's engine - an incident mutates exactly
    when the minute is in its half-open window and every set filter equals
    the slice's value, the mutations compound in list order, each at
    intensity [max(0.1, intensity)] - and the locals behind every row of a
    returned dataset are that engine's result. *)
Theorem incidents_compound_in_order a :
  Forall window_aware (incidents_of a) ->
  (forall inc ts sl, incident_appliesb ts sl inc = true <-> incident_applies inc ts sl)
  /\ (forall ts sl requests mb v,
        Datetime.tzaware ts = true ->
        apply_incidents (incidents_of a) ts sl requests mb v
        = compound (filter (incident_appliesb ts sl) (incidents_of a)) requests mb v)
  /\ (forall inc rest requests mb v,
        compound (inc :: rest) requests mb v
        = rbind (mutate (Incident.kind inc) (fmax 0.1 (Incident.intensity inc))
                   requests mb v)
                (compound rest requests mb))
  /\ (forall rows,
        generate_minute_logs a = Ok rows ->
        Forall (fun r => exists ts sl t,
                  explains (seed a) (incidents_of a) ts sl r t
                  /\ compound (filter (incident_appliesb ts sl) (incidents_of a))
                       (Row.requests r) (t_mb t) (t_before t)
                     = Ok (t_after t)) rows).
Proof.
  intros Haware. split; [|split; [|split]].
  - intros inc ts sl. apply incident_appliesb_spec.
  - intros ts sl requests mb v Hts.
    now apply apply_incidents_engine.
  - reflexivity.
  - intros rows. apply every_row. intros ts sl r t Hts Ht.
    exists ts, sl, t. split; [exact Ht|].
    unfold explains in Ht.
    destruct (t_buckets t) as [[[http_2xx http_3xx] http_4xx] http_5xx].
    destruct Ht as (_ & _ & _ & _ & _ & _ & _ & Hinc & _).
    rewrite <- Hinc. symmetry.
    now apply apply_incidents_engine.
Qed.

End Incidents.

(** The replayed overload run: its three incidents all apply to every slice,
    and the locals behind each of its rows are their compound. *)
Lemma incidents_compound_in_order_witness :
  Forall window_aware (incidents_of Scenario.overloaded)
  /\ Forall (fun r => exists ts sl t,
               @explains (Replay.generator false) (seed Scenario.overloaded)
                 (incidents_of Scenario.overloaded) ts sl r t
               /\ compound (filter (incident_appliesb ts sl)
                                   (incidents_of Scenario.overloaded))
                    (Row.requests r) (t_mb t) (t_before t)
                  = Ok (t_after t)) Scenario.overloaded_rows.
Proof.
  assert (Forall window_aware (incidents_of Scenario.overloaded)) as Haware
    by (repeat constructor).
  split; [exact Haware|].
  pose proof (@incidents_compound_in_order Replay.libm (Replay.generator false)
                Scenario.overloaded Haware) as (_ & _ & _ & Hrows).
  apply Hrows. vm_compute. reflexivity.
Defined.

(** ** Calls in a Python process

    What a call can reach that it did not create, and that outlives it: the
    four module-level lists of [schema.py], the catalog lists and the list
    of incidents the caller passed, and the [Incident] objects in it. All of
    them are mutable Python objects, held by reference. The generator [rng]
    is created inside the call, from [seed]. *)

Section Process.

Context {L : Libm} {G : Generator}.

Definition loc : Type := nat.

Record heap : Type := mkHeap {
  str_list : loc -> list string;     (* list objects holding strings *)
  inc_list : loc -> list loc;        (* list objects holding Incident references *)
  inc_obj : loc -> Incident.t        (* Incident instances *)
}.

(** Where [schema.py]'s lists live. *)
Definition DEFAULT_SERVICES : loc := 0%nat.
Definition DEFAULT_CONTENT_TYPES : loc := 1%nat.
Definition DEFAULT_REGIONS : loc := 2%nat.
Definition DEFAULT_UA_FAMILIES : loc := 3%nat.

(** The arguments of a call, list arguments by reference. *)
Record Call : Type := mkCall {
  c_start_ts_utc : Datetime.datetime;
  c_minutes : Z;
  c_n_partners : Z;
  c_n_pops : Z;
  c_n_hosts : Z;
  c_services : option loc;
  c_regions : option loc;
  c_content_types : option loc;
  c_ua_families : option loc;
  c_seed : Z;
  c_incidents : option loc;
  c_density : float
}.

(** A computation in the process: it may read and write the shared objects
    and draw from [rng]; the heap survives an exception. *)
Definition P (A : Type) : Type := heap -> bitgen -> result (A * bitgen) * heap.

Definition ret_p {A} (a : A) : P A := fun h g => (Ok (a, g), h).

Definition bind_p {A B} (c : P A) (k : A -> P B) : P B :=
  fun h g =>
    match c h g with
    | (Ok (a, g'), h') => k a h' g'
    | (Raise e, h') => (Raise e, h')
    end.

(** A step that names no shared object. *)
Definition local {A} (c : M A) : P A := fun h g => (c g, h).

(** Reading a shared object. *)
Definition read {A} (f : heap -> A) : P A := fun h g => (Ok (f h, g), h).

Notation "x <~ c ;; k" := (bind_p c (fun x => k))
  (at level 61, c at next level, right associativity).

(** [x or DEFAULT] on a list argument: the truth test reads the list, and
    the name is bound to the caller's list or to the module's, not to a
    copy. *)
Definition or_ref (x : option loc) (default : loc) : P loc :=
  match x with
  | None => ret_p default
  | Some l =>
      items <~ read (fun h => str_list h l) ;;
      ret_p (match items with [] => default | _ :: _ => l end)
  end.

(** [rng.choice(a)] on a list object: numpy reads the list into an array. *)
Definition rng_choice_ref (a : loc) : P string :=
  items <~ read (fun h => str_list h a) ;;
  local (rng_choice items).

Fixpoint build_pool_in (n : nat) (partners : list string) (services regions : loc)
    (pops hosts : list string) (content_types ua_families : loc) : P (list Slice.t) :=
  match n with
  | O => ret_p []
  | S n' =>
      partner <~ local (rng_choice partners) ;;
      service <~ rng_choice_ref services ;;
      region <~ rng_choice_ref regions ;;
      pop <~ local (rng_choice pops) ;;
      host <~ local (rng_choice hosts) ;;
      ctype <~ rng_choice_ref content_types ;;
      ua_family <~ rng_choice_ref ua_families ;;
      rest <~ build_pool_in n' partners services regions pops hosts
                content_types ua_families ;;
      ret_p (Slice.mk partner service region pop host ctype ua_family :: rest)
  end.

(** [incidents or []], and what [for inc in incidents] with its attribute
    reads sees of the list and of the Incident objects. *)
Definition read_incidents (incidents : option loc) : P (list Incident.t) :=
  match incidents with
  | None => ret_p []
  | Some l => read (fun h => map (inc_obj h) (inc_list h l))
  end.

(** One slice in one minute: the incident loop is its one statement that
    names a shared object. *)
Definition slice_minute_in (seed : Z) (incidents : option loc)
    (ts : Datetime.datetime) (mult : float) (sl : Slice.t) : P (option Row.t) :=
  incs <~ read_incidents incidents ;;
  local (slice_minute seed incs ts mult sl).

Fixpoint slice_loop_in (seed : Z) (incidents : option loc)
    (ts : Datetime.datetime) (mult : float) (slice_pool : list Slice.t)
    (idxs : list nat) : P (list Row.t) :=
  match idxs with
  | [] => ret_p []
  | idx :: idxs' =>
      sl <~ local (lift (match nth_error slice_pool idx with
                         | Some sl => Ok sl
                         | None => Raise IndexError
                         end)) ;;
      r <~ slice_minute_in seed incidents ts mult sl ;;
      rest <~ slice_loop_in seed incidents ts mult slice_pool idxs' ;;
      ret_p (match r with Some row => row :: rest | None => rest end)
  end.

Definition minute_rows_in (seed : Z) (incidents : option loc)
    (ts0 : Datetime.datetime) (density : float) (slice_pool : list Slice.t)
    (m : Z) : P (list Row.t) :=
  let ts := Datetime.add_minutes ts0 m in
  let mult := traffic_multiplier ts in
  idxs <~ local (minute_sample slice_pool density) ;;
  slice_loop_in seed incidents ts mult slice_pool idxs.

Fixpoint minute_loop_in (seed : Z) (incidents : option loc)
    (ts0 : Datetime.datetime) (density : float) (slice_pool : list Slice.t)
    (ms : list Z) : P (list Row.t) :=
  match ms with
  | [] => ret_p []
  | m :: ms' =>
      rows <~ minute_rows_in seed incidents ts0 density slice_pool m ;;
      rest <~ minute_loop_in seed incidents ts0 density slice_pool ms' ;;
      ret_p (rows ++ rest)%list
  end.

Definition generate_body_in (c : Call) : P (list Row.t) :=
  services <~ or_ref (c_services c) DEFAULT_SERVICES ;;
  regions <~ or_ref (c_regions c) DEFAULT_REGIONS ;;
  content_types <~ or_ref (c_content_types c) DEFAULT_CONTENT_TYPES ;;
  ua_families <~ or_ref (c_ua_families c) DEFAULT_UA_FAMILIES ;;
  let ts0 := _utc_minute_floor (c_start_ts_utc c) in
  let partners := numbered "partner_" 2 (c_n_partners c) in
  let pops := numbered "pop_" 3 (c_n_pops c) in
  let hosts := numbered "host_" 4 (c_n_hosts c) in
  slice_pool <~ build_pool_in POOL_SIZE partners services regions pops hosts
                  content_types ua_families ;;
  minute_loop_in (c_seed c) (c_incidents c) ts0 (c_density c) slice_pool
    (range (c_minutes c)).

(** A call of [generate_minute_logs] in a process whose shared objects are
    [h]: the dataset or the exception, and the shared objects afterwards.
    [rng] starts from [seed] and is dropped at the end. *)
Definition generate_minute_logs_in (c : Call) (h : heap)
    : result (list Row.t) * heap :=
  if c_seed c <? 0 then (Raise ValueError, h)
  else
    match generate_body_in c h (seed_bitgen (c_seed c)) with
    | (Ok (rows, _), h') => (Ok rows, h')
    | (Raise e, h') => (Raise e, h')
    end.

(** The argument values a call finds behind its references. *)
Definition args_of (h : heap) (c : Call) : Args :=
  mkArgs (c_start_ts_utc c) (c_minutes c) (c_n_partners c) (c_n_pops c) (c_n_hosts c)
         (option_map (str_list h) (c_services c))
         (option_map (str_list h) (c_regions c))
         (option_map (str_list h) (c_content_types c))
         (option_map (str_list h) (c_ua_families c))
         (c_seed c)
         (option_map (fun l => map (inc_obj h) (inc_list h l)) (c_incidents c))
         (c_density c).

(** [schema.py]'s lists hold what the module wrote into them. *)
Definition schema_intact (h : heap) : Prop :=
  str_list h DEFAULT_SERVICES = Schema.DEFAULT_SERVICES
  /\ str_list h DEFAULT_CONTENT_TYPES = Schema.DEFAULT_CONTENT_TYPES
  /\ str_list h DEFAULT_REGIONS = Schema.DEFAULT_REGIONS
  /\ str_list h DEFAULT_UA_FAMILIES = Schema.DEFAULT_UA_FAMILIES.

(** [c] only reads: on the shared objects [h] it computes what [m] computes
    and leaves [h] as it found it. *)
Definition reads_only {A} (c : P A) (m : M A) (h : heap) : Prop :=
  forall g, c h g = (m g, h).

Lemma reads_only_ret {A} (a : A) h : reads_only (ret_p a) (ret a) h.
Proof. intros g. reflexivity. Qed.

Lemma reads_only_local {A} (m : M A) h : reads_only (local m) m h.
Proof. intros g. reflexivity. Qed.

Lemma reads_only_bind {A B} (c : P A) (k : A -> P B) m km h :
  reads_only c m h -> (forall a, reads_only (k a) (km a) h) ->
  reads_only (bind_p c k) (bind m km) h.
Proof.
  intros Hc Hk g. unfold bind_p, bind. rewrite Hc.
  destruct (m g) as [[a g']|e]; [apply Hk | reflexivity].
Qed.

Lemma reads_only_read {A B} (f : heap -> A) (k : A -> P B) km h :
  reads_only (k (f h)) km h -> reads_only (bind_p (read f) k) km h.
Proof. intros Hk g. unfold bind_p, read. apply Hk. Qed.

Lemma reads_only_ext {A} (c : P A) (m m' : M A) h :
  (forall g, m g = m' g) -> reads_only c m h -> reads_only c m' h.
Proof. intros E Hc g. rewrite <- E. apply Hc. Qed.

Lemma or_ref_reads x default h :
  exists l,
    reads_only (or_ref x default) (ret l) h
    /\ str_list h l = py_or (option_map (str_list h) x) (str_list h default).
Proof.
  destruct x as [l|]; cbn [or_ref option_map py_or].
  - destruct (str_list h l) as [|s items] eqn:E.
    + exists default. split; [|reflexivity].
      apply reads_only_read. rewrite E. apply reads_only_ret.
    + exists l. split; [|exact E].
      apply reads_only_read. rewrite E. apply reads_only_ret.
  - exists default. split; [apply reads_only_ret | reflexivity].
Qed.

Lemma rng_choice_ref_reads a h :
  reads_only (rng_choice_ref a) (rng_choice (str_list h a)) h.
Proof. unfold rng_choice_ref. apply reads_only_read, reads_only_local. Qed.

Lemma build_pool_reads n partners services regions pops hosts content_types ua_families h :
  reads_only
    (build_pool_in n partners services regions pops hosts content_types ua_families)
    (build_pool n partners (str_list h services) (str_list h regions) pops hosts
       (str_list h content_types) (str_list h ua_families))
    h.
Proof.
  induction n as [|n IH]; cbn [build_pool_in build_pool]; [apply reads_only_ret|].
  apply reads_only_bind; [apply reads_only_local|]. intros partner.
  apply reads_only_bind; [apply rng_choice_ref_reads|]. intros service.
  apply reads_only_bind; [apply rng_choice_ref_reads|]. intros region.
  apply reads_only_bind; [apply reads_only_local|]. intros pop.
  apply reads_only_bind; [apply reads_only_local|]. intros host.
  apply reads_only_bind; [apply rng_choice_ref_reads|]. intros ctype.
  apply reads_only_bind; [apply rng_choice_ref_reads|]. intros ua_family.
  apply reads_only_bind; [apply IH|]. intros rest.
  apply reads_only_ret.
Qed.

(** The incidents a call sees in [h]. *)
Definition incidents_in (h : heap) (incidents : option loc) : list Incident.t :=
  match incidents with
  | None => []
  | Some l => map (inc_obj h) (inc_list h l)
  end.

Lemma slice_minute_reads seed incidents ts mult sl h :
  reads_only (slice_minute_in seed incidents ts mult sl)
             (slice_minute seed (incidents_in h incidents) ts mult sl) h.
Proof.
  unfold slice_minute_in, read_incidents, incidents_in.
  destruct incidents as [l|].
  - apply reads_only_read, reads_only_local.
  - intros g. reflexivity.
Qed.

Lemma slice_loop_reads seed incidents ts mult pool idxs h :
  reads_only (slice_loop_in seed incidents ts mult pool idxs)
             (slice_loop seed (incidents_in h incidents) ts mult pool idxs) h.
Proof.
  induction idxs as [|idx idxs IH]; cbn [slice_loop_in slice_loop];
    [apply reads_only_ret|].
  apply reads_only_bind; [apply reads_only_local|]. intros sl.
  apply reads_only_bind; [apply slice_minute_reads|]. intros r.
  apply reads_only_bind; [apply IH|]. intros rest.
  apply reads_only_ret.
Qed.

Lemma minute_loop_reads seed incidents ts0 density pool ms h :
  reads_only (minute_loop_in seed incidents ts0 density pool ms)
             (minute_loop seed (incidents_in h incidents) ts0 density pool ms) h.
Proof.
  induction ms as [|m ms IH]; cbn [minute_loop_in minute_loop];
    [apply reads_only_ret|].
  apply reads_only_bind.
  - unfold minute_rows_in, minute_rows.
    apply reads_only_bind; [apply reads_only_local|]. intros idxs.
    apply slice_loop_reads.
  - intros rows. apply reads_only_bind; [apply IH|]. intros rest.
    apply reads_only_ret.
Qed.

Lemma generate_body_reads c h :
  schema_intact h ->
  reads_only (generate_body_in c) (generate_body (args_of h c)) h.
Proof.
  intros (Hs & Hc & Hr & Hu). unfold generate_body_in.
  destruct (or_ref_reads (c_services c) DEFAULT_SERVICES h) as (ls & Rs & Es).
  destruct (or_ref_reads (c_regions c) DEFAULT_REGIONS h) as (lr & Rr & Er).
  destruct (or_ref_reads (c_content_types c) DEFAULT_CONTENT_TYPES h) as (lc & Rc & Ec).
  destruct (or_ref_reads (c_ua_families c) DEFAULT_UA_FAMILIES h) as (lu & Ru & Eu).
  rewrite Hs in Es. rewrite Hr in Er. rewrite Hc in Ec. rewrite Hu in Eu.
  intros g.
  unfold bind_p at 1. rewrite Rs. cbn [ret].
  unfold bind_p at 1. rewrite Rr. cbn [ret].
  unfold bind_p at 1. rewrite Rc. cbn [ret].
  unfold bind_p at 1. rewrite Ru. cbn [ret].
  revert g. unfold generate_body, args_of.
  cbn [start_ts_utc minutes n_partners n_pops n_hosts services regions
       content_types ua_families seed incidents density].
  rewrite <- Es, <- Er, <- Ec, <- Eu.
  apply reads_only_bind; [apply build_pool_reads|]. intros pool.
  apply (reads_only_ext _ (minute_loop (c_seed c) (incidents_in h (c_incidents c))
                             (_utc_minute_floor (c_start_ts_utc c)) (c_density c) pool
                             (range (c_minutes c)))).
  - intros g. unfold incidents_in. destruct (c_incidents c); reflexivity.
  - apply minute_loop_reads.
Qed.

(** A call returns what the function of its argument values returns, and
    leaves every shared object as it found it. *)
Lemma generate_minute_logs_reads c h :
  schema_intact h ->
  generate_minute_logs_in c h = (generate_minute_logs (args_of h c), h).
Proof.
  intros Hh. unfold generate_minute_logs_in, generate_minute_logs.
  change (seed (args_of h c)) with (c_seed c).
  destruct (c_seed c <? 0); [reflexivity|].
  rewrite (generate_body_reads c h Hh).
  destruct (generate_body (args_of h c) (seed_bitgen (c_seed c))) as [[rows g]|e];
    reflexivity.
Qed.


End Process.

(** A process holding, besides the module's lists, two list objects with the
    same two services and two lists of the same three incidents. *)
Definition two_callers : heap :=
  mkHeap
    (fun l => match l with
              | 0 => Schema.DEFAULT_SERVICES
              | 1 => Schema.DEFAULT_CONTENT_TYPES
              | 2 => Schema.DEFAULT_REGIONS
              | 3 => Schema.DEFAULT_UA_FAMILIES
              | _ => ["live"; "vod"]
              end%nat)
    (fun l => match l with
              | 6 => [8; 9; 10]
              | _ => [11; 11; 11]
              end%nat)
    (fun _ => Scenario.all_day "origin_overload" 30).

(** The first caller's arguments, and a second caller's: other list objects,
    the same contents. *)
Definition first_call : Call :=
  mkCall Replay.epoch_2026_02_20 1 6 20 120 (Some 4%nat) None None None 7
    (Some 6%nat) 0%float.
Definition second_call : Call :=
  mkCall Replay.epoch_2026_02_20 1 6 20 120 (Some 5%nat) None None None 7
    (Some 7%nat) 0%float.


(** ** Rounding, from below

    How low a rounded binary64 product can land: enough of the rounding of
    [SpecFloat] to bound [int(n * x)] from below. *)

Section Rounding.

Lemma digits2_size p : digits2_pos p = Pos.size p.
Proof. induction p; cbn; congruence. Qed.

Lemma digits2_bounds p :
  2 ^ (Z.pos (digits2_pos p) - 1) <= Z.pos p < 2 ^ Z.pos (digits2_pos p).
Proof.
  rewrite digits2_size. split.
  - pose proof (Pos.size_le p) as H.
    assert (Z.pos (2 ^ Pos.size p) <= Z.pos p~0) as H' by exact H.
    rewrite Pos2Z.inj_pow in H'.
    replace (2 ^ Z.pos (Pos.size p)) with (2 * 2 ^ (Z.pos (Pos.size p) - 1)) in H'.
    + lia.
    + rewrite <- Z.pow_succ_r by lia. f_equal. lia.
  - pose proof (Pos.size_gt p) as H.
    assert (Z.pos p < Z.pos (2 ^ Pos.size p)) as H' by exact H.
    now rewrite Pos2Z.inj_pow in H'.
Qed.

Lemma shr_1_m mrs : 0 <= shr_m mrs -> shr_m (shr_1 mrs) = shr_m mrs / 2.
Proof.
  destruct mrs as [m r s]. cbn [shr_m]. intros Hm. unfold shr_1.
  destruct m as [|[p|p|]|p]; cbn [shr_m]; try lia; try reflexivity.
  - apply Z.div_unique with 1; lia.
  - apply Z.div_unique with 0; lia.
Qed.

Lemma iter_shr_1_m n : forall mrs,
  0 <= shr_m mrs -> shr_m (iter_pos shr_1 n mrs) = shr_m mrs / 2 ^ Z.pos n.
Proof.
  assert (forall m, 0 <= m -> 0 <= m / 2) as Hdiv2
    by (intros; apply Z.div_pos; lia).
  induction n as [n IH|n IH|]; intros mrs Hm; cbn [iter_pos].
  - assert (0 <= shr_m (shr_1 mrs)) as H1 by (rewrite shr_1_m; auto).
    assert (0 <= shr_m (iter_pos shr_1 n (shr_1 mrs))) as H2
      by (rewrite IH by assumption; apply Z.div_pos; lia).
    rewrite IH, IH, shr_1_m by assumption.
    rewrite !Z.div_div by lia. f_equal.
    replace (Z.pos n~1) with (1 + Z.pos n + Z.pos n) by lia.
    rewrite !Z.pow_add_r by lia. lia.
  - assert (0 <= shr_m (iter_pos shr_1 n mrs)) as H2
      by (rewrite IH by assumption; apply Z.div_pos; lia).
    rewrite IH, IH by assumption.
    rewrite !Z.div_div by lia. f_equal.
    replace (Z.pos n~0) with (Z.pos n + Z.pos n) by lia.
    rewrite !Z.pow_add_r by lia. lia.
  - now rewrite shr_1_m.
Qed.

Lemma shr_m_spec mrs e n :
  0 <= shr_m mrs ->
  shr_m (fst (shr mrs e n)) = shr_m mrs / 2 ^ Z.max 0 n
  /\ snd (shr mrs e n) = e + Z.max 0 n.
Proof.
  intros Hm. unfold shr. destruct n as [|p|p]; cbn [fst snd].
  - rewrite Z.div_1_r. split; lia.
  - rewrite iter_shr_1_m by assumption. split; [f_equal; f_equal; lia | lia].
  - rewrite Z.div_1_r. split; lia.
Qed.

Lemma round_nearest_even_ge m l : m <= round_nearest_even m l.
Proof.
  unfold round_nearest_even. destruct l as [|[]]; try lia.
  destruct (Z.even m); lia.
Qed.

(** [T <= m * 2^e], on integers. *)
Definition le_scaled (T m e : Z) : Prop :=
  T * 2 ^ Z.max 0 (- e) <= m * 2 ^ Z.max 0 e.

Lemma pow2_pos k : 0 < 2 ^ k \/ (k < 0 /\ 2 ^ k = 0).
Proof.
  destruct (Z.le_gt_cases 0 k) as [H|H].
  - left. apply Z.pow_pos_nonneg; lia.
  - right. split; [exact H|]. now apply Z.pow_neg_r.
Qed.

Lemma div_pow2_lower x y k : 0 <= k -> x * 2 ^ k <= y -> x <= y / 2 ^ k.
Proof.
  intros Hk H. apply Z.div_le_lower_bound.
  - apply Z.pow_pos_nonneg; lia.
  - lia.
Qed.

Lemma pos_div_pow2_normal p k :
  k = Z.pos (digits2_pos p) - 53 -> 0 <= k ->
  2 ^ 52 <= Z.pos p / 2 ^ k.
Proof.
  intros Hk Hk0. apply div_pow2_lower; [exact Hk0|].
  rewrite <- Z.pow_add_r by lia.
  replace (52 + k) with (Z.pos (digits2_pos p) - 1) by lia.
  apply digits2_bounds.
Qed.

Lemma binary_round_aux_lower M E T :
  0 <= T < 2 ^ 53 ->
  le_scaled T (Z.pos M) E ->
  match binary_round_aux prec emax false (Z.pos M) E loc_Exact with
  | S754_zero _ => T = 0
  | S754_finite s q e => s = false /\ le_scaled T (Z.pos q) e
  | _ => True
  end.
Proof.
  intros HT Hle.
  unfold binary_round_aux, shr_fexp.
  set (d := Zdigits2 (Z.pos M)).
  set (n1 := fexp prec emax (d + E) - E).
  assert (Hd : d = Z.pos (digits2_pos M)) by reflexivity.
  pose proof (digits2_bounds M) as HdM.
  (* first shift *)
  assert (S1 := shr_m_spec (shr_record_of_loc (Z.pos M) loc_Exact) E n1
                 ltac:(cbn; lia)).
  change (shr_m (shr_record_of_loc (Z.pos M) loc_Exact)) with (Z.pos M) in S1.
  assert (Hexact : n1 <= 0 ->
            shr (shr_record_of_loc (Z.pos M) loc_Exact) E n1
            = (Build_shr_record (Z.pos M) false false, E)).
  { intros Hn. unfold shr. destruct n1; try reflexivity. lia. }
  destruct (shr (shr_record_of_loc (Z.pos M) loc_Exact) E n1) as [mrs' e'] eqn:E1.
  cbn [fst snd] in S1. destruct S1 as (Hm' & He').
  set (m1 := round_nearest_even (shr_m mrs') (loc_of_shr_record mrs')).
  assert (Hm1 : Z.pos M / 2 ^ Z.max 0 n1 <= m1)
    by (rewrite <- Hm'; apply round_nearest_even_ge).
  assert (Hm1exact : n1 <= 0 -> m1 = Z.pos M).
  { intros Hn. specialize (Hexact Hn). inversion Hexact; subst. reflexivity. }
  assert (H0m1 : 0 <= m1).
  { eapply Z.le_trans; [|exact Hm1]. apply Z.div_pos; [lia|].
    apply Z.pow_pos_nonneg; lia. }
  (* second shift *)
  set (n2 := fexp prec emax (Zdigits2 m1 + e') - e').
  assert (S2 := shr_m_spec (shr_record_of_loc m1 loc_Exact) e' n2 H0m1).
  change (shr_m (shr_record_of_loc m1 loc_Exact)) with m1 in S2.
  destruct (shr (shr_record_of_loc m1 loc_Exact) e' n2) as [mrs'' e''] eqn:E2.
  cbn [fst snd] in S2. destruct S2 as (Hm'' & He'').
  (* the bound on the final mantissa *)
  assert (Hfinal : le_scaled T (shr_m mrs'') e'').
  { rewrite Hm'', He'', He'. unfold le_scaled in *.
    set (P1 := Z.max 0 n1) in *. set (P2 := Z.max 0 n2) in *.
    assert (0 <= P1) by lia. assert (0 <= P2) by lia.
    assert (0 < 2 ^ P1) by (apply Z.pow_pos_nonneg; lia).
    assert (0 < 2 ^ P2) by (apply Z.pow_pos_nonneg; lia).
    destruct (Z.le_gt_cases (E + P1 + P2) 0) as [Hg|Hg].
    - (* the grid is at most 1: T is on it *)
      rewrite (Z.max_l 0 (E + P1 + P2)) by lia.
      rewrite (Z.max_r 0 (- (E + P1 + P2))) by lia.
      rewrite (Z.max_l 0 E) in Hle by lia.
      rewrite (Z.max_r 0 (- E)) in Hle by lia.
      rewrite Z.pow_0_r, Z.mul_1_r in *.
      apply div_pow2_lower; [lia|].
      eapply Z.le_trans; [|exact Hm1].
      apply div_pow2_lower; [lia|].
      rewrite <- !Z.mul_assoc, <- !Z.pow_add_r by lia.
      replace (- (E + P1 + P2) + (P2 + P1)) with (- E) by lia.
      exact Hle.
    - rewrite (Z.max_r 0 (E + P1 + P2)) by lia.
      rewrite (Z.max_l 0 (- (E + P1 + P2))) by lia.
      rewrite Z.pow_0_r, Z.mul_1_r.
      destruct (Z.le_gt_cases n2 0) as [Hn2|Hn2];
        [destruct (Z.le_gt_cases n1 0) as [Hn1|Hn1]|].
      + (* nothing was shifted *)
        rewrite (Hm1exact Hn1).
        replace P2 with 0 by lia. replace P1 with 0 in * by lia.
        rewrite Z.pow_0_r, Z.div_1_r.
        rewrite (Z.max_r 0 E) in Hle by lia.
        rewrite (Z.max_l 0 (- E)) in Hle by lia.
        rewrite Z.pow_0_r, Z.mul_1_r in Hle.
        replace (E + 0 + 0) with E by lia. exact Hle.
      + (* one shift, to a full mantissa *)
        replace P2 with 0 in * by lia. rewrite Z.pow_0_r, Z.div_1_r.
        assert (n1 = d - 53) as Hn1d
          by (unfold n1, fexp, emin, prec, emax in *; lia).
        assert (2 ^ 52 <= Z.pos M / 2 ^ P1) as Hbig.
        { apply pos_div_pow2_normal; lia. }
        assert (2 ^ 1 <= 2 ^ (E + P1 + 0)) by (apply Z.pow_le_mono_r; lia).
        assert (2 ^ 52 * 2 ^ 1 <= m1 * 2 ^ (E + P1 + 0))
          by (apply Z.mul_le_mono_nonneg; lia).
        change (2 ^ 52 * 2 ^ 1) with (2 ^ 53) in *. lia.
      + (* the second shift normalises *)
        destruct m1 as [|p1|p1] eqn:Em1.
        * exfalso. cbn [Zdigits2] in n2.
          unfold n2, fexp, emin, prec, emax in *. lia.
        * cbn [Zdigits2] in n2.
          assert (n2 = Z.pos (digits2_pos p1) - 53) as Hn2d
            by (unfold n2, fexp, emin, prec, emax in *; lia).
          assert (2 ^ 52 <= Z.pos p1 / 2 ^ P2) as Hbig.
          { apply pos_div_pow2_normal; lia. }
          assert (2 ^ 1 <= 2 ^ (E + P1 + P2)) by (apply Z.pow_le_mono_r; lia).
          assert (2 ^ 52 * 2 ^ 1 <= Z.pos p1 / 2 ^ P2 * 2 ^ (E + P1 + P2))
            by (apply Z.mul_le_mono_nonneg; lia).
          change (2 ^ 52 * 2 ^ 1) with (2 ^ 53) in *. lia.
        * lia. }
  destruct (shr_m mrs'') as [|q|q] eqn:Eq.
  - unfold le_scaled in Hfinal. cbn [Z.mul] in Hfinal.
    destruct (pow2_pos (Z.max 0 (- e''))) as [Hp|[Hp _]]; [nia|lia].
  - destruct (e'' <=? emax - prec); [|exact I]. now split.
  - exact I.
Qed.

Lemma le_scaled_intro T m e a b :
  0 <= a -> 0 <= b -> e = b - a ->
  T * 2 ^ a <= m * 2 ^ b -> le_scaled T m e.
Proof.
  intros Ha Hb He H. unfold le_scaled.
  destruct (Z.le_gt_cases 0 e) as [H0|H0].
  - rewrite (Z.max_r 0 e), (Z.max_l 0 (- e)) by lia.
    rewrite Z.pow_0_r, Z.mul_1_r.
    replace b with (e + a) in H by lia.
    rewrite Z.pow_add_r, Z.mul_assoc in H by lia.
    assert (0 < 2 ^ a) by (apply Z.pow_pos_nonneg; lia).
    nia.
  - rewrite (Z.max_l 0 e), (Z.max_r 0 (- e)) by lia.
    rewrite Z.pow_0_r, Z.mul_1_r.
    replace a with (- e + b) in H by lia.
    rewrite Z.pow_add_r, Z.mul_assoc in H by lia.
    assert (0 < 2 ^ b) by (apply Z.pow_pos_nonneg; lia).
    nia.
Qed.

Lemma le_scaled_mul T1 m1 e1 T2 m2 e2 :
  0 <= T1 -> 0 <= T2 -> 0 <= m1 -> 0 <= m2 ->
  le_scaled T1 m1 e1 -> le_scaled T2 m2 e2 ->
  le_scaled (T1 * T2) (m1 * m2) (e1 + e2).
Proof.
  unfold le_scaled at 1 2. intros HT1 HT2 Hm1 Hm2 H1 H2.
  apply (le_scaled_intro _ _ _ (Z.max 0 (- e1) + Z.max 0 (- e2))
           (Z.max 0 e1 + Z.max 0 e2)); try lia.
  rewrite !Z.pow_add_r by lia.
  assert (0 < 2 ^ Z.max 0 (- e1)) by (apply Z.pow_pos_nonneg; lia).
  assert (0 < 2 ^ Z.max 0 (- e2)) by (apply Z.pow_pos_nonneg; lia).
  assert (0 < 2 ^ Z.max 0 e1) by (apply Z.pow_pos_nonneg; lia).
  assert (0 < 2 ^ Z.max 0 e2) by (apply Z.pow_pos_nonneg; lia).
  transitivity ((T1 * 2 ^ Z.max 0 (- e1)) * (T2 * 2 ^ Z.max 0 (- e2))); [lia|].
  transitivity ((m1 * 2 ^ Z.max 0 e1) * (m2 * 2 ^ Z.max 0 e2)); [|lia].
  apply Z.mul_le_mono_nonneg; lia.
Qed.

Lemma le_scaled_shiftl T q e : le_scaled T q e -> T <= Z.shiftl q e.
Proof.
  unfold le_scaled. intros H.
  destruct (Z.le_gt_cases 0 e) as [H0|H0].
  - rewrite (Z.max_r 0 e), (Z.max_l 0 (- e)) in H by lia.
    rewrite Z.pow_0_r, Z.mul_1_r in H.
    now rewrite Z.shiftl_mul_pow2.
  - rewrite (Z.max_l 0 e), (Z.max_r 0 (- e)) in H by lia.
    rewrite Z.pow_0_r, Z.mul_1_r in H.
    rewrite Z.shiftl_div_pow2 by lia.
    apply div_pow2_lower; [lia | exact H].
Qed.

Lemma iter_xO_pow2 p d : Z.pos (Pos.iter xO p d) = Z.pos p * 2 ^ Z.pos d.
Proof.
  induction d as [|d IH] using Pos.peano_ind.
  - cbn [Pos.iter]. lia.
  - rewrite Pos.iter_succ, Pos2Z.inj_xO, IH, Pos2Z.inj_succ, Z.pow_succ_r by lia.
    lia.
Qed.

Lemma shl_align_exact mx ex ex' :
  let '(mz, ez) := shl_align mx ex ex' in
  ez <= ex /\ Z.pos mz = Z.pos mx * 2 ^ (ex - ez).
Proof.
  unfold shl_align. destruct (ex' - ex) as [|d|d] eqn:Ed.
  - rewrite Z.sub_diag. split; lia.
  - rewrite Z.sub_diag. split; lia.
  - split; [lia|]. rewrite iter_xO_pow2. f_equal. f_equal. lia.
Qed.

Lemma binary_normalize_lower n :
  0 < n < 2 ^ 53 ->
  match binary_normalize prec emax n 0 false with
  | S754_zero _ => False
  | S754_finite s q e => s = false /\ le_scaled n (Z.pos q) e
  | _ => True
  end.
Proof.
  intros Hn. destruct n as [|p|p]; try lia.
  unfold binary_normalize, binary_round.
  pose proof (shl_align_exact p 0 (fexp prec emax (Z.pos (digits2_pos p) + 0))) as Hal.
  destruct (shl_align p 0 (fexp prec emax (Z.pos (digits2_pos p) + 0))) as [mz ez].
  destruct Hal as (Hez & Hmz).
  assert (le_scaled (Z.pos p) (Z.pos mz) ez) as Hle.
  { apply (le_scaled_intro _ _ _ (0 - ez) 0); lia. }
  pose proof (binary_round_aux_lower mz ez (Z.pos p) ltac:(lia) Hle) as Hr.
  destruct (binary_round_aux prec emax false (Z.pos mz) ez loc_Exact); try exact I.
  - lia.
  - exact Hr.
Qed.

Lemma Prim2SF_of_Z n :
  0 <= n < 2 ^ 63 ->
  Prim2SF (SF2Prim (binary_normalize prec emax n 0 false))
  = binary_normalize prec emax n 0 false.
Proof.
  intros Hn. apply Prim2SF_SF2Prim.
  assert (Uint63.to_Z (Uint63.of_Z n) = n) as Hz.
  { rewrite Uint63.of_Z_spec. apply Z.mod_small. exact Hn. }
  rewrite <- Hz at 1. rewrite <- of_uint63_spec. apply Prim2SF_valid.
Qed.

Lemma Prim2SF_2000 : Prim2SF 2000%float = S754_finite false 8796093022208000 (-42).
Proof. reflexivity. Qed.

(** A float that is 2000.0 or compares above it is [+inf] or a finite value
    of at least 2000. *)
Lemma at_least_2000 m :
  m = 2000%float \/ (2000 <? m)%float = true ->
  match Prim2SF m with
  | S754_finite s mm em => s = false /\ le_scaled 2000 (Z.pos mm) em
  | S754_infinity s => s = false
  | _ => False
  end.
Proof.
  intros [->|Hlt].
  - rewrite Prim2SF_2000. split; [reflexivity|].
    apply (le_scaled_intro _ _ _ 42 0); lia.
  - rewrite ltb_spec, Prim2SF_2000 in Hlt.
    pose proof (Prim2SF_valid m) as Hv.
    destruct (Prim2SF m) as [s|s| |s mm em]; unfold SFltb, SFcompare in Hlt;
      try discriminate.
    + destruct s; [discriminate|reflexivity].
    + destruct s; [discriminate|]. split; [reflexivity|].
      cbn [valid_binary] in Hv. unfold bounded, canonical_mantissa in Hv.
      apply andb_true_iff in Hv as (Hc & _). apply Z.eqb_eq in Hc.
      pose proof (digits2_bounds mm) as Hd.
      revert Hlt.
      destruct (Z.compare_spec (-42) em) as [E|E|E]; intros Hlt; try discriminate.
      * subst em.
        change (PosDef.Pos.compare_cont Eq 8796093022208000 mm)
          with (Z.compare 8796093022208000 (Z.pos mm)) in Hlt.
        revert Hlt.
        destruct (Z.compare_spec 8796093022208000 (Z.pos mm)) as [C|C|C];
          intros Hlt; try discriminate.
        apply (le_scaled_intro _ _ _ 42 0); lia.
      * assert (Z.pos (digits2_pos mm) = 53) as H53
          by (unfold fexp, emin, prec, emax in Hc; lia).
        rewrite H53 in Hd.
        change (2 ^ (53 - 1)) with 4503599627370496 in Hd.
        destruct (Z.le_gt_cases 0 em) as [H0|H0].
        -- apply (le_scaled_intro _ _ _ 0 em); try lia.
           all: assert (1 <= 2 ^ em) by (apply (Z.pow_le_mono_r 2 0 em); lia).
           all: rewrite Z.pow_0_r; nia.
        -- apply (le_scaled_intro _ _ _ (- em) 0); try lia.
           all: assert (2 ^ (- em) <= 2 ^ 41) by (apply Z.pow_le_mono_r; lia).
           all: change (2 ^ 41) with 2199023255552 in *.
           all: rewrite Z.pow_0_r; lia.
Qed.

(** [int(n * x)] for a count [n] up to 2^42 and a float [x] that is 2000.0
    or above: at least [2000 * n]. *)
Lemma py_int_mul_lower n x b :
  0 < n <= 2 ^ 42 ->
  py_int (Z2F n * fmax 2000 x)%float = Ok b ->
  2000 * n <= b.
Proof.
  intros Hn Hb.
  assert (fmax 2000 x = 2000%float \/ (2000 <? fmax 2000 x)%float = true) as Hm.
  { unfold fmax. destruct (2000 <? x)%float eqn:E; auto. }
  apply at_least_2000 in Hm.
  assert (2 ^ 42 = 4398046511104) as E42 by reflexivity.
  assert (2 ^ 53 = 9007199254740992) as E53 by reflexivity.
  assert (2 ^ 63 = 9223372036854775808) as E63 by reflexivity.
  pose proof (binary_normalize_lower n ltac:(lia)) as Hz.
  unfold py_int in Hb. rewrite mul_spec in Hb.
  unfold Z2F in Hb. rewrite Prim2SF_of_Z in Hb by lia.
  destruct (binary_normalize prec emax n 0 false) as [s|s| |s r er];
    destruct (Prim2SF (fmax 2000 x)) as [s'|s'| |s' mm em];
    try contradiction; try (cbn in Hb; discriminate).
  destruct Hz as (-> & Hr). destruct Hm as (-> & Hmm).
  unfold SF64mul, SFmul in Hb. cbn [xorb] in Hb.
  assert (le_scaled (n * 2000) (Z.pos (r * mm)) (er + em)) as Hle.
  { rewrite Pos2Z.inj_mul. apply le_scaled_mul; try lia; assumption. }
  pose proof (binary_round_aux_lower (r * mm) (er + em) (n * 2000) ltac:(lia) Hle) as Hp.
  destruct (binary_round_aux prec emax false (Z.pos (r * mm)) (er + em) loc_Exact)
    as [s|s| |s q e]; try discriminate.
  - lia.
  - destruct Hp as (-> & Hq). inversion Hb as [Hb'].
    apply le_scaled_shiftl in Hq. lia.
Qed.

End Rounding.

(** ** Rounding, from above

    How high a rounded binary64 product can land: a product that is at most
    an integer [T] below 2^53 rounds to at most [T]. *)

Section RoundingUp.

Definition shr_inexact (mrs : shr_record) : bool := shr_r mrs || shr_s mrs.

(** [mrs] is [M] shifted right by [k] bits, with its sticky bits telling
    whether anything was shifted out. *)
Definition tracks (M k : Z) (mrs : shr_record) : Prop :=
  0 <= shr_m mrs
  /\ exists rem,
       M = shr_m mrs * 2 ^ k + rem
       /\ 0 <= rem < 2 ^ k
       /\ (shr_inexact mrs = true -> 0 < rem).

Lemma tracks_shr_1 M k mrs : 0 <= k -> tracks M k mrs -> tracks M (k + 1) (shr_1 mrs).
Proof.
  intros Hk (Hm & rem & HM & Hrem & Hin).
  assert (0 < 2 ^ k) as Hpow by (apply Z.pow_pos_nonneg; lia).
  assert (2 ^ (k + 1) = 2 * 2 ^ k) as E2
    by (rewrite Z.pow_add_r, Z.pow_1_r by lia; lia).
  destruct mrs as [m r s]. cbn [shr_m] in *. unfold shr_inexact in *.
  cbn [shr_r shr_s] in Hin.
  unfold shr_1, tracks. rewrite E2.
  destruct m as [|[p|p|]|p]; try lia; cbn [shr_m shr_r shr_s]; (split; [lia|]).
  - exists rem. repeat split; try lia. cbn [orb]. exact Hin.
  - exists (2 ^ k + rem). rewrite Pos2Z.inj_xI in HM. repeat split; lia.
  - exists rem. rewrite Pos2Z.inj_xO in HM. repeat split; try lia.
    cbn [orb]. exact Hin.
  - exists (2 ^ k + rem). repeat split; lia.
Qed.

Lemma tracks_iter M n : forall k mrs,
  0 <= k -> tracks M k mrs -> tracks M (k + Z.pos n) (iter_pos shr_1 n mrs).
Proof.
  induction n as [n IH|n IH|]; intros k mrs Hk H; cbn [iter_pos].
  - replace (k + Z.pos n~1) with (k + 1 + Z.pos n + Z.pos n) by lia.
    apply IH; [lia|]. apply IH; [lia|]. now apply tracks_shr_1.
  - replace (k + Z.pos n~0) with (k + Z.pos n + Z.pos n) by lia.
    apply IH; [lia|]. now apply IH.
  - now apply tracks_shr_1.
Qed.

Lemma tracks_shr M e n :
  0 <= M ->
  tracks M (Z.max 0 n) (fst (shr (shr_record_of_loc M loc_Exact) e n))
  /\ snd (shr (shr_record_of_loc M loc_Exact) e n) = e + Z.max 0 n.
Proof.
  intros HM.
  assert (tracks M 0 (shr_record_of_loc M loc_Exact)) as H0.
  { split; [exact HM|]. exists 0. cbn. repeat split; try lia; try discriminate. }
  unfold shr. destruct n as [|p|p]; cbn [fst snd].
  - split; [exact H0 | lia].
  - split; [|lia]. replace (Z.max 0 (Z.pos p)) with (0 + Z.pos p) by lia.
    apply tracks_iter; [lia | exact H0].
  - split; [exact H0 | lia].
Qed.

Lemma round_nearest_even_upper M k mrs U :
  0 <= k -> tracks M k mrs -> M <= U * 2 ^ k ->
  0 <= round_nearest_even (shr_m mrs) (loc_of_shr_record mrs) <= U.
Proof.
  intros Hk (Hm & rem & HM & Hrem & Hin) HU.
  assert (0 < 2 ^ k) as Hpow by (apply Z.pow_pos_nonneg; lia).
  destruct mrs as [m r s]. cbn [shr_m] in *. unfold shr_inexact in Hin.
  cbn [shr_r shr_s] in Hin.
  assert (r || s = true -> m + 1 <= U) as Hup.
  { intros Hrs. specialize (Hin Hrs). nia. }
  assert (m <= U) as Hex by nia.
  unfold round_nearest_even, loc_of_shr_record.
  destruct r, s; cbn [orb] in Hup; try (specialize (Hup eq_refl)).
  - lia.
  - destruct (Z.even m); lia.
  - lia.
  - lia.
Qed.

Lemma binary_round_aux_upper M E T :
  0 < T < 2 ^ 53 -> E <= 0 -> Z.pos M <= T * 2 ^ (- E) ->
  match binary_round_aux prec emax false (Z.pos M) E loc_Exact with
  | S754_zero _ => True
  | S754_finite s q e => s = false /\ e <= 0 /\ Z.pos q <= T * 2 ^ (- e)
  | _ => False
  end.
Proof.
  intros HT HE HM.
  unfold binary_round_aux, shr_fexp.
  set (d := Zdigits2 (Z.pos M)).
  set (n1 := fexp prec emax (d + E) - E).
  assert (Hd : d = Z.pos (digits2_pos M)) by reflexivity.
  pose proof (digits2_bounds M) as HdM.
  assert (HdE : d + E <= 53).
  { assert (2 ^ (d - 1) < 2 ^ (53 - E)) as Hlt.
    { rewrite Hd. eapply Z.le_lt_trans; [apply HdM|].
      eapply Z.le_lt_trans; [exact HM|].
      replace (53 - E) with (53 + - E) by lia. rewrite Z.pow_add_r by lia.
      apply Z.mul_lt_mono_pos_r; [apply Z.pow_pos_nonneg; lia | lia]. }
    apply Z.pow_lt_mono_r_iff in Hlt; lia. }
  (* first shift, then rounding *)
  destruct (tracks_shr (Z.pos M) E n1 ltac:(lia)) as (Ht1 & He1).
  destruct (shr (shr_record_of_loc (Z.pos M) loc_Exact) E n1) as [mrs' e'] eqn:E1.
  cbn [fst snd] in Ht1, He1.
  assert (He'0 : e' <= 0) by (unfold n1, fexp, emin, prec, emax in *; lia).
  assert (He'min : -1074 <= e') by (unfold n1, fexp, emin, prec, emax in *; lia).
  set (m1 := round_nearest_even (shr_m mrs') (loc_of_shr_record mrs')).
  assert (Hm1 : 0 <= m1 <= T * 2 ^ (- e')).
  { apply (round_nearest_even_upper (Z.pos M) (Z.max 0 n1)); [lia | exact Ht1 |].
    rewrite <- Z.mul_assoc, <- Z.pow_add_r by lia.
    replace (- e' + Z.max 0 n1) with (- E) by lia. exact HM. }
  (* second shift *)
  set (n2 := fexp prec emax (Zdigits2 m1 + e') - e').
  assert (S2 := shr_m_spec (shr_record_of_loc m1 loc_Exact) e' n2 ltac:(cbn; lia)).
  change (shr_m (shr_record_of_loc m1 loc_Exact)) with m1 in S2.
  destruct (shr (shr_record_of_loc m1 loc_Exact) e' n2) as [mrs'' e''] eqn:E2.
  cbn [fst snd] in S2. destruct S2 as (Hm'' & He'').
  rewrite Hm''.
  assert (0 < 2 ^ Z.max 0 n2) as Hpow2 by (apply Z.pow_pos_nonneg; lia).
  assert (Hq : 0 <= m1 / 2 ^ Z.max 0 n2) by (apply Z.div_pos; lia).
  assert (Hfin : e'' <= 0 /\ m1 / 2 ^ Z.max 0 n2 <= T * 2 ^ (- e'')).
  { destruct (Z.le_gt_cases n2 0) as [Hn2|Hn2].
    - replace (Z.max 0 n2) with 0 in * by lia. rewrite Z.pow_0_r, Z.div_1_r.
      replace e'' with e' by lia. split; lia.
    - destruct m1 as [|p1|p1] eqn:Em1.
      + exfalso. cbn [Zdigits2] in n2.
        unfold n2, fexp, emin, prec, emax in *. lia.
      + cbn [Zdigits2] in n2.
        pose proof (digits2_bounds p1) as Hd1.
        assert (n2 = Z.pos (digits2_pos p1) - 53) as Hn2d
          by (unfold n2, fexp, emin, prec, emax in *; lia).
        assert (Z.pos (digits2_pos p1) + e' <= 53) as Hd1e.
        { assert (2 ^ (Z.pos (digits2_pos p1) - 1) < 2 ^ (53 - e')) as Hlt.
          { eapply Z.le_lt_trans; [apply Hd1|].
            eapply Z.le_lt_trans; [apply Hm1|].
            replace (53 - e') with (53 + - e') by lia. rewrite Z.pow_add_r by lia.
            apply Z.mul_lt_mono_pos_r; [apply Z.pow_pos_nonneg; lia | lia]. }
          apply Z.pow_lt_mono_r_iff in Hlt; lia. }
        split; [lia|].
        apply Z.div_le_upper_bound; [lia|].
        replace (2 ^ Z.max 0 n2 * (T * 2 ^ (- e''))) with (T * 2 ^ (- e')); [lia|].
        replace (- e') with (Z.max 0 n2 + - e'') by lia.
        rewrite Z.pow_add_r by lia. lia.
      + lia. }
  destruct Hfin as (He''0 & Hqle).
  destruct (m1 / 2 ^ Z.max 0 n2) as [|q|q] eqn:Eq; [exact I| |lia].
  replace (e'' <=? emax - prec) with true
    by (symmetry; apply Z.leb_le; unfold emax, prec; lia).
  repeat split; assumption.
Qed.

Lemma compare_cont_le m c :
  match PosDef.Pos.compare_cont Eq m c with
  | Gt => false
  | _ => true
  end = true ->
  Z.pos m <= Z.pos c.
Proof.
  intros Hle. apply Pos2Z.pos_le_pos. unfold Pos.le, Pos.compare.
  destruct (PosDef.Pos.compare_cont Eq m c); congruence.
Qed.

(** A float between 0.0 and 1.0 is a zero or a positive finite value of at
    most 1. *)
Lemma unit_interval d :
  (0 <=? d)%float = true -> (d <=? 1)%float = true ->
  match Prim2SF d with
  | S754_zero _ => True
  | S754_finite s m e => s = false /\ e <= 0 /\ Z.pos m <= 2 ^ (- e)
  | _ => False
  end.
Proof.
  rewrite !leb_spec.
  change (Prim2SF 0) with (S754_zero false).
  change (Prim2SF 1) with (S754_finite false 4503599627370496 (-52)).
  pose proof (Prim2SF_valid d) as Hv.
  destruct (Prim2SF d) as [s|s| |s m e]; unfold SFleb, SFcompare;
    try discriminate; try (intros; exact I).
  - destruct s; discriminate.
  - destruct s; [discriminate|]. intros _.
    cbn [valid_binary] in Hv. unfold bounded, canonical_mantissa in Hv.
    apply andb_true_iff in Hv as (Hc & _). apply Z.eqb_eq in Hc.
    pose proof (digits2_bounds m) as Hd.
    destruct (Z.compare_spec e (-52)) as [E|E|E]; intros Hle; try discriminate.
    + subst e. split; [reflexivity|]. split; [lia|].
      change (2 ^ (- -52)) with (Z.pos 4503599627370496).
      now apply compare_cont_le.
    + split; [reflexivity|]. split; [lia|].
      assert (Z.pos (digits2_pos m) <= 53) as H53
        by (unfold fexp, emin, prec, emax in Hc; lia).
      eapply Z.le_trans; [apply Z.lt_le_incl, Hd|].
      apply Z.pow_le_mono_r; lia.
Qed.

(** For a density in [[0, 1]], [k] exists and lies between 50 and the pool
    size. *)
Lemma sample_size_unit_interval density :
  (0 <=? density)%float = true -> (density <=? 1)%float = true ->
  exists k, sample_size POOL_SIZE density = Ok k /\ 50 <= k <= 5000.
Proof.
  intros H0 H1. pose proof (unit_interval density H0 H1) as Hd.
  unfold sample_size, py_int. rewrite mul_spec, pool_size_float.
  destruct (Prim2SF density) as [s|s| |s m e]; try contradiction.
  - exists 50. split; [reflexivity | lia].
  - destruct Hd as (-> & He & Hm).
    unfold SF64mul, SFmul. cbn [xorb].
    assert (Z.pos (5497558138880000 * m) <= 5000 * 2 ^ (- (-40 + e))) as Hprod.
    { rewrite Pos2Z.inj_mul.
      replace (- (-40 + e)) with (40 + - e) by lia. rewrite Z.pow_add_r by lia.
      change (2 ^ 40) with 1099511627776. nia. }
    pose proof (binary_round_aux_upper (5497558138880000 * m) (-40 + e) 5000
                  ltac:(split; [lia | reflexivity]) ltac:(lia) Hprod) as Hr.
    destruct (binary_round_aux prec emax false (Z.pos (5497558138880000 * m))
                (-40 + e) loc_Exact) as [s'|s'| |s' q e']; try contradiction.
    + exists 50. split; [reflexivity | lia].
    + destruct Hr as (-> & He' & Hq). cbn [rbind].
      eexists. split; [reflexivity|].
      assert (0 <= Z.shiftl (Z.pos q) e' <= 5000) as Hn.
      { rewrite Z.shiftl_div_pow2 by lia.
        assert (0 < 2 ^ (- e')) by (apply Z.pow_pos_nonneg; lia).
        split; [apply Z.div_pos; lia|].
        apply Z.div_le_upper_bound; lia. }
      lia.
Qed.

End RoundingUp.

(** ** The per-minute sample, for every density *)

Section Sample.

Context {L : Libm} {G : Generator}.


End Sample.



(** ** Bytes sent *)

Section Bytes.

Context {L : Libm} {G : Generator}.

(** In every row of a returned dataset whose request count is at most
    2^42, [bytes_sent >= 2000 * requests], hence [bytes_sent > 0]: the
    per-request draw is [max(2000.0, _)], and neither the binary64 product
    with [float(requests)] nor the truncation by [int] goes below the exact
    integer [2000 * requests], which is below 2^53. *)
Theorem bytes_sent_floor a rows :
  generate_minute_logs a = Ok rows ->
  Forall (fun r => Row.requests r <= 2 ^ 42 ->
                   2000 * Row.requests r <= Row.bytes_sent r
                   /\ 0 < Row.bytes_sent r) rows.
Proof.
  apply every_row. intros ts sl r t _ Ht Hsmall.
  unfold explains in Ht.
  destruct (t_buckets t) as [[[http_2xx http_3xx] http_4xx] http_5xx].
  destruct Ht as (Hpos & Hbytes & _).
  assert (2000 * Row.requests r <= Row.bytes_sent r) as Hfloor
    by (apply (py_int_mul_lower _ (t_xb t)); [lia | exact Hbytes]).
  split; [exact Hfloor | lia].
Qed.

(** C10. Behind every row of a returned dataset there is a per-request byte
    draw [xb] with [bytes_sent = int(requests * max(2000.0, xb))]: the draw
    is floored at 2000.0 before it is multiplied by the request count and
    truncated. Where the request count is at most 2^42, as a Poisson count
    at the generator's rates is, [bytes_sent >= 2000 * requests] and so
    [bytes_sent > 0]. *)
Theorem bytes_sent_per_request_floor a rows :
  generate_minute_logs a = Ok rows ->
  Forall (fun r =>
            (exists xb,
                py_int (Z2F (Row.requests r) * fmax 2000.0 xb)%float
                = Ok (Row.bytes_sent r))
            /\ (Row.requests r <= 2 ^ 42 ->
                2000 * Row.requests r <= Row.bytes_sent r
                /\ 0 < Row.bytes_sent r)) rows.
Proof.
  apply every_row. intros ts sl r t _ Ht.
  unfold explains in Ht.
  destruct (t_buckets t) as [[[http_2xx http_3xx] http_4xx] http_5xx].
  destruct Ht as (Hpos & Hbytes & _).
  split; [exists (t_xb t); exact Hbytes|].
  intros Hsmall.
  assert (2000 * Row.requests r <= Row.bytes_sent r) as Hfloor
    by (apply (py_int_mul_lower _ (t_xb t)); [lia | exact Hbytes]).
  split; [exact Hfloor | lia].
Qed.

End Bytes.

Lemma bytes_sent_floor_witness :
  Forall (fun r => Row.requests r <= 2 ^ 42 ->
                   2000 * Row.requests r <= Row.bytes_sent r
                   /\ 0 < Row.bytes_sent r) Scenario.one_minute_rows
  /\ Forall (fun r => Row.requests r <= 2 ^ 42) Scenario.one_minute_rows.
Proof.
  split.
  - apply (@bytes_sent_floor Replay.libm (Replay.generator false)
             Scenario.one_minute Scenario.one_minute_rows).
    vm_compute. reflexivity.
  - repeat constructor; discriminate.
Defined.

Lemma bytes_sent_per_request_floor_witness :
  Forall (fun r => Row.requests r <= 2 ^ 42 ->
                   2000 * Row.requests r <= Row.bytes_sent r
                   /\ 0 < Row.bytes_sent r) Scenario.overloaded_rows
  /\ Forall (fun r => Row.requests r <= 2 ^ 42) Scenario.overloaded_rows.
Proof.
  split.
  - eapply Forall_impl;
      [|apply (@bytes_sent_per_request_floor Replay.libm (Replay.generator false)
                 Scenario.overloaded Scenario.overloaded_rows);
        vm_compute; reflexivity].
    intros r (_ & H). exact H.
  - repeat constructor; discriminate.
Defined.

(** Why the bound on [requests]: from 2^53 on, [float(requests)] itself
    rounds, and the product can fall short of [2000 * requests]. No Poisson
    count at the generator's rates comes near. *)
Example bytes_sent_beyond_2_53 :
  py_int (Z2F (2 ^ 53 + 1) * fmax 2000 2000)%float = Ok (2000 * 2 ^ 53).
Proof. vm_compute. reflexivity. Qed.

(** * Further properties of the generator *)

(** ** The draws behind a row *)

Section Draws.

Context {L : Libm} {G : Generator}.

(** What the generator returned for one slice-minute, in draw order. *)
Record Draws : Type := mkDraws {
  d_requests : Z;
  d_cache : float;
  d_x50 : float;
  d_f95 : float;
  d_f99 : float;
  d_xb : float;
  d_500 : Z;
  d_502 : Z;
  d_503 : Z;
  d_504 : Z;
  d_crc : Z
}.

(** The locals entering the incident loop. *)
Definition locals_of_draws (d : Draws) : Locals.t :=
  Locals.mk (_clamp (d_cache d) 0.05 0.99)
            (fmax 5.0 (d_x50 d))
            (fmax 5.0 (d_x50 d) * d_f95 d)%float
            (fmax 5.0 (d_x50 d) * d_f99 d)%float
            (d_503 d) (d_504 d) (d_crc d).

(** [row_from_draws ... r d v]: the row [r] is what the slice-minute body
    assembles from the draws [d] and the locals [v] the incident loop
    returned. *)
Definition row_from_draws (seed : Z) (incidents : list Incident.t)
    (ts : Datetime.datetime) (sl : Slice.t) (r : Row.t) (d : Draws)
    (v : Locals.t) : Prop :=
  0 < d_requests d < 2 ^ 63
  /\ 0 <= d_500 d <= d_requests d
  /\ 0 <= d_502 d <= d_requests d
  /\ 0 <= d_503 d <= d_requests d
  /\ 0 <= d_504 d <= d_requests d
  /\ 0 <= d_crc d
  /\ py_int (Z2F (d_requests d) * fmax 2000.0 (d_xb d))%float = Ok (Row.bytes_sent r)
  /\ apply_incidents incidents ts sl (d_requests d)
       (Z2F (Row.bytes_sent r) / 1e6)%float (locals_of_draws d) = Ok v
  /\ (exists gb gb',
        bucket_counts (Slice.service sl) (Slice.ctype sl) (d_requests d)
          (d_500 d) (d_502 d) (Locals.status_503 v) (Locals.status_504 v) gb
        = Ok ((Row.http_2xx_count r, Row.http_3xx_count r,
               Row.http_4xx_count r, Row.http_5xx_count r), gb'))
  /\ r = Row.mk seed ts (Slice.partner sl) (Slice.service sl) (Slice.region sl)
           (Slice.pop sl) (Slice.host sl) (Slice.ctype sl) (Slice.ua_family sl)
           (d_requests d) (Row.bytes_sent r)
           (Locals.p50 v)
           (fmax (Locals.p95 v) (Locals.p50 v))
           (fmax (Locals.p99 v) (fmax (Locals.p95 v) (Locals.p50 v)))
           (Locals.cache_hit v)
           (Row.http_2xx_count r) (Row.http_3xx_count r)
           (Row.http_4xx_count r) (Row.http_5xx_count r)
           (d_500 d) (d_502 d)
           (Locals.status_503 v) (Locals.status_504 v)
           (Locals.crc_errors v).

Lemma slice_minute_draws seed incidents ts mult sl g r g' :
  slice_minute seed incidents ts mult sl g = Ok (Some r, g') ->
  exists d v, row_from_draws seed incidents ts sl r d v.
Proof.
  unfold slice_minute. intros H.
  apply bind_Ok_inv in H as (requests & g0 & Hreq & H).
  apply draw_Ok_inv in Hreq as (Hreq & _).
  pose proof (draw_poisson_range
                (arrival_rate (Slice.service sl) (Slice.ctype sl) (Slice.region sl) mult) g)
    as Hrange.
  rewrite <- Hreq in Hrange.
  destruct (requests =? 0) eqn:Hz.
  { apply ret_Ok_inv in H as (H & _). discriminate. }
  apply Z.eqb_neq in Hz.
  assert (0 <= requests) as Hreq0 by lia.
  apply bind_Ok_inv in H as (c & g1 & _ & H).
  apply bind_Ok_inv in H as (x50 & g2 & _ & H).
  apply bind_Ok_inv in H as (f95 & g3 & _ & H).
  apply bind_Ok_inv in H as (f99 & g4 & _ & H).
  apply bind_Ok_inv in H as (xb & g5 & _ & H).
  apply bind_Ok_inv in H as (bytes_sent & g6 & Hbytes & H).
  apply lift_Ok_inv in Hbytes as (Hbytes & _).
  apply bind_Ok_inv in H as (s500 & g7 & H500 & H).
  apply bind_Ok_inv in H as (s502 & g8 & H502 & H).
  apply bind_Ok_inv in H as (s503 & g9 & H503 & H).
  apply bind_Ok_inv in H as (s504 & g10 & H504 & H).
  apply draw_Ok_inv in H500 as (H500 & _).
  apply draw_Ok_inv in H502 as (H502 & _).
  apply draw_Ok_inv in H503 as (H503 & _).
  apply draw_Ok_inv in H504 as (H504 & _).
  match type of H500 with _ = fst (draw_binomial _ ?p ?g) =>
    pose proof (draw_binomial_range requests p g Hreq0) as R500 end.
  match type of H502 with _ = fst (draw_binomial _ ?p ?g) =>
    pose proof (draw_binomial_range requests p g Hreq0) as R502 end.
  match type of H503 with _ = fst (draw_binomial _ ?p ?g) =>
    pose proof (draw_binomial_range requests p g Hreq0) as R503 end.
  match type of H504 with _ = fst (draw_binomial _ ?p ?g) =>
    pose proof (draw_binomial_range requests p g Hreq0) as R504 end.
  rewrite <- H500 in R500. rewrite <- H502 in R502.
  rewrite <- H503 in R503. rewrite <- H504 in R504.
  clear H500 H502 H503 H504.
  apply bind_Ok_inv in H as (crc & g11 & Hcrc & H).
  apply draw_Ok_inv in Hcrc as (Hcrc & _).
  match type of Hcrc with _ = fst (draw_poisson ?lam ?g) =>
    pose proof (draw_poisson_range lam g) as Rcrc end.
  rewrite <- Hcrc in Rcrc. clear Hcrc.
  apply bind_Ok_inv in H as (v & g12 & Hinc & H).
  apply lift_Ok_inv in Hinc as (Hinc & ->).
  apply bind_Ok_inv in H as (b & g13 & Hb & H).
  destruct b as [[[http_2xx http_3xx] http_4xx] http_5xx].
  apply ret_Ok_inv in H as (H & _).
  inversion H as [Hr]. clear H.
  exists (mkDraws requests c x50 f95 f99 xb s500 s502 s503 s504 crc), v.
  unfold row_from_draws, locals_of_draws.
  cbn [d_requests d_cache d_x50 d_f95 d_f99 d_xb d_500 d_502 d_503 d_504 d_crc
       Row.bytes_sent Row.http_2xx_count Row.http_3xx_count Row.http_4xx_count
       Row.http_5xx_count].
  repeat match goal with |- _ /\ _ => split end;
    try lia; try reflexivity; try assumption.
  exists g11, g13. exact Hb.
Qed.

End Draws.

(** ** Where a row comes from *)

Section Provenance.

Context {L : Libm} {G : Generator}.

Lemma rng_choice_In {A} (a : list A) g x g' :
  rng_choice a g = Ok (x, g') -> In x a.
Proof.
  destruct a as [|d a']; [discriminate|].
  unfold rng_choice. intros H.
  apply bind_Ok_inv in H as (i & g1 & Hi & H).
  apply draw_Ok_inv in Hi as (Hi & _).
  apply ret_Ok_inv in H as (-> & _).
  apply nth_In. rewrite Hi. apply draw_index_lt. cbn. lia.
Qed.

(** The seven catalogs a call draws its slices from: the numbered partner,
    pop and host names, and the four lists that fall back to the schema's
    defaults when the argument is [None] or empty. *)
Definition in_catalogs (a : Args) (sl : Slice.t) : Prop :=
  In (Slice.partner sl) (numbered "partner_" 2 (n_partners a))
  /\ In (Slice.service sl) (py_or (services a) Schema.DEFAULT_SERVICES)
  /\ In (Slice.region sl) (py_or (regions a) Schema.DEFAULT_REGIONS)
  /\ In (Slice.pop sl) (numbered "pop_" 3 (n_pops a))
  /\ In (Slice.host sl) (numbered "host_" 4 (n_hosts a))
  /\ In (Slice.ctype sl) (py_or (content_types a) Schema.DEFAULT_CONTENT_TYPES)
  /\ In (Slice.ua_family sl) (py_or (ua_families a) Schema.DEFAULT_UA_FAMILIES).

Lemma build_pool_inv n partners services regions pops hosts content_types ua_families :
  forall g pool g',
    build_pool n partners services regions pops hosts content_types ua_families g
    = Ok (pool, g') ->
    List.length pool = n
    /\ Forall (fun sl =>
                 In (Slice.partner sl) partners /\ In (Slice.service sl) services
                 /\ In (Slice.region sl) regions /\ In (Slice.pop sl) pops
                 /\ In (Slice.host sl) hosts /\ In (Slice.ctype sl) content_types
                 /\ In (Slice.ua_family sl) ua_families) pool.
Proof.
  induction n as [|n IH]; intros g pool g' H; cbn [build_pool] in H.
  - apply ret_Ok_inv in H as (-> & _). split; [reflexivity | constructor].
  - apply bind_Ok_inv in H as (x1 & g1 & H1 & H).
    apply bind_Ok_inv in H as (x2 & g2 & H2 & H).
    apply bind_Ok_inv in H as (x3 & g3 & H3 & H).
    apply bind_Ok_inv in H as (x4 & g4 & H4 & H).
    apply bind_Ok_inv in H as (x5 & g5 & H5 & H).
    apply bind_Ok_inv in H as (x6 & g6 & H6 & H).
    apply bind_Ok_inv in H as (x7 & g7 & H7 & H).
    apply bind_Ok_inv in H as (rest & g8 & Hrest & H).
    apply ret_Ok_inv in H as (-> & _).
    destruct (IH _ _ _ Hrest) as (Hlen & Hall).
    split; [cbn; now rewrite Hlen|].
    constructor; [|exact Hall].
    cbn. repeat split; eapply rng_choice_In; eassumption.
Qed.

Lemma minute_sample_inv pool density g idxs g' :
  minute_sample pool density g = Ok (idxs, g') ->
  exists k,
    sample_size (List.length pool) density = Ok k
    /\ 50 <= k <= Z.of_nat (List.length pool)
    /\ List.length idxs = Z.to_nat k
    /\ NoDup idxs
    /\ Forall (fun i => (i < List.length pool)%nat) idxs.
Proof.
  unfold minute_sample. intros H.
  apply bind_Ok_inv in H as (k & g1 & Hk & H).
  apply lift_Ok_inv in Hk as (Hk & ->).
  unfold rng_choice_distinct in H.
  destruct ((k <? - 2 ^ 63) || (2 ^ 63 <=? k)); [discriminate|].
  destruct ((Z.of_nat (List.length pool) <? k) || (k <? 0)) eqn:Hbig;
    [discriminate|].
  apply orb_false_iff in Hbig as (Hle & _). apply Z.ltb_ge in Hle.
  apply draw_Ok_inv in H as (H & _).
  assert (50 <= k) as H50.
  { unfold sample_size in Hk. apply rbind_Ok_inv in Hk as (n & _ & Hk).
    inversion Hk. lia. }
  assert (Z.to_nat k <= List.length pool)%nat as Hnat by lia.
  exists k. rewrite H. repeat split; try assumption; try lia.
  - now apply draw_sample_length.
  - now apply draw_sample_NoDup.
  - apply Forall_forall. intros i Hi. now apply (draw_sample_lt _ _ g i Hnat).
Qed.

(** The rows one minute appended: each from a slice of the pool, at that
    minute's timestamp. *)
Definition minute_group (seed : Z) (incidents : list Incident.t)
    (ts0 : Datetime.datetime) (pool : list Slice.t) (m : Z)
    (group : list Row.t) : Prop :=
  Forall (fun r => exists sl d v,
            In sl pool
            /\ row_from_draws seed incidents (Datetime.add_minutes ts0 m) sl r d v)
         group.

Lemma slice_loop_inv seed incidents ts mult pool idxs :
  forall g rows g',
    slice_loop seed incidents ts mult pool idxs g = Ok (rows, g') ->
    (List.length rows <= List.length idxs)%nat
    /\ Forall (fun r => exists sl d v,
                 In sl pool /\ row_from_draws seed incidents ts sl r d v) rows.
Proof.
  induction idxs as [|idx idxs IH]; intros g rows g' H; cbn [slice_loop] in H.
  - apply ret_Ok_inv in H as (-> & _). split; [cbn; lia | constructor].
  - apply bind_Ok_inv in H as (sl & g1 & Hsl & H).
    apply lift_Ok_inv in Hsl as (Hsl & ->).
    apply bind_Ok_inv in H as (r & g2 & Hr & H).
    apply bind_Ok_inv in H as (rest & g3 & Hrest & H).
    apply ret_Ok_inv in H as (-> & _).
    destruct (IH _ _ _ Hrest) as (Hlen & Hall).
    destruct (nth_error pool idx) as [sl'|] eqn:E; [|discriminate].
    inversion Hsl; subst sl'. apply nth_error_In in E.
    destruct r as [row|].
    + split; [cbn; lia|]. constructor; [|exact Hall].
      destruct (slice_minute_draws _ _ _ _ _ _ _ _ Hr) as (d & v & Hd).
      now exists sl, d, v.
    + split; [cbn; lia | exact Hall].
Qed.

Lemma minute_loop_inv seed incidents ts0 density pool ms :
  forall g rows g',
    minute_loop seed incidents ts0 density pool ms g = Ok (rows, g') ->
    exists groups,
      rows = List.concat groups
      /\ Forall2 (fun m group =>
                    minute_group seed incidents ts0 pool m group
                    /\ exists k, sample_size (List.length pool) density = Ok k
                                 /\ 50 <= k <= Z.of_nat (List.length pool)
                                 /\ (List.length group <= Z.to_nat k)%nat)
                 ms groups.
Proof.
  induction ms as [|m ms IH]; intros g rows g' H; cbn [minute_loop] in H.
  - apply ret_Ok_inv in H as (-> & _). exists []. split; [reflexivity | constructor].
  - apply bind_Ok_inv in H as (group & g1 & Hgroup & H).
    apply bind_Ok_inv in H as (rest & g2 & Hrest & H).
    apply ret_Ok_inv in H as (-> & _).
    destruct (IH _ _ _ Hrest) as (groups & -> & Hall).
    exists (group :: groups). split; [reflexivity|].
    constructor; [|exact Hall].
    unfold minute_rows in Hgroup.
    apply bind_Ok_inv in Hgroup as (idxs & g3 & Hidxs & Hgroup).
    apply minute_sample_inv in Hidxs as (k & Hk & Hrange & Hlen & _ & _).
    apply slice_loop_inv in Hgroup as (Hle & Hfrom).
    split; [exact Hfrom|].
    exists k. repeat split; try assumption; try lia.
Qed.

(** A returned dataset is the concatenation, minute by minute, of the rows
    each minute appended; all minutes draw from one pool of [POOL_SIZE]
    slices taken from the catalogs. *)
Lemma generate_inv a rows :
  generate_minute_logs a = Ok rows ->
  exists pool groups,
    List.length pool = POOL_SIZE
    /\ Forall (in_catalogs a) pool
    /\ rows = List.concat groups
    /\ Forall2 (fun m group =>
                  minute_group (seed a) (incidents_of a)
                    (_utc_minute_floor (start_ts_utc a)) pool m group
                  /\ exists k, sample_size POOL_SIZE (density a) = Ok k
                               /\ 50 <= k <= 5000
                               /\ (List.length group <= Z.to_nat k)%nat)
               (range (minutes a)) groups.
Proof.
  unfold generate_minute_logs. destruct (seed a <? 0); [discriminate|].
  destruct (generate_body a (seed_bitgen (seed a))) as [[rows' g']|e] eqn:E;
    [|discriminate].
  intros H. inversion H; subst rows'. clear H.
  unfold generate_body in E.
  apply bind_Ok_inv in E as (pool & g1 & Hpool & E).
  apply build_pool_inv in Hpool as (Hlen & Hcat).
  apply minute_loop_inv in E as (groups & -> & Hall).
  exists pool, groups. rewrite Hlen, POOL_SIZE_Z in Hall.
  repeat split; try assumption.
Qed.

End Provenance.

(** ** Every row, with its minute, slice and draws *)

Section RowsWithDraws.

Context {L : Libm} {G : Generator}.

Lemma Forall2_In_right {A B} (R : A -> B -> Prop) l1 l2 y :
  Forall2 R l1 l2 -> In y l2 -> exists x, In x l1 /\ R x y.
Proof.
  induction 1 as [|x y' l1 l2 Hxy _ IH]; intros Hin; [contradiction|].
  destruct Hin as [->|Hin].
  - exists x. split; [now left | exact Hxy].
  - destruct (IH Hin) as (x' & Hx' & HR). exists x'. split; [now right | exact HR].
Qed.

Lemma every_row_with_draws (P : Row.t -> Prop) a rows :
  (forall m sl r d v,
      In m (range (minutes a)) ->
      in_catalogs a sl ->
      row_from_draws (seed a) (incidents_of a)
        (Datetime.add_minutes (_utc_minute_floor (start_ts_utc a)) m) sl r d v ->
      P r) ->
  generate_minute_logs a = Ok rows ->
  Forall P rows.
Proof.
  intros HP Hrun.
  apply generate_inv in Hrun as (pool & groups & _ & Hcat & -> & Hall).
  apply Forall_forall. intros r Hr.
  apply in_concat in Hr as (group & Hgroup & Hr).
  destruct (Forall2_In_right _ _ _ _ Hall Hgroup) as (m & Hm & Hfrom & _).
  unfold minute_group in Hfrom. rewrite Forall_forall in Hfrom.
  destruct (Hfrom r Hr) as (sl & d & v & Hsl & Hd).
  rewrite Forall_forall in Hcat.
  exact (HP m sl r d v Hm (Hcat sl Hsl) Hd).
Qed.

Lemma range_In n m : In m (range n) <-> 0 <= m < n.
Proof.
  unfold range. rewrite in_map_iff. split.
  - intros (i & <- & Hi). apply in_seq in Hi. lia.
  - intros Hm. exists (Z.to_nat m). split; [lia|]. apply in_seq. lia.
Qed.

End RowsWithDraws.

(** ** The re-clamp of the latency percentiles *)

Section Latency.

Context {L : Libm} {G : Generator}.


End Latency.


(** ** [_clamp] and the cache-hit rate *)

Section Clamp.

Lemma clamp_bounds (x lo hi : float) :
  (lo <=? hi)%float = true ->
  (lo <=? _clamp x lo hi)%float = true /\ (_clamp x lo hi <=? hi)%float = true.
Proof.
  intros Hle. destruct (leb_not_nan _ _ Hle) as (Nlo & Nhi).
  unfold _clamp, fmin, fmax.
  destruct (x <? hi)%float eqn:Exh.
  - destruct (lo <? x)%float eqn:Elx.
    + split; now apply ltb_leb.
    + split; [now apply leb_refl | exact Hle].
  - destruct (lo <? hi)%float eqn:Elh.
    + split; [exact Hle | now apply leb_refl].
    + split; [now apply leb_refl | exact Hle].
Qed.

(** [_clamp(x, lo, hi)] for bounds in order lands in [[lo, hi]] for every
    [x], NaN and infinities included; a NaN [x] gives [hi]; a value already
    in range is returned as it is. *)
Theorem clamp_within_bounds (x lo hi : float) :
  (lo <=? hi)%float = true ->
  ((lo <=? _clamp x lo hi)%float = true /\ (_clamp x lo hi <=? hi)%float = true)
  /\ (is_nan x = true -> _clamp x lo hi = fmax lo hi)
  /\ ((lo <? x)%float = true -> (x <? hi)%float = true -> _clamp x lo hi = x).
Proof.
  intros Hle. split; [now apply clamp_bounds|].
  unfold _clamp, fmin, fmax. split.
  - intros Hnan. destruct (x <? hi)%float eqn:Exh; [|reflexivity].
    apply ltb_not_nan in Exh. destruct Exh. congruence.
  - intros Hlx Hxh. now rewrite Hxh, Hlx.
Qed.

Lemma clamp_within_bounds_witness :
  _clamp nan 0.05 0.99 = 0.99%float
  /\ _clamp neg_infinity 0.05 0.99 = 0.05%float
  /\ _clamp 0.5 0.05 0.99 = 0.5%float.
Proof.
  destruct (clamp_within_bounds nan 0.05 0.99 eq_refl) as (_ & Hnan & _).
  destruct (clamp_within_bounds 0.5 0.05 0.99 eq_refl) as (_ & _ & Hin).
  split; [|split].
  - rewrite Hnan; reflexivity.
  - reflexivity.
  - apply Hin; reflexivity.
Defined.

(** Above 0.05 is above 0.01. *)
Lemma above_floor_005 x : (0.05 <=? x)%float = true -> (0.01 <=? x)%float = true.
Proof.
  rewrite !leb_spec.
  change (Prim2SF 0.05) with (S754_finite false 7205759403792794 (-57)).
  change (Prim2SF 0.01) with (S754_finite false 5764607523034235 (-59)).
  destruct (Prim2SF x) as [s|s| |s m e]; unfold SFleb, SFcompare;
    try discriminate.
  - destruct s; congruence.
  - destruct s; [discriminate|].
    destruct (Z.compare_spec (-57) e) as [E|E|E]; try discriminate; intros _.
    + subst e. reflexivity.
    + destruct (Z.compare_spec (-59) e) as [E'|E'|E']; try reflexivity; lia.
Qed.

Definition cache_hit_in_range (c : float) : Prop :=
  (0.01 <=? c)%float = true /\ (c <=? 0.99)%float = true.

Lemma mutate_cache_hit kind inten requests mb v v' :
  cache_hit_in_range (Locals.cache_hit v) ->
  mutate kind inten requests mb v = Ok v' ->
  cache_hit_in_range (Locals.cache_hit v').
Proof.
  intros Hv. unfold mutate.
  destruct (String.eqb kind "latency");
    [intros H; inversion H; subst; exact Hv|].
  destruct (String.eqb kind "cache_collapse").
  { intros H. inversion H. cbn [Locals.cache_hit].
    now apply clamp_bounds. }
  destruct (String.eqb kind "origin_overload").
  { intros H. apply rbind_Ok_inv in H as (d & _ & H).
    inversion H; subst; exact Hv. }
  destruct (String.eqb kind "timeouts").
  { intros H. apply rbind_Ok_inv in H as (d & _ & H).
    inversion H; subst; exact Hv. }
  destruct (String.eqb kind "crc_spike").
  { intros H. apply rbind_Ok_inv in H as (d & _ & H).
    inversion H; subst; exact Hv. }
  intros H. inversion H; subst; exact Hv.
Qed.

(** An invariant of the locals that every [mutate] keeps is kept by the loop. *)
Lemma apply_incidents_invariant (P : Locals.t -> Prop) requests mb :
  (forall kind inten v v', P v -> mutate kind inten requests mb v = Ok v' -> P v') ->
  forall incidents ts sl v v',
    P v -> apply_incidents incidents ts sl requests mb v = Ok v' -> P v'.
Proof.
  intros Hstep incidents.
  induction incidents as [|inc rest IH]; intros ts sl v v' Hv H.
  - inversion H. now subst.
  - cbn [apply_incidents] in H. apply rbind_Ok_inv in H as (w & _ & H).
    destruct (negb w); [now apply (IH ts sl v v')|].
    destruct (negb (slice_matches inc sl)); [now apply (IH ts sl v v')|].
    apply rbind_Ok_inv in H as (v1 & Hm & H).
    apply (IH ts sl v1 v'); [|exact H].
    exact (Hstep _ _ v v1 Hv Hm).
Qed.

Context {L : Libm} {G : Generator}.

Lemma initial_cache_hit (d : Draws) :
  cache_hit_in_range (Locals.cache_hit (locals_of_draws d)).
Proof.
  unfold locals_of_draws. cbn [Locals.cache_hit].
  destruct (clamp_bounds (d_cache d) 0.05 0.99 eq_refl) as (H1 & H2).
  split; [now apply above_floor_005 | exact H2].
Qed.

(** In every row of a returned dataset, [0.01 <= cache_hit_rate <= 0.99];
    in particular it is never NaN, whatever the Normal draw and the
    incidents' intensities were. *)
Theorem cache_hit_rate_bounded a rows :
  generate_minute_logs a = Ok rows ->
  Forall (fun r => cache_hit_in_range (Row.cache_hit_rate r)
                   /\ is_nan (Row.cache_hit_rate r) = false) rows.
Proof.
  apply every_row_with_draws. intros m sl r d v _ _ Hd.
  destruct Hd as (_ & _ & _ & _ & _ & _ & _ & Hinc & _ & Hr).
  assert (cache_hit_in_range (Locals.cache_hit v)) as Hv.
  { apply (apply_incidents_invariant
             (fun v => cache_hit_in_range (Locals.cache_hit v))
             (d_requests d) (Z2F (Row.bytes_sent r) / 1e6)%float
             (fun kind inten v v' => mutate_cache_hit kind inten _ _ v v')
             _ _ _ _ _ (initial_cache_hit d) Hinc). }
  rewrite Hr. cbn [Row.cache_hit_rate].
  split; [exact Hv|]. destruct Hv as (_ & H99). now apply leb_not_nan in H99.
Qed.

End Clamp.

Lemma cache_hit_rate_bounded_witness :
  Forall (fun r => cache_hit_in_range (Row.cache_hit_rate r)
                   /\ is_nan (Row.cache_hit_rate r) = false)
    Scenario.overloaded_rows.
Proof.
  apply (@cache_hit_rate_bounded Replay.libm (Replay.generator false)
           Scenario.overloaded Scenario.overloaded_rows).
  vm_compute. reflexivity.
Defined.

(** ** Timestamps, dimensions and size of a dataset *)

From Stdlib Require Import Sorted.

Section Layout.

Context {L : Libm} {G : Generator}.

Lemma floor_minute_aligned (x : Z) : (x - x mod 60000000) mod 60000000 = 0.
Proof.
  assert (x - x mod 60000000 = 60000000 * (x / 60000000)) as ->
    by (pose proof (Z.div_mod x 60000000 ltac:(lia)); lia).
  rewrite Z.mul_comm. apply Z.mod_mul. lia.
Qed.

(** [_utc_minute_floor]: a timezone-aware datetime on a whole minute, at
    most one minute before its argument; flooring again changes nothing. *)
Theorem utc_minute_floor_spec (dt : Datetime.datetime) :
  let f := _utc_minute_floor dt in
  Datetime.tzaware f = true
  /\ Datetime.instant_us f mod 60000000 = 0
  /\ Datetime.instant_us f <= Datetime.instant_us dt < Datetime.instant_us f + 60000000
  /\ _utc_minute_floor f = f.
Proof.
  cbv zeta. unfold _utc_minute_floor, _ensure_utc, Datetime.floor_minute.
  cbn [Datetime.instant_us Datetime.tzaware].
  set (x := Datetime.instant_us dt).
  pose proof (Z.mod_pos_bound x 60000000 ltac:(lia)) as Hmod.
  pose proof (floor_minute_aligned x) as Hzero.
  repeat split; try lia.
  rewrite Hzero, Z.sub_0_r. reflexivity.
Qed.

Lemma row_fields seed incidents ts sl r d v :
  row_from_draws seed incidents ts sl r d v ->
  Row.seed r = seed /\ Row.ts r = ts
  /\ Row.partner r = Slice.partner sl /\ Row.service r = Slice.service sl
  /\ Row.region r = Slice.region sl /\ Row.pop r = Slice.pop sl
  /\ Row.host r = Slice.host sl /\ Row.content_type r = Slice.ctype sl
  /\ Row.ua_family r = Slice.ua_family sl
  /\ Row.requests r = d_requests d.
Proof.
  intros (_ & _ & _ & _ & _ & _ & _ & _ & _ & Hr).
  rewrite Hr. cbn. repeat split; reflexivity.
Qed.

Definition ts_le (r r' : Row.t) : Prop :=
  Datetime.instant_us (Row.ts r) <= Datetime.instant_us (Row.ts r').

Lemma StronglySorted_app {A} (R : A -> A -> Prop) l1 l2 :
  StronglySorted R l1 -> StronglySorted R l2 ->
  (forall x y, In x l1 -> In y l2 -> R x y) ->
  StronglySorted R (l1 ++ l2).
Proof.
  induction 1 as [|x l1 Hs IH Hx]; intros H2 Hcross; [exact H2|].
  cbn. constructor.
  - apply IH; [exact H2|]. intros a b Ha Hb. apply Hcross; [now right | exact Hb].
  - apply Forall_app. split; [exact Hx|].
    apply Forall_forall. intros y Hy. apply Hcross; [now left | exact Hy].
Qed.

Lemma same_key_sorted (key : Z) (group : list Row.t) :
  Forall (fun r => Datetime.instant_us (Row.ts r) = key) group ->
  StronglySorted ts_le group.
Proof.
  induction 1 as [|r group Hr Hall IH]; constructor; [exact IH|].
  eapply Forall_impl; [|exact Hall]. intros r' Hr'. unfold ts_le.
  cbn beta in *. lia.
Qed.

Lemma range_sorted n : StronglySorted Z.lt (range n).
Proof.
  unfold range. generalize 0%nat as s. generalize (Z.to_nat n) as k.
  induction k as [|k IH]; intros s; cbn; constructor; [apply IH|].
  apply Forall_forall. intros m Hm. apply in_map_iff in Hm as (i & <- & Hi).
  apply in_seq in Hi. lia.
Qed.

Lemma groups_sorted (key : Z -> Z) ms groups :
  (forall m m', m < m' -> key m <= key m') ->
  StronglySorted Z.lt ms ->
  Forall2 (fun m group =>
             Forall (fun r => Datetime.instant_us (Row.ts r) = key m) group)
          ms groups ->
  StronglySorted ts_le (List.concat groups).
Proof.
  intros Hmono Hms Hall. revert Hms.
  induction Hall as [|m group ms groups Hgroup Hrest IH]; intros Hms; cbn;
    [constructor|].
  inversion Hms as [|? ? Hms' Hlt]; subst.
  apply StronglySorted_app.
  - now apply (same_key_sorted (key m)).
  - now apply IH.
  - intros x y Hx Hy. rewrite Forall_forall in Hgroup.
    apply in_concat in Hy as (group' & Hg' & Hy).
    destruct (Forall2_In_right _ _ _ _ Hrest Hg') as (m' & Hm' & Hgroup').
    rewrite Forall_forall in Hgroup', Hlt.
    unfold ts_le. rewrite (Hgroup x Hx), (Hgroup' y Hy).
    apply Hmono. now apply Hlt.
Qed.

(** Every row of a returned dataset carries the timestamp of one of the
    call's minutes - the floored start plus [m] minutes for some
    [0 <= m < minutes], timezone-aware and on a whole minute - and the rows
    come in non-decreasing timestamp order. *)
Theorem rows_by_minute a rows :
  generate_minute_logs a = Ok rows ->
  let ts0 := _utc_minute_floor (start_ts_utc a) in
  Forall (fun r => exists m,
            0 <= m < minutes a
            /\ Row.ts r = Datetime.add_minutes ts0 m
            /\ Datetime.tzaware (Row.ts r) = true
            /\ Datetime.instant_us (Row.ts r) mod 60000000 = 0) rows
  /\ StronglySorted ts_le rows.
Proof.
  intros Hrun ts0. split.
  - revert Hrun. apply every_row_with_draws. intros m sl r d v Hm _ Hd.
    apply row_fields in Hd as (_ & Hts & _).
    apply range_In in Hm. exists m. rewrite Hts.
    repeat split; try lia.
    pose proof (floor_minute_aligned (Datetime.instant_us (start_ts_utc a))) as Hzero.
    unfold Datetime.add_minutes, _utc_minute_floor, _ensure_utc, Datetime.floor_minute.
    cbn [Datetime.instant_us].
    rewrite Z.add_mod, Hzero, Z.mod_mul by lia. reflexivity.
  - apply generate_inv in Hrun as (pool & groups & _ & _ & -> & Hall).
    apply (groups_sorted
             (fun m => Datetime.instant_us (Datetime.add_minutes ts0 m))
             (range (minutes a))).
    + intros m m' Hlt. cbn. lia.
    + apply range_sorted.
    + eapply Forall2_impl; [|exact Hall].
      intros m group (Hgroup & _). unfold minute_group in Hgroup.
      eapply Forall_impl; [|exact Hgroup].
      intros r (sl & d & v & _ & Hd).
      apply row_fields in Hd as (_ & Hts & _). now rewrite Hts.
Qed.

(** Every row's seven dimension values are entries of the call's catalogs
    (the numbered partner, pop and host names; the service, region,
    content-type and user-agent lists, or the schema's defaults where the
    argument is missing or empty), and its [seed] column is the call's seed. *)
Theorem row_dimensions_from_catalogs a rows :
  generate_minute_logs a = Ok rows ->
  Forall (fun r =>
            Row.seed r = seed a
            /\ In (Row.partner r) (numbered "partner_" 2 (n_partners a))
            /\ In (Row.service r) (py_or (services a) Schema.DEFAULT_SERVICES)
            /\ In (Row.region r) (py_or (regions a) Schema.DEFAULT_REGIONS)
            /\ In (Row.pop r) (numbered "pop_" 3 (n_pops a))
            /\ In (Row.host r) (numbered "host_" 4 (n_hosts a))
            /\ In (Row.content_type r)
                 (py_or (content_types a) Schema.DEFAULT_CONTENT_TYPES)
            /\ In (Row.ua_family r)
                 (py_or (ua_families a) Schema.DEFAULT_UA_FAMILIES)) rows.
Proof.
  apply every_row_with_draws. intros m sl r d v _ Hcat Hd.
  apply row_fields in Hd
    as (Hseed & _ & Hp & Hs & Hr & Hpop & Hh & Hc & Hu & _).
  destruct Hcat as (C1 & C2 & C3 & C4 & C5 & C6 & C7).
  rewrite Hseed, Hp, Hs, Hr, Hpop, Hh, Hc, Hu. repeat split; assumption.
Qed.

Lemma concat_length_bound {A} (groups : list (list A)) (k : nat) :
  Forall (fun group => (List.length group <= k)%nat) groups ->
  (List.length (List.concat groups) <= List.length groups * k)%nat.
Proof.
  induction 1 as [|group groups Hg _ IH]; cbn; [lia|].
  rewrite length_app. lia.
Qed.

(** A returned dataset has at most [k] rows per minute,
    [k = max(50, int(5000 * density))], so at most [minutes * k] rows, and
    never more than [minutes * 5000]; for [minutes <= 0] it is empty. *)
Theorem row_count_bounded a rows :
  generate_minute_logs a = Ok rows ->
  (minutes a <= 0 -> rows = [])
  /\ (List.length rows <= Z.to_nat (minutes a) * 5000)%nat
  /\ (forall k, sample_size POOL_SIZE (density a) = Ok k ->
                (List.length rows <= Z.to_nat (minutes a) * Z.to_nat k)%nat).
Proof.
  intros Hrun.
  apply generate_inv in Hrun as (pool & groups & _ & _ & -> & Hall).
  assert (List.length groups = Z.to_nat (minutes a)) as Hlen.
  { rewrite <- (Forall2_length Hall). unfold range.
    now rewrite length_map, length_seq. }
  split; [|split].
  - intros Hneg. destruct groups as [|group groups]; [reflexivity|].
    cbn in Hlen. lia.
  - rewrite <- Hlen. apply concat_length_bound.
    apply Forall_forall. intros group Hgroup.
    destruct (Forall2_In_right _ _ _ _ Hall Hgroup)
      as (m & _ & _ & k & _ & Hk & Hle).
    lia.
  - intros k Hk. rewrite <- Hlen. apply concat_length_bound.
    apply Forall_forall. intros group Hgroup.
    destruct (Forall2_In_right _ _ _ _ Hall Hgroup)
      as (m & _ & _ & k' & Hk' & _ & Hle).
    rewrite Hk in Hk'. inversion Hk'. now subst k'.
Qed.

End Layout.

Lemma rows_by_minute_witness :
  StronglySorted ts_le Scenario.overloaded_rows.
Proof.
  apply (@rows_by_minute Replay.libm (Replay.generator false)
           Scenario.overloaded Scenario.overloaded_rows).
  vm_compute. reflexivity.
Defined.

Lemma row_dimensions_from_catalogs_witness :
  Forall (fun r => In (Row.region r) Schema.DEFAULT_REGIONS
                   /\ In (Row.partner r) (numbered "partner_" 2 6))
    Scenario.one_minute_rows.
Proof.
  pose proof (@row_dimensions_from_catalogs Replay.libm (Replay.generator false)
                Scenario.one_minute Scenario.one_minute_rows) as H.
  eapply Forall_impl; [|apply H; vm_compute; reflexivity].
  intros r (_ & Hp & _ & Hr & _). split; assumption.
Defined.

Lemma row_count_bounded_witness :
  (List.length Scenario.one_minute_rows <= 1 * 50)%nat.
Proof.
  pose proof (@row_count_bounded Replay.libm (Replay.generator false)
                Scenario.one_minute Scenario.one_minute_rows) as H.
  destruct H as (_ & _ & Hk); [vm_compute; reflexivity|].
  apply (Hk 50). vm_compute. reflexivity.
Defined.

(** ** Counts are never negative *)

Section NonNegative.

(** A zero, a positive value, or a NaN: what [int] cannot turn into a
    negative integer. *)
Definition sign_clear (x : spec_float) : Prop :=
  match x with
  | S754_zero _ | S754_nan => True
  | S754_infinity s | S754_finite s _ _ => s = false
  end.

Lemma py_int_sign_clear x z : sign_clear (Prim2SF x) -> py_int x = Ok z -> 0 <= z.
Proof.
  unfold py_int. destruct (Prim2SF x) as [s|s| |s m e]; cbn; intros Hs H;
    try discriminate; inversion H; subst; [lia|].
  apply Z.shiftl_nonneg. lia.
Qed.

Lemma binary_round_aux_sign_clear mx ex lx :
  sign_clear (binary_round_aux prec emax false mx ex lx).
Proof.
  unfold binary_round_aux.
  destruct (shr_fexp prec emax mx ex lx) as [mrs' e'].
  destruct (shr_fexp prec emax _ e' loc_Exact) as [mrs'' e''].
  destruct (shr_m mrs''); try exact I.
  destruct (e'' <=? emax - prec); cbn; reflexivity.
Qed.

Lemma mul_sign_clear x y :
  sign_clear (Prim2SF x) -> sign_clear (Prim2SF y) -> sign_clear (Prim2SF (x * y)).
Proof.
  rewrite mul_spec. unfold SF64mul, SFmul.
  destruct (Prim2SF x) as [sx|sx| |sx mx ex], (Prim2SF y) as [sy|sy| |sy my ey];
    cbn; intros Hx Hy; subst; try exact I; try reflexivity.
  apply binary_round_aux_sign_clear.
Qed.

Lemma Z2F_sign_clear n : 0 <= n < 2 ^ 63 -> sign_clear (Prim2SF (Z2F n)).
Proof.
  intros Hn. unfold Z2F. rewrite Prim2SF_of_Z by exact Hn.
  destruct n as [|p|p]; [exact I| |lia].
  unfold binary_normalize, binary_round.
  destruct (shl_align p 0 _) as [mz ez]. apply binary_round_aux_sign_clear.
Qed.

Lemma fmax_zero_sign_clear y : sign_clear (Prim2SF (fmax 0 y)).
Proof.
  unfold fmax. destruct (0 <? y)%float eqn:E; [|exact I].
  rewrite ltb_spec in E. change (Prim2SF 0) with (S754_zero false) in E.
  unfold SFltb, SFcompare in E.
  destruct (Prim2SF y) as [s|s| |s m e]; cbn; try discriminate;
    destruct s; try discriminate; reflexivity.
Qed.

Lemma clamp_zero_sign_clear x hi : sign_clear (Prim2SF (_clamp x 0 hi)).
Proof. unfold _clamp. apply fmax_zero_sign_clear. Qed.

Definition counts_nonneg (v : Locals.t) : Prop :=
  0 <= Locals.status_503 v /\ 0 <= Locals.status_504 v /\ 0 <= Locals.crc_errors v.

(** An incident only ever adds to a count. *)
Lemma mutate_counts_grow kind inten requests mb v v' :
  0 <= requests < 2 ^ 63 ->
  mutate kind inten requests mb v = Ok v' ->
  Locals.status_503 v <= Locals.status_503 v'
  /\ Locals.status_504 v <= Locals.status_504 v'
  /\ Locals.crc_errors v <= Locals.crc_errors v'.
Proof.
  intros Hreq. unfold mutate.
  destruct (String.eqb kind "latency"); [intros H; inversion H; cbn; lia|].
  destruct (String.eqb kind "cache_collapse"); [intros H; inversion H; cbn; lia|].
  destruct (String.eqb kind "origin_overload").
  { intros H. apply rbind_Ok_inv in H as (d & Hd & H). inversion H; cbn.
    apply py_int_sign_clear in Hd; [lia|].
    apply mul_sign_clear; [now apply Z2F_sign_clear | apply clamp_zero_sign_clear]. }
  destruct (String.eqb kind "timeouts").
  { intros H. apply rbind_Ok_inv in H as (d & Hd & H). inversion H; cbn.
    apply py_int_sign_clear in Hd; [lia|].
    apply mul_sign_clear; [now apply Z2F_sign_clear | apply clamp_zero_sign_clear]. }
  destruct (String.eqb kind "crc_spike").
  { intros H. apply rbind_Ok_inv in H as (d & Hd & H). inversion H; cbn.
    apply py_int_sign_clear in Hd; [lia|]. apply fmax_zero_sign_clear. }
  intros H. inversion H. lia.
Qed.

Context {L : Libm} {G : Generator}.

(** In every row of a returned dataset: [requests > 0]; each of the nine
    counts ([status_500..504], [http_2xx..5xx_count], [crc_errors]) is at
    least 0; and [status_500] and [status_502], which no incident touches,
    are at most [requests]. *)
Theorem counts_nonnegative a rows :
  generate_minute_logs a = Ok rows ->
  Forall (fun r =>
            0 < Row.requests r
            /\ 0 <= Row.status_500 r <= Row.requests r
            /\ 0 <= Row.status_502 r <= Row.requests r
            /\ 0 <= Row.status_503 r /\ 0 <= Row.status_504 r
            /\ 0 <= Row.http_2xx_count r /\ 0 <= Row.http_3xx_count r
            /\ 0 <= Row.http_4xx_count r /\ 0 <= Row.http_5xx_count r
            /\ 0 <= Row.crc_errors r) rows.
Proof.
  apply every_row_with_draws. intros m sl r d v _ _ Hd.
  destruct Hd as (Hreq & H500 & H502 & H503 & H504 & Hcrc & _ & Hinc
                  & (gb & gb' & Hb) & Hr).
  assert (Locals.status_503 (locals_of_draws d) <= Locals.status_503 v
          /\ Locals.status_504 (locals_of_draws d) <= Locals.status_504 v
          /\ Locals.crc_errors (locals_of_draws d) <= Locals.crc_errors v)
    as (G503 & G504 & Gcrc).
  { refine (apply_incidents_invariant
              (fun v' => Locals.status_503 (locals_of_draws d) <= Locals.status_503 v'
                         /\ Locals.status_504 (locals_of_draws d) <= Locals.status_504 v'
                         /\ Locals.crc_errors (locals_of_draws d) <= Locals.crc_errors v')
              (d_requests d) (Z2F (Row.bytes_sent r) / 1e6)%float
              _ _ _ _ _ _ _ Hinc).
    - intros kind inten v1 v2 (I1 & I2 & I3) Hm.
      apply mutate_counts_grow in Hm; [lia | lia].
    - lia. }
  cbn [locals_of_draws Locals.status_503 Locals.status_504 Locals.crc_errors] in *.
  apply bucket_counts_inv in Hb. cbv zeta in Hb.
  unfold http_2xx_before_check in Hb. destruct Hb as (H5 & H4 & H3 & H2).
  assert (Row.requests r = d_requests d
          /\ Row.status_500 r = d_500 d /\ Row.status_502 r = d_502 d
          /\ Row.status_503 r = Locals.status_503 v
          /\ Row.status_504 r = Locals.status_504 v
          /\ Row.crc_errors r = Locals.crc_errors v) as (E1 & E2 & E3 & E4 & E5 & E6).
  { rewrite Hr. cbn. repeat split; reflexivity. }
  rewrite E1, E2, E3, E4, E5, E6.
  destruct (negb _) in H2; repeat split; lia.
Qed.

End NonNegative.

Lemma counts_nonnegative_witness :
  Forall (fun r => 0 < Row.requests r /\ 0 <= Row.status_503 r /\ 0 <= Row.crc_errors r)
    Scenario.overloaded_rows.
Proof.
  pose proof (@counts_nonnegative Replay.libm (Replay.generator false)
                Scenario.overloaded Scenario.overloaded_rows) as H.
  eapply Forall_impl; [|apply H; vm_compute; reflexivity].
  intros r (H1 & _ & _ & H2 & _ & _ & _ & _ & _ & H3). repeat split; assumption.
Defined.

(** ** Calls that raise *)

Section Errors.

Context {L : Libm} {G : Generator}.

Lemma numbered_nil prefix width n : n <= 0 -> numbered prefix width n = [].
Proof.
  intros Hn. unfold numbered. replace (Z.to_nat n) with O by lia. reflexivity.
Qed.

Lemma POOL_SIZE_succ : POOL_SIZE = S (Z.to_nat 4999).
Proof. unfold POOL_SIZE. lia. Qed.

(** The first slice of the pool already draws from every catalog. *)
Lemma build_pool_empty_catalog n partners services regions pops hosts
    content_types ua_families g :
  partners = [] \/ pops = [] \/ hosts = [] ->
  build_pool (S n) partners services regions pops hosts content_types ua_families g
  = Raise ValueError.
Proof.
  intros Hempty. cbn [build_pool].
  destruct partners as [|p partners]; [reflexivity|].
  unfold bind at 1.
  destruct (rng_choice_ok (p :: partners) g) as (x1 & g1 & ->); [discriminate|].
  destruct services as [|s services]; [reflexivity|].
  unfold bind at 1.
  destruct (rng_choice_ok (s :: services) g1) as (x2 & g2 & ->); [discriminate|].
  destruct regions as [|r regions]; [reflexivity|].
  unfold bind at 1.
  destruct (rng_choice_ok (r :: regions) g2) as (x3 & g3 & ->); [discriminate|].
  destruct pops as [|q pops]; [reflexivity|].
  unfold bind at 1.
  destruct (rng_choice_ok (q :: pops) g3) as (x4 & g4 & ->); [discriminate|].
  destruct hosts as [|h hosts]; [reflexivity|].
  destruct Hempty as [H|[H|H]]; discriminate.
Qed.

(** A negative seed, or a partner, PoP or host count below one, makes
    the call raise ValueError - whatever [minutes] is, so also where no
    minute would have been generated: the seed is refused by [default_rng],
    and an empty name list by the first [rng.choice] of the slice pool. *)
Theorem invalid_arguments_raise a :
  seed a < 0 \/ n_partners a <= 0 \/ n_pops a <= 0 \/ n_hosts a <= 0 ->
  generate_minute_logs a = Raise ValueError.
Proof.
  intros Hbad. unfold generate_minute_logs.
  destruct (seed a <? 0) eqn:Hseed; [reflexivity|].
  apply Z.ltb_ge in Hseed.
  unfold generate_body. rewrite POOL_SIZE_succ. unfold bind at 1.
  rewrite build_pool_empty_catalog; [reflexivity|].
  destruct Hbad as [H|[H|[H|H]]]; [lia| | |].
  - left. now apply numbered_nil.
  - right. left. now apply numbered_nil.
  - right. right. now apply numbered_nil.
Qed.


End Errors.

Lemma invalid_arguments_raise_witness :
  Replay.run false
    (mkArgs Replay.epoch_2026_02_20 0 6 0 120 None None None None 7 None 0.10%float)
  = Raise ValueError.
Proof.
  apply (@invalid_arguments_raise Replay.libm (Replay.generator false)).
  cbn. lia.
Defined.


(** ** Incidents that do not apply *)

Section Idle.

Context {L : Libm} {G : Generator}.

Lemma bind_ext {A B} (c c' : M A) (k k' : A -> M B) g :
  c g = c' g ->
  (forall a g', c' g = Ok (a, g') -> k a g' = k' a g') ->
  bind c k g = bind c' k' g.
Proof.
  intros Hc Hk. unfold bind. rewrite Hc.
  destruct (c' g) as [[a g']|e]; [now apply Hk | reflexivity].
Qed.

Lemma apply_incidents_idle incidents ts sl requests mb v :
  Datetime.tzaware ts = true -> Forall window_aware incidents ->
  (forall inc, In inc incidents -> incident_appliesb ts sl inc = false) ->
  apply_incidents incidents ts sl requests mb v = Ok v.
Proof.
  intros Hts Haw. induction Haw as [|inc rest Hw _ IH]; intros Hidle; [reflexivity|].
  rewrite (apply_incidents_cons inc rest ts sl requests mb v Hts Hw).
  rewrite (Hidle inc (or_introl eq_refl)).
  apply IH. intros i Hi. apply Hidle. now right.
Qed.

(** The incident loop is the only place where the incident list is read,
    and it draws nothing. *)
Lemma slice_minute_idle seed incidents ts mult sl g :
  (forall requests mb v, apply_incidents incidents ts sl requests mb v = Ok v) ->
  slice_minute seed incidents ts mult sl g = slice_minute seed [] ts mult sl g.
Proof.
  intros Hidle. unfold slice_minute.
  apply bind_ext; [reflexivity|]. intros requests g0 _.
  destruct (requests =? 0); [reflexivity|].
  do 11 (apply bind_ext; [reflexivity|]; intros ? ? _).
  rewrite Hidle. reflexivity.
Qed.

Lemma slice_loop_idle seed incidents ts mult pool idxs :
  (forall sl, In sl pool ->
     forall requests mb v, apply_incidents incidents ts sl requests mb v = Ok v) ->
  forall g,
    slice_loop seed incidents ts mult pool idxs g
    = slice_loop seed [] ts mult pool idxs g.
Proof.
  intros Hidle. induction idxs as [|idx idxs IH]; intros g; [reflexivity|].
  cbn [slice_loop]. apply bind_ext; [reflexivity|]. intros sl g0 Hsl.
  apply lift_Ok_inv in Hsl as (Hsl & _).
  destruct (nth_error pool idx) as [sl'|] eqn:E; [|discriminate].
  inversion Hsl; subst sl'. apply nth_error_In in E.
  apply bind_ext; [exact (slice_minute_idle seed incidents ts mult sl g0 (Hidle sl E))|].
  intros r g1 _.
  apply bind_ext; [apply IH|]. reflexivity.
Qed.

Lemma minute_loop_idle seed incidents ts0 density pool ms :
  (forall m sl, In m ms -> In sl pool ->
     forall requests mb v,
       apply_incidents incidents (Datetime.add_minutes ts0 m) sl requests mb v = Ok v) ->
  forall g,
    minute_loop seed incidents ts0 density pool ms g
    = minute_loop seed [] ts0 density pool ms g.
Proof.
  induction ms as [|m ms IH]; intros Hidle g; [reflexivity|].
  cbn [minute_loop]. apply bind_ext.
  - unfold minute_rows. apply bind_ext; [reflexivity|]. intros idxs g1 _.
    apply slice_loop_idle. intros sl Hsl. apply Hidle; [now left | exact Hsl].
  - intros rows g1 _. apply bind_ext; [|reflexivity].
    apply IH. intros m' sl Hm Hsl. apply Hidle; [now right | exact Hsl].
Qed.

(** The same call with [incidents=None]. *)
Definition without_incidents (a : Args) : Args :=
  mkArgs (start_ts_utc a) (minutes a) (n_partners a) (n_pops a) (n_hosts a)
         (services a) (regions a) (content_types a) (ua_families a)
         (seed a) None (density a).

(** Incidents none of which applies to any minute of the run and any
    slice the catalogs can form - a window that ends before the run starts,
    starts after it ends or is empty, or a filter naming a value outside the
    catalogs - change nothing: the call returns exactly what it returns
    with [incidents=None], row for row and exception for exception. *)
Theorem idle_incidents_change_nothing a :
  Forall window_aware (incidents_of a) ->
  (forall inc m sl,
      In inc (incidents_of a) -> 0 <= m < minutes a -> in_catalogs a sl ->
      incident_appliesb
        (Datetime.add_minutes (_utc_minute_floor (start_ts_utc a)) m) sl inc = false) ->
  generate_minute_logs a = generate_minute_logs (without_incidents a).
Proof.
  intros Haw Hidle. unfold generate_minute_logs.
  change (seed (without_incidents a)) with (seed a).
  destruct (seed a <? 0); [reflexivity|].
  assert (generate_body a (seed_bitgen (seed a))
          = generate_body (without_incidents a) (seed_bitgen (seed a))) as ->;
    [|reflexivity].
  unfold generate_body, without_incidents.
  cbn [start_ts_utc minutes n_partners n_pops n_hosts services regions
       content_types ua_families seed incidents density].
  apply bind_ext; [reflexivity|]. intros pool g1 Hpool.
  apply build_pool_inv in Hpool as (_ & Hcat).
  rewrite Forall_forall in Hcat.
  apply (minute_loop_idle (seed a) (incidents_of a)).
  intros m sl Hm Hsl requests mb v.
  apply apply_incidents_idle; [reflexivity | exact Haw |].
  intros inc Hinc. apply Hidle; [exact Hinc | now apply range_In | now apply Hcat].
Qed.

(** A run that returned has compared every incident's window with the
    minute of every slice that had requests. *)
Lemma apply_incidents_Ok_aware incidents ts sl requests mb :
  Datetime.tzaware ts = true ->
  forall v v',
    apply_incidents incidents ts sl requests mb v = Ok v' ->
    Forall (fun inc =>
              Datetime.tzaware (Incident.start_ts inc) = true
              /\ (Datetime.instant_us (Incident.start_ts inc) <= Datetime.instant_us ts ->
                  Datetime.tzaware (Incident.end_ts inc) = true))
           incidents.
Proof.
  intros Hts. induction incidents as [|inc rest IH]; intros v v' H; constructor.
  - cbn [apply_incidents] in H. apply rbind_Ok_inv in H as (w & Hw & _).
    unfold in_window in Hw. apply rbind_Ok_inv in Hw as (b & Hle & Hlt).
    unfold Datetime.le in Hle. rewrite Hts in Hle.
    destruct (Datetime.tzaware (Incident.start_ts inc)); [|discriminate].
    split; [reflexivity|]. intros Hinst.
    cbn in Hle. inversion Hle; subst b.
    apply Z.leb_le in Hinst. rewrite Hinst in Hlt.
    unfold Datetime.lt in Hlt. rewrite Hts in Hlt.
    destruct (Datetime.tzaware (Incident.end_ts inc)); [reflexivity | discriminate].
  - cbn [apply_incidents] in H. apply rbind_Ok_inv in H as (w & _ & H).
    destruct (negb w); [exact (IH _ _ H)|].
    destruct (negb (slice_matches inc sl)); [exact (IH _ _ H)|].
    apply rbind_Ok_inv in H as (v1 & _ & H). exact (IH _ _ H).
Qed.

(** A dataset is returned with a row in it only if every incident's
    [start_ts] is timezone-aware, and its [end_ts] too wherever the window
    has already started at that row's minute: a naive bound never filters
    silently, its comparison with the minute timestamp raises. *)
Theorem rows_need_aware_incidents a rows :
  generate_minute_logs a = Ok rows ->
  Forall (fun r =>
            Forall (fun inc =>
                      Datetime.tzaware (Incident.start_ts inc) = true
                      /\ (Datetime.instant_us (Incident.start_ts inc)
                          <= Datetime.instant_us (Row.ts r) ->
                          Datetime.tzaware (Incident.end_ts inc) = true))
                   (incidents_of a))
         rows.
Proof.
  apply every_row_with_draws. intros m sl r d v _ _ Hd.
  destruct Hd as (_ & _ & _ & _ & _ & _ & _ & Hinc & _ & Hr).
  assert (Row.ts r = Datetime.add_minutes (_utc_minute_floor (start_ts_utc a)) m) as ->
    by (rewrite Hr; reflexivity).
  eapply apply_incidents_Ok_aware; [|exact Hinc]. reflexivity.
Qed.

End Idle.

Lemma idle_incidents_change_nothing_witness :
  Replay.run false
    (mkArgs Replay.epoch_2026_02_20 1 6 20 120 None None None None 7
       (Some [Incident.mk "next day"
                (Datetime.mk 1771632000000000 true) (Datetime.mk 1771635600000000 true)
                "latency" None None None None None 2%float])
       0%float)
  = Replay.run false Scenario.one_minute.
Proof.
  apply (@idle_incidents_change_nothing Replay.libm (Replay.generator false)).
  - repeat constructor.
  - intros inc m sl [<-|[]] Hm _. cbn in Hm.
    unfold incident_appliesb.
    replace m with 0 by lia. reflexivity.
Defined.

Lemma rows_need_aware_incidents_witness :
  Forall (fun r =>
            Forall (fun inc => Datetime.tzaware (Incident.start_ts inc) = true)
                   (incidents_of Scenario.overloaded))
         Scenario.overloaded_rows.
Proof.
  pose proof (@rows_need_aware_incidents Replay.libm (Replay.generator false)
                Scenario.overloaded Scenario.overloaded_rows) as H.
  eapply Forall_impl; [|apply H; vm_compute; reflexivity].
  intros r Hr. eapply Forall_impl; [|exact Hr].
  intros inc (Hs & _). exact Hs.
Defined.

(** ** Rows no incident touches *)

Section Baseline.

Context {L : Libm} {G : Generator}.

Lemma fmax_floor a b : is_nan a = false -> (a <=? fmax a b)%float = true.
Proof.
  intros Ha. unfold fmax. destruct (a <? b)%float eqn:E.
  - now apply ltb_leb.
  - now apply leb_refl.
Qed.

(** The slice a row was generated for. *)
Definition slice_of_row (r : Row.t) : Slice.t :=
  Slice.mk (Row.partner r) (Row.service r) (Row.region r) (Row.pop r)
           (Row.host r) (Row.content_type r) (Row.ua_family r).

(** A row whose minute and slice no incident applies to - every row,
    when the call has no incidents - keeps the floors of the baseline
    model: p50_ms >= 5.0 and cache_hit_rate in [0.05, 0.99], neither being
    NaN whatever the generator drew, and status_503 and status_504 are the
    unmodified binomial draws, so at most [requests]. *)
Theorem untouched_rows_baseline a rows :
  Forall window_aware (incidents_of a) ->
  generate_minute_logs a = Ok rows ->
  Forall (fun r =>
            (forall inc, In inc (incidents_of a) ->
                         incident_appliesb (Row.ts r) (slice_of_row r) inc = false) ->
            (5.0 <=? Row.p50_ms r)%float = true
            /\ (0.05 <=? Row.cache_hit_rate r)%float = true
            /\ (Row.cache_hit_rate r <=? 0.99)%float = true
            /\ 0 <= Row.status_503 r <= Row.requests r
            /\ 0 <= Row.status_504 r <= Row.requests r)
         rows.
Proof.
  intros Haw. apply every_row_with_draws. intros m sl r d v _ _ Hd.
  destruct Hd as (_ & _ & _ & H503 & H504 & _ & _ & Hinc & _ & Hr).
  intros Hidle.
  assert (Row.ts r = Datetime.add_minutes (_utc_minute_floor (start_ts_utc a)) m)
    as Hts by (rewrite Hr; reflexivity).
  assert (slice_of_row r = sl) as Hsl
    by (rewrite Hr; destruct sl; reflexivity).
  rewrite Hts, Hsl in Hidle.
  rewrite apply_incidents_idle in Hinc; [|reflexivity|exact Haw|exact Hidle].
  inversion Hinc as [Hv]. subst v. rewrite Hr.
  cbn [Row.p50_ms Row.cache_hit_rate Row.status_503 Row.status_504 Row.requests
       locals_of_draws Locals.p50 Locals.cache_hit Locals.status_503 Locals.status_504].
  destruct (clamp_bounds (d_cache d) 0.05 0.99 eq_refl) as (Hlo & Hhi).
  repeat split; try lia; try assumption.
  now apply fmax_floor.
Qed.

End Baseline.

Lemma untouched_rows_baseline_witness :
  Forall (fun r => (5.0 <=? Row.p50_ms r)%float = true
                   /\ (0.05 <=? Row.cache_hit_rate r)%float = true
                   /\ Row.status_503 r <= Row.requests r)
         Scenario.one_minute_rows.
Proof.
  pose proof (@untouched_rows_baseline Replay.libm (Replay.generator false)
                Scenario.one_minute Scenario.one_minute_rows) as H.
  eapply Forall_impl; [|apply H; [constructor | vm_compute; reflexivity]].
  intros r Hr. destruct Hr as (H1 & H2 & _ & H3 & _); [intros inc []|].
  repeat split; [exact H1 | exact H2 | lia].
Defined.

(** ** The numbered catalogs *)

From Stdlib Require Import DecimalN.

Section Names.

(** Reading a string of decimal digits, leading zeros allowed: [int(s)]. *)
Definition int_of_digits (digits : string) : option N :=
  option_map N.of_uint (NilEmpty.uint_of_string digits).

Lemma int_of_digits_zero s : int_of_digits (String "0" s) = int_of_digits s.
Proof.
  unfold int_of_digits. cbn [NilEmpty.uint_of_string].
  destruct (NilEmpty.uint_of_string s) as [d|]; reflexivity.
Qed.

Lemma int_of_digits_to_uint n :
  int_of_digits (NilEmpty.string_of_uint (N.to_uint n)) = Some n.
Proof.
  unfold int_of_digits. rewrite NilEmpty.usu. cbn [option_map].
  now rewrite DecimalN.Unsigned.of_to.
Qed.

Lemma zeros_succ k :
  String.concat "" (repeat "0" (S k)) = String "0" (String.concat "" (repeat "0" k)).
Proof. destruct k; reflexivity. Qed.

Lemma zeros_length k : String.length (String.concat "" (repeat "0" k)) = k.
Proof.
  induction k as [|k IH]; [reflexivity|].
  rewrite zeros_succ. cbn [String.length]. now rewrite IH.
Qed.

Lemma length_append (s s' : string) :
  String.length (s ++ s') = (String.length s + String.length s')%nat.
Proof. induction s as [|c s IH]; cbn; [reflexivity | now rewrite IH]. Qed.

Lemma append_inj_left (p s s' : string) : p ++ s = p ++ s' -> s = s'.
Proof.
  induction p as [|c p IH]; cbn; intros H; [exact H|].
  inversion H. now apply IH.
Qed.

Lemma int_of_digits_padded k s :
  int_of_digits (String.concat "" (repeat "0" k) ++ s) = int_of_digits s.
Proof.
  induction k as [|k IH]; [reflexivity|].
  rewrite zeros_succ. cbn [append]. now rewrite int_of_digits_zero.
Qed.

(** [int(f"{i:0{width}d}") == i] *)
Lemma zero_pad_read width i : int_of_digits (zero_pad width i) = Some (Z.to_N i).
Proof.
  unfold zero_pad. cbv zeta.
  set (digits := NilEmpty.string_of_uint (N.to_uint (Z.to_N i))).
  pose proof (int_of_digits_to_uint (Z.to_N i)) as Hread. fold digits in Hread.
  destruct (String.length digits =? 0)%nat eqn:E.
  - apply Nat.eqb_eq in E. destruct digits as [|c s]; [|discriminate].
    rewrite int_of_digits_padded. cbn in Hread. now rewrite <- Hread.
  - rewrite int_of_digits_padded. exact Hread.
Qed.

Lemma zero_pad_width width i : (width <= String.length (zero_pad width i))%nat.
Proof.
  unfold zero_pad. cbv zeta.
  destruct (String.length _ =? 0)%nat; rewrite length_append, zeros_length; lia.
Qed.

(** The name lists [partner_01 ...], [pop_001 ...], [host_0001 ...]:
    [max(n, 0)] names, pairwise distinct, each the prefix followed by at
    least [width] digits that read back as the name's number between 1 and
    [n]. *)
Theorem numbered_names prefix width n :
  List.length (numbered prefix width n) = Z.to_nat n
  /\ NoDup (numbered prefix width n)
  /\ Forall (fun name =>
               exists digits i,
                 name = prefix ++ digits
                 /\ (width <= String.length digits)%nat
                 /\ int_of_digits digits = Some (Z.to_N i)
                 /\ 1 <= i <= n)
            (numbered prefix width n).
Proof.
  unfold numbered. split; [|split].
  - now rewrite length_map, length_seq.
  - apply NoDup_map_NoDup_ForallPairs; [|apply seq_NoDup].
    intros i j _ _ H. apply append_inj_left in H.
    apply (f_equal int_of_digits) in H. rewrite !zero_pad_read in H.
    inversion H. lia.
  - apply Forall_forall. intros name Hname.
    apply in_map_iff in Hname as (i & <- & Hi). apply in_seq in Hi.
    exists (zero_pad width (Z.of_nat i)), (Z.of_nat i).
    repeat split; try lia.
    + apply zero_pad_width.
    + apply zero_pad_read.
Qed.

End Names.

(** ** How a call can fail *)

Section Failures.

Context {L : Libm} {G : Generator}.

Lemma rbind_Raise_inv {A B} (r : result A) (k : A -> result B) e :
  rbind r k = Raise e -> r = Raise e \/ exists a, r = Ok a /\ k a = Raise e.
Proof.
  destruct r as [a|e']; cbn; intros H; [right; eauto | left].
  inversion H. reflexivity.
Qed.

Lemma bind_Raise_inv {A B} (c : M A) (k : A -> M B) g e :
  bind c k g = Raise e ->
  c g = Raise e \/ exists a g', c g = Ok (a, g') /\ k a g' = Raise e.
Proof.
  unfold bind. destruct (c g) as [[a g']|e']; intros H; [right; eauto | left].
  inversion H. reflexivity.
Qed.

Lemma lift_Raise_inv {A} (r : result A) g e : lift r g = Raise e -> r = Raise e.
Proof. unfold lift. destruct r; [discriminate|]. intros H. inversion H. reflexivity. Qed.

(** A step that only draws cannot raise. *)
Ltac draw_step H :=
  apply bind_Raise_inv in H as [H | (? & ? & _ & H)];
  [unfold rng_poisson, rng_normal, rng_lognormal, rng_binomial, draw in H;
   discriminate H|].

(** [int(x)] raises on NaN and on an infinity. *)
Definition conversion_error (e : exn) : Prop := e = ValueError \/ e = OverflowError.

(** What a slice-minute can raise: a conversion error, or the TypeError of
    comparing the minute with a naive window bound. *)
Definition slice_error (incidents : list Incident.t) (e : exn) : Prop :=
  conversion_error e \/ (e = TypeError /\ ~ Forall window_aware incidents).

Lemma py_int_raises x e : py_int x = Raise e -> conversion_error e.
Proof.
  unfold py_int, conversion_error.
  destruct (Prim2SF x); intros H; inversion H; auto.
Qed.

Lemma mutate_raises kind inten requests mb v e :
  mutate kind inten requests mb v = Raise e -> conversion_error e.
Proof.
  unfold mutate.
  destruct (String.eqb kind "latency"); [discriminate|].
  destruct (String.eqb kind "cache_collapse"); [discriminate|].
  destruct (String.eqb kind "origin_overload").
  { intros H. apply rbind_Raise_inv in H as [H | (d & _ & H)];
      [now apply py_int_raises in H | discriminate]. }
  destruct (String.eqb kind "timeouts").
  { intros H. apply rbind_Raise_inv in H as [H | (d & _ & H)];
      [now apply py_int_raises in H | discriminate]. }
  destruct (String.eqb kind "crc_spike"); [|discriminate].
  intros H. apply rbind_Raise_inv in H as [H | (d & _ & H)];
    [now apply py_int_raises in H | discriminate].
Qed.

Lemma in_window_raises inc ts e :
  Datetime.tzaware ts = true ->
  in_window inc ts = Raise e -> e = TypeError /\ ~ window_aware inc.
Proof.
  intros Hts. unfold in_window, Datetime.le, Datetime.lt, window_aware. rewrite Hts.
  destruct (Datetime.tzaware (Incident.start_ts inc)); cbn.
  - destruct (_ <=? _); [|discriminate].
    destruct (Datetime.tzaware (Incident.end_ts inc)); cbn; [discriminate|].
    intros H. inversion H. split; [reflexivity|]. intros (_ & Hend). discriminate.
  - intros H. inversion H. split; [reflexivity|]. intros (Hstart & _). discriminate.
Qed.

Lemma apply_incidents_raises incidents ts sl requests mb e :
  Datetime.tzaware ts = true ->
  forall v, apply_incidents incidents ts sl requests mb v = Raise e ->
            slice_error incidents e.
Proof.
  intros Hts. unfold slice_error.
  induction incidents as [|inc rest IH]; intros v H; [discriminate|].
  assert (forall v', apply_incidents rest ts sl requests mb v' = Raise e ->
                     conversion_error e
                     \/ e = TypeError /\ ~ Forall window_aware (inc :: rest)) as Hrest.
  { intros v' H'. destruct (IH v' H') as [Hc | (Ht & Hn)]; [now left|].
    right. split; [exact Ht|]. intros Hall. inversion Hall. contradiction. }
  cbn [apply_incidents] in H.
  apply rbind_Raise_inv in H as [H | (w & _ & H)].
  - apply (in_window_raises inc ts e Hts) in H as (Ht & Hn).
    right. split; [exact Ht|]. intros Hall. inversion Hall. contradiction.
  - destruct (negb w); [exact (Hrest v H)|].
    destruct (negb (slice_matches inc sl)); [exact (Hrest v H)|].
    apply rbind_Raise_inv in H as [H | (v1 & _ & H)].
    + left. exact (mutate_raises _ _ _ _ _ _ H).
    + exact (Hrest v1 H).
Qed.

Lemma bucket_counts_total service ctype requests s500 s502 s503 s504 g e :
  bucket_counts service ctype requests s500 s502 s503 s504 g <> Raise e.
Proof.
  unfold bucket_counts. cbv zeta. intros H.
  draw_step H. draw_step H. discriminate H.
Qed.

Lemma slice_minute_raises seed incidents ts mult sl g e :
  Datetime.tzaware ts = true ->
  slice_minute seed incidents ts mult sl g = Raise e -> slice_error incidents e.
Proof.
  intros Hts H. unfold slice_minute in H.
  draw_step H. destruct (_ =? 0); [discriminate H|].
  do 5 draw_step H.
  apply bind_Raise_inv in H as [H | (bytes_sent & ? & _ & H)].
  { apply lift_Raise_inv, py_int_raises in H. now left. }
  do 5 draw_step H.
  apply bind_Raise_inv in H as [H | (v & ? & _ & H)].
  { apply lift_Raise_inv in H. exact (apply_incidents_raises _ _ _ _ _ _ Hts _ H). }
  apply bind_Raise_inv in H as [H | (b & ? & _ & H)].
  { now apply bucket_counts_total in H. }
  destruct b as [[[? ?] ?] ?]. discriminate H.
Qed.

(** The indices of a minute are positions of the pool. *)
Lemma slice_loop_raises seed incidents ts mult pool idxs e :
  Datetime.tzaware ts = true ->
  Forall (fun i => (i < List.length pool)%nat) idxs ->
  forall g, slice_loop seed incidents ts mult pool idxs g = Raise e ->
            slice_error incidents e.
Proof.
  intros Hts. induction 1 as [|idx idxs Hidx _ IH]; intros g H; [discriminate H|].
  cbn [slice_loop] in H.
  apply bind_Raise_inv in H as [H | (sl & ? & _ & H)].
  { apply lift_Raise_inv in H.
    destruct (nth_error pool idx) eqn:E; [discriminate H|].
    apply nth_error_None in E. lia. }
  apply bind_Raise_inv in H as [H | (r & ? & _ & H)].
  { exact (slice_minute_raises _ _ _ _ _ _ _ Hts H). }
  apply bind_Raise_inv in H as [H | (rest & ? & _ & H)]; [|discriminate H].
  exact (IH _ H).
Qed.

Lemma minute_loop_raises seed incidents ts0 density pool ms e :
  Datetime.tzaware ts0 = true ->
  forall g, minute_loop seed incidents ts0 density pool ms g = Raise e ->
            slice_error incidents e.
Proof.
  intros Hts. induction ms as [|m ms IH]; intros g H; [discriminate H|].
  cbn [minute_loop] in H.
  apply bind_Raise_inv in H as [H | (rows & ? & _ & H)].
  - unfold minute_rows in H.
    apply bind_Raise_inv in H as [H | (idxs & g1 & Hidxs & H)].
    + left. unfold minute_sample in H.
      apply bind_Raise_inv in H as [H | (k & ? & _ & H)].
      * apply lift_Raise_inv in H. unfold sample_size in H.
        apply rbind_Raise_inv in H as [H | (n & _ & H)]; [|discriminate H].
        exact (py_int_raises _ _ H).
      * unfold rng_choice_distinct in H.
        destruct (_ || _).
        { apply lift_Raise_inv in H. inversion H. now right. }
        destruct (_ || _); [|discriminate H].
        apply lift_Raise_inv in H. inversion H. now left.
    + apply minute_sample_inv in Hidxs as (k & _ & _ & _ & _ & Hlt).
      refine (slice_loop_raises _ _ (Datetime.add_minutes ts0 m) _ _ _ _ _ Hlt _ H).
      exact Hts.
  - apply bind_Raise_inv in H as [H | (rest & ? & _ & H)]; [|discriminate H].
    exact (IH _ H).
Qed.

Lemma rng_choice_raises {A} (a : list A) g e :
  rng_choice a g = Raise e -> e = ValueError.
Proof.
  destruct a as [|d a']; unfold rng_choice.
  - intros H. apply lift_Raise_inv in H. now inversion H.
  - intros H. draw_step H. discriminate H.
Qed.

Lemma build_pool_raises n partners services regions pops hosts content_types
    ua_families e :
  forall g,
    build_pool n partners services regions pops hosts content_types ua_families g
    = Raise e ->
    e = ValueError.
Proof.
  induction n as [|n IH]; intros g H; [discriminate H|].
  cbn [build_pool] in H.
  do 7 (apply bind_Raise_inv in H as [H | (? & ? & _ & H)];
        [exact (rng_choice_raises _ _ _ H)|]).
  apply bind_Raise_inv in H as [H | (rest & ? & _ & H)]; [|discriminate H].
  exact (IH _ H).
Qed.

(** A failing call raises ValueError or OverflowError - from the seed, an
    empty name list, the sample size, or an [int()] of a NaN or an infinity -
    or, only when some incident has a naive window bound, TypeError. It
    never raises IndexError: every index of a minute's sample is a position
    of the slice pool. *)
Theorem failure_modes a e :
  generate_minute_logs a = Raise e ->
  e = ValueError \/ e = OverflowError
  \/ (e = TypeError /\ ~ Forall window_aware (incidents_of a)).
Proof.
  unfold generate_minute_logs.
  destruct (seed a <? 0); [intros H; inversion H; now left|].
  destruct (generate_body a (seed_bitgen (seed a))) as [[rows g']|e'] eqn:E;
    [discriminate|].
  intros H. inversion H; subst e'. clear H.
  unfold generate_body in E.
  apply bind_Raise_inv in E as [E | (pool & g1 & _ & E)].
  - left. exact (build_pool_raises _ _ _ _ _ _ _ _ _ _ E).
  - apply minute_loop_raises in E; [|reflexivity].
    destruct E as [[E|E]|E]; auto.
Qed.

End Failures.

Lemma failure_modes_witness :
  Replay.run false
    (mkArgs Replay.epoch_2026_02_20 1 6 20 120 None None None None 7 None infinity)
  = Raise OverflowError
  /\ (OverflowError = ValueError \/ OverflowError = OverflowError
      \/ (OverflowError = TypeError /\ ~ Forall window_aware [])).
Proof.
  assert (Replay.run false
            (mkArgs Replay.epoch_2026_02_20 1 6 20 120 None None None None 7 None infinity)
          = Raise OverflowError) as Hrun by (vm_compute; reflexivity).
  split; [exact Hrun|].
  exact (@failure_modes Replay.libm (Replay.generator false) _ _ Hrun).
Defined.
